(** * Coil measurement viewer (app.py): indexing, reference densification,
      blank-info numbering and row navigation.

    A shallow embedding of the data-handling core of [app.py] and the
    properties of it that the specification talks about.

    Conventions.
    - a numpy array is the list of its values as rationals ([Q]); where the
      source computes with the elements of an array whose element type the
      file decides, the array comes with its [dtype]: floating point
      arithmetic is written with the operators of [Q] (rounding is
      abstracted), fixed-width integer arithmetic wraps around.
    - a Python exception is a value [Raise e] of the [result] type.
    - the dict [COIL_BLANK_INFO_RANGES] keeps insertion order, so it is an
      association list; assigning an existing key updates it in place.
    - Dash stores ([children] of hidden [Div]s) hold [None] or the decimal
      string of an integer; they are modelled by [option Z]. *)

From Stdlib Require Import String Ascii.
From Stdlib Require Import List ZArith QArith Qround Bool Lia Permutation.
Import ListNotations.
Close Scope Q_scope.
Open Scope string_scope.
Open Scope list_scope.

Set Implicit Arguments.

(** ** Python exceptions *)

Inductive exn : Type := IndexError | TypeError | ValueError.

Inductive result (A : Type) : Type :=
| Ok (a : A)
| Raise (e : exn).
Arguments Ok {A} a.
Arguments Raise {A} e.

Definition bind {A B : Type} (r : result A) (k : A -> result B) : result B :=
  match r with
  | Ok a => k a
  | Raise e => Raise e
  end.

Notation "x <- r ;; k" := (bind r (fun x => k))
  (at level 61, r at next level, right associativity).

(** [l[i]] for [0 <= i]. *)
Definition py_index {A : Type} (l : list A) (i : nat) : result A :=
  match nth_error l i with
  | Some a => Ok a
  | None => Raise IndexError
  end.

(** [l[-1]]. *)
Definition py_last {A : Type} (l : list A) : result A :=
  py_index l (length l - 1).

(** [for i in idx: s = body(s, i)], stopping at the first exception. *)
Fixpoint for_each {S : Type} (body : S -> nat -> result S)
         (idx : list nat) (s : S) : result S :=
  match idx with
  | [] => Ok s
  | i :: rest => s' <- body s i ;; for_each body rest s'
  end.

(** ** numpy scalars

    [a[i]] is a scalar of the element type of [a], and the sum of two such
    scalars is taken in that type: a floating point sum (a rational here),
    or, for the fixed-width integers, the sum modulo [2 ^ bits] (numpy warns
    and wraps).  [s / 2] is true division and gives a float whatever the type
    of [s].  The value of an integer element [n] is written [inject_Z n]. *)

Inductive width : Type := W8 | W16 | W32 | W64.

Definition bits (w : width) : Z :=
  match w with
  | W8 => 8
  | W16 => 16
  | W32 => 32
  | W64 => 64
  end.

Inductive dtype : Type :=
| Floating                              (* float16, float32, float64 *)
| Integer (signed : bool) (w : width).  (* int8 .. int64, uint8 .. uint64 *)

(** The value an integer takes when stored in [w] bits. *)
Definition wrap (signed : bool) (w : width) (n : Z) : Z :=
  let m := (2 ^ bits w)%Z in
  if signed then ((n + m / 2) mod m - m / 2)%Z else (n mod m)%Z.

(** [a + b] for two scalars of the same dtype. *)
Definition np_add (dt : dtype) (a b : Q) : Q :=
  match dt with
  | Floating => (a + b)%Q
  | Integer signed w => inject_Z (wrap signed w (Qfloor a + Qfloor b))
  end.

(** ** Reference densification: [generate_reference_display] *)

Module Densify.

Record display : Type := mkDisplay {
  display_x : list Q;
  display_z : list Q;
  is_midpoint : list bool
}.

Definition empty_display : display := mkDisplay [] [] [].

(** One turn of the loop [for i in range(len(ref_x) - 1)]; [dx] and [dz]
    are the dtypes of [ref_x] and [ref_z]. *)
Definition loop_body (dx dz : dtype) (ref_x ref_z : list Q) (d : display) (i : nat)
  : result display :=
  xi <- py_index ref_x i ;;
  zi <- py_index ref_z i ;;
  xj <- py_index ref_x (i + 1) ;;
  zj <- py_index ref_z (i + 1) ;;
  let mx := (np_add dx xi xj / 2)%Q in
  let mz := (np_add dz zi zj / 2)%Q in
  Ok (mkDisplay (display_x d ++ [xi; mx])
                (display_z d ++ [zi; mz])
                (is_midpoint d ++ [false; true])).

(** [generate_reference_display(ref_x, ref_z)] for arrays of dtypes [dx] and
    [dz]; the three lists of the result become float, float and bool
    arrays. *)
Definition generate_reference_display (dx dz : dtype) (ref_x ref_z : option (list Q))
  : result display :=
  match ref_x, ref_z with
  | Some rx, Some rz =>
      d <- for_each (loop_body dx dz rx rz) (seq 0 (length rx - 1)) empty_display ;;
      xl <- py_last rx ;;
      zl <- py_last rz ;;
      Ok (mkDisplay (display_x d ++ [xl]) (display_z d ++ [zl]) (is_midpoint d ++ [false]))
  | _, _ => Ok empty_display
  end.

End Densify.

(** ** The contents of an HDF5 file, as the loader reads them

    The h5py reader itself is outside the program; a file is represented by
    what the traversals of [get_available_coils_dynamic] and
    [get_coil_data_paths] find in it. *)

Inductive data_type : Type := screwdown | bending | profile.

(** The key of the data type in the result dict, and [key.capitalize()]. *)
Definition type_name (t : data_type) : string :=
  match t with
  | screwdown => "screwdown"
  | bending => "bending"
  | profile => "profile"
  end.

Definition capitalize (t : data_type) : string :=
  match t with
  | screwdown => "Screwdown"
  | bending => "Bending"
  | profile => "Profile"
  end.

(** A dataset read with [ds[:]]: one- or two-dimensional; a 2-D array is the
    list of its rows. *)
Inductive ndarray : Type :=
| Arr1 (v : list Q)
| Arr2 (rows : list (list Q)).

Record Group : Type := mkGroup {
  grp_x : ndarray;                        (* data_group['x'][:] *)
  grp_z : ndarray;                        (* data_group['z'][:] *)
  grp_attrs : string -> option (list Q);  (* data_group.attrs *)
  grp_ref_x : option (list Q);            (* data_group['ref_x'][:], if present *)
  grp_ref_z : option (list Q);            (* data_group['ref_z'][:], if present *)
  grp_attr_dtype : string -> dtype;       (* np.array(data_group.attrs[name]).dtype *)
  grp_ref_x_dtype : dtype;                (* data_group['ref_x'].dtype *)
  grp_ref_z_dtype : dtype                 (* data_group['ref_z'].dtype *)
}.

Record File : Type := mkFile {
  (* the path segments that pass the coil test of [find_coils] (or, when
     there is none, the names built by [find_coils_alternative]), in the
     order [visititems] meets them *)
  coil_parts : list string;
  (* [f[get_coil_data_paths(file, coil)[data_type]]]; the coil [""] stands
     for the search over the whole file *)
  data_group : string -> data_type -> option Group
}.

(** ** Coil discovery and ordering *)

Module Coils.

Definition is_digit (c : ascii) : bool :=
  ((48 <=? nat_of_ascii c) && (nat_of_ascii c <=? 57))%nat.

(** [int(''.join(filter(str.isdigit, name)))], and 0 when no digit occurs. *)
Fixpoint digits_value (acc : Z) (s : string) : Z :=
  match s with
  | EmptyString => acc
  | String c rest =>
      if is_digit c
      then digits_value (10 * acc + Z.of_nat (nat_of_ascii c - 48)) rest
      else digits_value acc rest
  end.

Definition extract_coil_number (coil_name : string) : Z := digits_value 0 coil_name.

Definition mem (x : string) (l : list string) : bool := existsb (String.eqb x) l.

(** [if part not in available_coils: available_coils.append(part)]. *)
Definition append_new (acc : list string) (part : string) : list string :=
  if mem part acc then acc else acc ++ [part].

(** [sorted(l, key=key)]: a stable sort. *)
Fixpoint insert_by (key : string -> Z) (x : string) (l : list string) : list string :=
  match l with
  | [] => [x]
  | y :: rest => if (key x <=? key y)%Z then x :: y :: rest else y :: insert_by key x rest
  end.

Definition sorted_by (key : string -> Z) (l : list string) : list string :=
  fold_right (insert_by key) [] l.

(** [get_available_coils_dynamic].  [list(set(l))] is read as [l]: [l] has no
    duplicates already, and the order Python gives to the set only decides
    the order of coils with the same number.  Coil names are ASCII text:
    [int] reads every run of the digits 0 to 9, so [extract_number] does
    not raise and the [except] clause, which empties the list, is left to
    a file that cannot be opened, where no coil is met. *)
Definition get_available_coils_dynamic (f : File) : list string :=
  sorted_by extract_coil_number (fold_left append_new (coil_parts f) []).

End Coils.

(** ** The range table [COIL_BLANK_INFO_RANGES] and blank-info numbers *)

Module Ranges.

Record CoilRange : Type := mkRange {
  rng_start : Z;
  rng_end : Z;
  rng_count : nat
}.

(** The dict, in insertion order. *)
Definition table : Type := list (string * CoilRange).

Fixpoint lookup (coil : string) (tbl : table) : option CoilRange :=
  match tbl with
  | [] => None
  | (k, r) :: rest => if String.eqb coil k then Some r else lookup coil rest
  end.

(** [tbl[coil] = r]: an existing key keeps its place, a new one goes last. *)
Fixpoint dict_set (tbl : table) (coil : string) (r : CoilRange) : table :=
  match tbl with
  | [] => [(coil, r)]
  | (k, r0) :: rest =>
      if String.eqb coil k then (k, r) :: rest else (k, r0) :: dict_set rest coil r
  end.

(** [max(l)] of a non-empty list. *)
Definition py_max (l : list Z) : Z :=
  match l with
  | [] => 0%Z
  | x :: rest => fold_left Z.max rest x
  end.

(** [np.arange(a, b)]. *)
Definition arange (a b : Z) : list Z :=
  map (fun i => (a + Z.of_nat i)%Z) (seq 0 (Z.to_nat (b - a))).

(** [generate_coil_blank_info]: the numbers of the coil's rows, and the table
    afterwards (a coil without a range gets one after the largest end). *)
Definition generate_coil_blank_info (tbl : table) (coil_name : string) (num_rows : nat)
  : list Z * table :=
  match lookup coil_name tbl with
  | Some r =>
      let start_num := rng_start r in
      (arange start_num (start_num + Z.of_nat num_rows), tbl)
  | None =>
      let start_num :=
        match tbl with
        | [] => 1%Z
        | _ => (py_max (map (fun kr => rng_end (snd kr)) tbl) + 1)%Z
        end in
      let end_num := (start_num + Z.of_nat num_rows - 1)%Z in
      (arange start_num (start_num + Z.of_nat num_rows),
       dict_set tbl coil_name (mkRange start_num end_num num_rows))
  end.

(** [np.where(blank_info == target)[0]]: the indices of the matches. *)
Fixpoint where_eq (from : nat) (blank_info : list Z) (target : Z) : list nat :=
  match blank_info with
  | [] => []
  | v :: rest =>
      if (v =? target)%Z then from :: where_eq (S from) rest target
      else where_eq (S from) rest target
  end.

(** The first match, [matching_indices[0]], when there is one. *)
Definition resolve_blank_info (blank_info : list Z) (target : Z) : option nat :=
  hd_error (where_eq 0 blank_info target).

End Ranges.

(** ** Loading one coil: [load_data_from_h5_dynamic] *)

Module Loader.

Import Ranges.

Record DataSeries : Type := mkSeries {
  actual_x : list (list Q);
  actual_z : list (list Q);
  ref_x : list Q;
  ref_z : list Q;
  is_midpoint : list bool
}.

(** [a.reshape(1, -1)] for a 1-D read. *)
Definition as_2d (a : ndarray) : list (list Q) :=
  match a with
  | Arr1 v => [v]
  | Arr2 rows => rows
  end.

(** [a.shape[0]] and [a.size]. *)
Definition shape0 (a : list (list Q)) : nat := length a.
Definition size (a : list (list Q)) : nat := list_sum (map (@length Q) a).

Definition Qsum (l : list Q) : Q := fold_left Qplus l 0%Q.

(** [np.mean(a, axis=0)]: the mean of every column. *)
Definition mean_axis0 (a : list (list Q)) : list Q :=
  map (fun j => (Qsum (map (fun row => nth j row 0%Q) a)
                 / inject_Z (Z.of_nat (length a)))%Q)
      (seq 0 (length (hd [] a))).

Definition ref_attr_names (t : data_type) : list string :=
  [ (capitalize t ++ " ref x")%string; (type_name t ++ " ref x")%string;
    "ref_x"; "reference_x" ].

Definition ref_attr_names_z (t : data_type) : list string :=
  [ (capitalize t ++ " ref z")%string; (type_name t ++ " ref z")%string;
    "ref_z"; "reference_z" ].

(** [for attr_name in names: if attr_name in attrs: ref = attrs[attr_name]; break]. *)
Fixpoint first_attr {A : Type} (attrs : string -> option A) (names : list string)
  : option A :=
  match names with
  | [] => None
  | n :: rest =>
      match attrs n with
      | Some v => Some v
      | None => first_attr attrs rest
      end
  end.

Definition is_none {A : Type} (o : option A) : bool :=
  match o with None => true | Some _ => false end.

(** [if 'ref_x' in data_group: ref_x = data_group['ref_x'][:]]. *)
Definition take_dataset {A : Type} (ds cur : option A) : option A :=
  match ds with
  | Some v => Some v
  | None => cur
  end.

(** [if ref is None and actual.size > 0: ref = np.mean(actual, axis=0)]. *)
Definition fallback_mean (cur : option (list Q)) (actual : list (list Q)) : option (list Q) :=
  match cur with
  | None => if (0 <? size actual)%nat then Some (mean_axis0 actual) else None
  | Some v => Some v
  end.

(** The reference curves of a data group, after the three stages. *)
Definition resolve_reference (t : data_type) (g : Group)
  : option (list Q) * option (list Q) :=
  let ax := as_2d (grp_x g) in
  let az := as_2d (grp_z g) in
  let rx0 := first_attr (grp_attrs g) (ref_attr_names t) in
  let rz0 := first_attr (grp_attrs g) (ref_attr_names_z t) in
  let '(rx1, rz1) :=
    if is_none rx0 || is_none rz0
    then (take_dataset (grp_ref_x g) rx0, take_dataset (grp_ref_z g) rz0)
    else (rx0, rz0) in
  (fallback_mean rx1 ax, fallback_mean rz1 az).

(** The dtypes of the arrays that [resolve_reference] returns, stage by
    stage: an attribute and a dataset keep the dtype they are stored with,
    [np.mean] gives floats. *)
Definition attr_dtypes (g : Group) : string -> option dtype :=
  fun name =>
    match grp_attrs g name with
    | Some _ => Some (grp_attr_dtype g name)
    | None => None
    end.

Definition dataset_dtype (ds : option (list Q)) (dt : dtype) : option dtype :=
  match ds with
  | Some _ => Some dt
  | None => None
  end.

Definition fallback_dtype (cur : option dtype) (actual : list (list Q)) : option dtype :=
  match cur with
  | None => if (0 <? size actual)%nat then Some Floating else None
  | Some dt => Some dt
  end.

Definition resolve_dtype (t : data_type) (g : Group) : option dtype * option dtype :=
  let ax := as_2d (grp_x g) in
  let az := as_2d (grp_z g) in
  let dx0 := first_attr (attr_dtypes g) (ref_attr_names t) in
  let dz0 := first_attr (attr_dtypes g) (ref_attr_names_z t) in
  let '(dx1, dz1) :=
    if is_none dx0 || is_none dz0
    then (take_dataset (dataset_dtype (grp_ref_x g) (grp_ref_x_dtype g)) dx0,
          take_dataset (dataset_dtype (grp_ref_z g) (grp_ref_z_dtype g)) dz0)
    else (dx0, dz0) in
  (fallback_dtype dx1 ax, fallback_dtype dz1 az).

(** The body of the loop over the data paths for one data type: the entry of
    the result dict, [None] when the [continue] of the length check or of the
    [except] clause is taken. *)
Definition load_data_type (t : data_type) (g : Group) : option DataSeries :=
  let ax := as_2d (grp_x g) in
  let az := as_2d (grp_z g) in
  match resolve_reference t g, resolve_dtype t g with
  | (Some rx, Some rz), (Some dx, Some dz) =>
      if (length rx =? length rz)%nat then
        match Densify.generate_reference_display dx dz (Some rx) (Some rz) with
        | Ok d => Some (mkSeries ax az (Densify.display_x d) (Densify.display_z d)
                                 (Densify.is_midpoint d))
        | Raise _ => None
        end
      else None
  | _, _ => None
  end.

Record Loaded : Type := mkLoaded {
  r_screwdown : option DataSeries;
  r_bending : option DataSeries;
  r_profile : option DataSeries;
  r_blank_info : option (list Z)
}.

Definition get (r : Loaded) (t : data_type) : option DataSeries :=
  match t with
  | screwdown => r_screwdown r
  | bending => r_bending r
  | profile => r_profile r
  end.

Definition rows_of (o : option DataSeries) : nat :=
  match o with
  | Some s => shape0 (actual_x s)
  | None => 0
  end.

(** [for key in ["screwdown", "bending", "profile"]: num_rows = max(num_rows, ...)]. *)
Definition count_rows (sd bd pf : option DataSeries) : nat :=
  Nat.max (Nat.max (Nat.max 0 (rows_of sd)) (rows_of bd)) (rows_of pf).

Definition load_entry (f : File) (coil : string) (t : data_type) : option DataSeries :=
  match data_group f coil t with
  | Some g => load_data_type t g
  | None => None
  end.

(** [load_data_from_h5_dynamic(file_path, selected_coil)], with the range
    table it reads and may extend. *)
Definition load_data_from_h5_dynamic (tbl : table) (f : File) (selected_coil : string)
  : Loaded * table :=
  if is_none (data_group f selected_coil screwdown)
     && is_none (data_group f selected_coil bending)
     && is_none (data_group f selected_coil profile)
  then (mkLoaded None None None None, tbl)
  else
    let sd := load_entry f selected_coil screwdown in
    let bd := load_entry f selected_coil bending in
    let pf := load_entry f selected_coil profile in
    let num_rows := count_rows sd bd pf in
    if (0 <? num_rows)%nat then
      let '(blank_info, tbl') := generate_coil_blank_info tbl selected_coil num_rows in
      (mkLoaded sd bd pf (Some blank_info), tbl')
    else
      (mkLoaded sd bd pf (Some []), tbl).

(** The row count the loader finds for a coil of a file. *)
Definition file_rows (f : File) (coil : string) : nat :=
  count_rows (load_entry f coil screwdown) (load_entry f coil bending)
             (load_entry f coil profile).

(** Some data type of the coil loads. *)
Definition file_loads (f : File) (coil : string) : bool :=
  negb (is_none (load_entry f coil screwdown)) || negb (is_none (load_entry f coil bending))
  || negb (is_none (load_entry f coil profile)).

(** [any(result.values())]: some data type was loaded.  (The entries are
    tested before [blank_info], which is reached only when all three are
    [None] and is then [None] or an empty array.) *)
Definition any_values (r : Loaded) : bool :=
  negb (is_none (r_screwdown r)) || negb (is_none (r_bending r))
  || negb (is_none (r_profile r)).

Definition num_rows_of (r : Loaded) : nat :=
  count_rows (r_screwdown r) (r_bending r) (r_profile r).

End Loader.

(** ** The session: global variables, file loads and coil switches *)

Module Session.

Import Ranges Loader.

(** [calculate_coil_ranges]: one turn of the loop over the sorted coils; the
    state is the table and [current_start]. *)
Definition range_step (f : File) (st : table * Z) (coil_name : string) : table * Z :=
  let '(tbl, current_start) := st in
  let '(coil_data, tbl1) := load_data_from_h5_dynamic tbl f coil_name in
  if any_values coil_data then
    let num_rows := num_rows_of coil_data in
    if (0 <? num_rows)%nat then
      let end_num := (current_start + Z.of_nat num_rows - 1)%Z in
      (dict_set tbl1 coil_name (mkRange current_start end_num num_rows), (end_num + 1)%Z)
    else (tbl1, current_start)
  else (tbl1, current_start).

Definition calculate_coil_ranges (tbl : table) (f : File) (available_coils : list string)
  : table :=
  match available_coils with
  | [] => tbl
  | _ =>
      fst (fold_left (range_step f)
                     (Coils.sorted_by Coils.extract_coil_number available_coils)
                     ([], 1%Z))
  end.

(** The table that [calculate_coil_ranges] builds from the coils found in a
    file (when there are some). *)
Definition batch (f : File) : table :=
  fst (fold_left (range_step f)
                 (Coils.sorted_by Coils.extract_coil_number (Coils.get_available_coils_dynamic f))
                 ([], 1%Z)).

Record DataStore : Type := mkStore {
  ds_screwdown : option DataSeries;
  ds_bending : option DataSeries;
  ds_profile : option DataSeries;
  ds_blank_info : list Z                 (* data_store['blank_info']['data'] *)
}.

(** The module-level variables; [data_store = None] is the empty dict. *)
Record Globals : Type := mkGlobals {
  data_store : option DataStore;
  current_file_name : option string;
  data_rows : option nat;                (* config.data_rows *)
  available_coils : list string;
  selected_coil : string;
  selected_row : Z;
  COIL_BLANK_INFO_RANGES : table
}.

Definition initial_globals : Globals :=
  mkGlobals None None None ["coil 50"; "coil 51"; "coil 52"] "coil 50" 0 [].

(** The first block of [handle_h5_file_loading]: the coils of the file, the
    selected coil and the range table before the selected coil is loaded. *)
Definition select_coils (g : Globals) (f : File) : list string * string * table :=
  let file_coils := Coils.get_available_coils_dynamic f in
  match file_coils with
  | [] => ([], "", COIL_BLANK_INFO_RANGES g)
  | first :: _ =>
      let tbl := calculate_coil_ranges (COIL_BLANK_INFO_RANGES g) f file_coils in
      (file_coils,
       (if Coils.mem (selected_coil g) file_coils then selected_coil g else first),
       tbl)
  end.

(** [handle_h5_file_loading(file_path)]: [file_name] is the base name of the
    path and [f] what the file holds. *)
Definition handle_h5_file_loading (g : Globals) (file_name : string) (f : File)
  : Globals * bool :=
  let '(coils, sel, tbl) := select_coils g f in
  let '(dynamic_data, tbl1) := load_data_from_h5_dynamic tbl f sel in
  if any_values dynamic_data then
    let actual_num_rows := num_rows_of dynamic_data in
    let '(blank_info_data, tbl2) :=
      match r_blank_info dynamic_data with
      | Some b =>
          if negb (length b =? actual_num_rows)%nat
          then generate_coil_blank_info tbl1 sel actual_num_rows
          else (b, tbl1)
      | None => generate_coil_blank_info tbl1 sel actual_num_rows
      end in
    (mkGlobals (Some (mkStore (r_screwdown dynamic_data) (r_bending dynamic_data)
                              (r_profile dynamic_data) blank_info_data))
               (Some file_name) (Some actual_num_rows) coils sel 0 tbl2,
     true)
  else
    (mkGlobals (data_store g) (Some file_name) (data_rows g) coils sel 0 tbl1, false).

(** [update_coil_and_reload(coil_value, pathname)]; [found] is the file that
    [find_file_path(current_file_name)] locates, if any.  The result is the
    new globals and the callback's output ([None] for [dash.no_update]). *)
Definition update_coil_and_reload (g : Globals) (coil_value : option string)
           (pathname : string) (found : option File) : Globals * option string :=
  match coil_value with
  | Some c =>
      if negb (String.eqb c "") && negb (String.eqb c (selected_coil g)) then
        let g1 := mkGlobals (data_store g) (current_file_name g) (data_rows g)
                            (available_coils g) c 0 (COIL_BLANK_INFO_RANGES g) in
        let g2 :=
          match current_file_name g1, found with
          | Some name, Some f =>
              if String.eqb name "" then g1 else fst (handle_h5_file_loading g1 name f)
          | _, _ => g1
          end in
        (g2, Some pathname)
      else (g, None)
  | None => (g, None)
  end.

Inductive tab : Type := tab_screwdown | tab_bending | tab_profile | tab_all_data.

(** [update_max_row(tab)]: the integer whose decimal string is written to the
    [max-row] store.  An entry that failed to load is [None] in the store,
    and ['actual_x' not in None] raises. *)
Definition update_max_row (ds : option DataStore) (t : tab) : result Z :=
  match ds with
  | None => Ok 0%Z
  | Some d =>
      let data :=
        match t with
        | tab_all_data | tab_screwdown => ds_screwdown d
        | tab_bending => ds_bending d
        | tab_profile => ds_profile d
        end in
      match data with
      | None => Raise TypeError
      | Some s => Ok (Z.of_nat (shape0 (actual_x s)))
      end
  end.

(** What a user does in a session. *)
Inductive event : Type :=
| LoadFile (file_name : string) (f : File)
| SwitchCoil (coil_value : option string) (found : option File)
| LazyAllocate (coil_name : string) (num_rows : nat).

Definition step (g : Globals) (e : event) : Globals :=
  match e with
  | LoadFile name f => fst (handle_h5_file_loading g name f)
  | SwitchCoil c found => fst (update_coil_and_reload g c "/visualize" found)
  | LazyAllocate coil n =>
      mkGlobals (data_store g) (current_file_name g) (data_rows g) (available_coils g)
                (selected_coil g) (selected_row g)
                (snd (generate_coil_blank_info (COIL_BLANK_INFO_RANGES g) coil n))
  end.

Definition run (es : list event) (g : Globals) : Globals := fold_left step es g.

End Session.

(** ** Row navigation: the callbacks on the [selected-row] store *)

Module Navigation.

Import Ranges.

(** The input that fired [handle_row_selection]
    ([ctx.triggered[0]['prop_id']]).  For a row button, [row_index] is the
    index in its id and [clicked] tells that the button was found among the
    inputs with a positive click count. *)
Inductive trigger : Type :=
| JumpPreviousButton
| JumpNextButton
| RowSelectBtn (row_index : Z) (clicked : bool)
| JumpToRowButton
| AutoAdvanceInterval.

(** The value of the jump input: absent, something [int()] accepts, or
    something it rejects. *)
Inductive jump_input : Type :=
| JumpNone
| JumpInt (n : Z)
| JumpInvalid.

(** What a callback returns for the [selected-row] store. *)
Inductive output : Type :=
| NoUpdate                      (* dash.no_update *)
| Update (row : Z).             (* str(row) *)

(** The store after the callback returned. *)
Definition store_after (current_row : option Z) (o : output) : option Z :=
  match o with
  | NoUpdate => current_row
  | Update r => Some r
  end.

(** [current_row and str(current_row) != '-1']. *)
Definition row_is_set (current_row : option Z) : bool :=
  match current_row with
  | Some r => negb (r =? -1)%Z
  | None => false
  end.

(** [int(current_row) if current_row and str(current_row) != '-1' else 0]. *)
Definition current_row_int (current_row : option Z) : Z :=
  match current_row with
  | Some r => if (r =? -1)%Z then 0%Z else r
  | None => 0%Z
  end.

(** The branch of the jump button.  [blank_info_data] is [None] when the data
    store holds no numpy array under ['blank_info']['data'].  The result is
    the new row, or [None] where the source returns [dash.no_update]. *)
Definition jump_target (blank_info_data : option (list Z)) (max_row_int : Z)
           (jump_value : jump_input) : option Z :=
  match jump_value with
  | JumpNone => None
  | JumpInvalid => None
  | JumpInt target_blank_info =>
      let fallback :=
        let new_row := (target_blank_info - 1)%Z in
        if (0 <=? new_row)%Z && (new_row <? max_row_int)%Z then Some new_row else None in
      match blank_info_data with
      | Some ((_ :: _) as data) =>
          match resolve_blank_info data target_blank_info with
          | Some i =>
              let new_row := Z.of_nat i in
              if (0 <=? new_row)%Z && (new_row <? max_row_int)%Z then Some new_row else None
          | None => None
          end
      | _ => fallback
      end
  end.

(** The end of [handle_row_selection]: the chosen row is clamped, and written
    only when it differs from the current one.  [chosen = None] stands for an
    early [return dash.no_update]. *)
Definition commit_row (current_row_int max_row_int : Z) (chosen : option Z) : output :=
  match chosen with
  | None => NoUpdate
  | Some new_row =>
      let new_row := Z.max 0 (Z.min new_row (max_row_int - 1)) in
      if negb (new_row =? current_row_int)%Z then Update new_row else NoUpdate
  end.

(** [handle_row_selection]. *)
Definition handle_row_selection (triggered : option trigger)
           (blank_info_data : option (list Z))
           (current_row : option Z) (max_row : Z)
           (auto_advance_state : string) (jump_value : jump_input) : output :=
  match triggered with
  | None => NoUpdate
  | Some trigger_id =>
      let current_row_int := current_row_int current_row in
      let max_row_int := max_row in
      if (max_row_int <=? 0)%Z then Update 0
      else
        let chosen : option Z :=
          match trigger_id with
          | JumpPreviousButton => Some (Z.max 0 (current_row_int - 1))
          | JumpNextButton => Some (Z.min (max_row_int - 1) (current_row_int + 1))
          | RowSelectBtn row_index clicked => if clicked then Some row_index else None
          | JumpToRowButton => jump_target blank_info_data max_row_int jump_value
          | AutoAdvanceInterval =>
              if String.eqb auto_advance_state "true"
              then Some ((current_row_int + 1) mod max_row_int)%Z
              else None
          end in
        commit_row current_row_int max_row_int chosen
  end.

Inductive fs_button : Type := FullscreenPrevRow | FullscreenNextRow.

(** A click count is truthy when it is a positive number. *)
Definition clicks_truthy (n_clicks : option nat) : bool :=
  match n_clicks with
  | Some (S _) => true
  | _ => false
  end.

(** [handle_fullscreen_navigation]. *)
Definition handle_fullscreen_navigation (triggered : option fs_button)
           (prev_clicks next_clicks : option nat)
           (current_row : option Z) (max_row : Z) : output :=
  match triggered, current_row with
  | Some button_id, Some r =>
      if (r =? -1)%Z then NoUpdate
      else
        let current_row_int := r in
        let max_row_int := max_row in
        match button_id with
        | FullscreenPrevRow =>
            if clicks_truthy prev_clicks then Update (Z.max 0 (current_row_int - 1))
            else NoUpdate
        | FullscreenNextRow =>
            if clicks_truthy next_clicks
            then Update (Z.min (max_row_int - 1) (current_row_int + 1))
            else NoUpdate
        end
  | _, _ => NoUpdate
  end.


(** [update_page_navigation] when the [selected-row] store changed. *)
Definition page_for_row (selected_row_int : Z) : Z := (selected_row_int / 5 + 1)%Z.

End Navigation.

(** ** Sample files *)

Module Samples.

(** A data group with [rows] measured curves of two points and a two-point
    reference curve in the attributes [ref_x] and [ref_z]. *)
Definition group_of_rows (rows : nat) : Group :=
  mkGroup (Arr2 (repeat [0; 1]%Q rows)) (Arr2 (repeat [0; 2]%Q rows))
          (fun name =>
             if String.eqb name "ref_x" then Some [0; 1]%Q
             else if String.eqb name "ref_z" then Some [0; 2]%Q
             else None)
          None None
          (fun _ => Floating) Floating Floating.

(** Coil 50 with two rows and coil 51 with one row of screwdown data. *)
Definition file_a : File :=
  mkFile ["coil 50"; "coil 51"]
         (fun coil t =>
            match t with
            | screwdown =>
                if String.eqb coil "coil 50" then Some (group_of_rows 2)
                else if String.eqb coil "coil 51" then Some (group_of_rows 1)
                else None
            | _ => None
            end).

(** Coil 51 alone, with one row of screwdown data. *)
Definition file_b : File :=
  mkFile ["coil 51"]
         (fun coil t =>
            match t with
            | screwdown => if String.eqb coil "coil 51" then Some (group_of_rows 1) else None
            | _ => None
            end).

(** Coil 50 with two rows of screwdown and one row of bending data. *)
Definition file_c : File :=
  mkFile ["coil 50"]
         (fun coil t =>
            if String.eqb coil "coil 50" then
              match t with
              | screwdown => Some (group_of_rows 2)
              | bending => Some (group_of_rows 1)
              | profile => None
              end
            else None).

(** Coil 50 with a screwdown dataset of no rows and three rows of bending
    data. *)
Definition file_d : File :=
  mkFile ["coil 50"]
         (fun coil t =>
            if String.eqb coil "coil 50" then
              match t with
              | screwdown => Some (group_of_rows 0)
              | bending => Some (group_of_rows 3)
              | profile => None
              end
            else None).

(** Coil 50 with a screwdown dataset of no rows and nothing else. *)
Definition file_e : File :=
  mkFile ["coil 50"]
         (fun coil t =>
            match t with
            | screwdown => if String.eqb coil "coil 50" then Some (group_of_rows 0) else None
            | _ => None
            end).

(** A screwdown group whose attributes hold a reference X curve but no
    reference Z curve, and which has both sibling datasets. *)
Definition mixed_group : Group :=
  mkGroup (Arr2 [[1; 2]; [3; 6]]%Q) (Arr2 [[3; 4]; [5; 8]]%Q)
          (fun name => if String.eqb name "screwdown ref x" then Some [0; 1]%Q else None)
          (Some [5; 6]%Q) (Some [7; 8]%Q)
          (fun _ => Floating) Floating Floating.

(** A group without any reference curve: the loader falls back on the mean
    of the measured curves. *)
Definition bare_group : Group :=
  mkGroup (Arr2 [[1; 2]; [3; 6]]%Q) (Arr2 [[3; 4]; [5; 8]]%Q) (fun _ => None) None None
          (fun _ => Floating) Floating Floating.

(** A group whose reference curve is stored in the attributes [ref_x] and
    [ref_z] as unsigned 8-bit integers: X runs from 200 to 100, Z is flat. *)
Definition uint8_group : Group :=
  mkGroup (Arr2 [[200; 100]]%Q) (Arr2 [[7; 7]]%Q)
          (fun name =>
             if String.eqb name "ref_x" then Some [200; 100]%Q
             else if String.eqb name "ref_z" then Some [7; 7]%Q
             else None)
          None None
          (fun _ => Integer false W8) (Integer false W8) (Integer false W8).

End Samples.

(** ** What the specification asks of the range table *)

Module Invariants.

Import Ranges.

(** The integers a range covers. *)
Definition covers (r : CoilRange) (n : Z) : Prop := (rng_start r <= n <= rng_end r)%Z.

(** The first range starts at 1 and every other range starts right after
    the end of the one allocated before it. *)
Definition contiguous (tbl : table) : Prop :=
  (forall k r, nth_error tbl 0 = Some (k, r) -> rng_start r = 1%Z) /\
  (forall i k1 r1 k2 r2,
      nth_error tbl i = Some (k1, r1) -> nth_error tbl (S i) = Some (k2, r2) ->
      rng_start r2 = (rng_end r1 + 1)%Z).

(** No integer belongs to two ranges of the table. *)
Definition pairwise_disjoint (tbl : table) : Prop :=
  forall i j k1 r1 k2 r2,
    i < j -> nth_error tbl i = Some (k1, r1) -> nth_error tbl j = Some (k2, r2) ->
    forall n, ~ (covers r1 n /\ covers r2 n).

(** The same, as a recursive predicate: the ranges follow one another from
    [s], each as long as its count. *)
Fixpoint chain (s : Z) (tbl : table) : Prop :=
  match tbl with
  | [] => True
  | (_, r) :: rest =>
      rng_start r = s /\
      rng_end r = (s + Z.of_nat (rng_count r) - 1)%Z /\
      chain (rng_end r + 1) rest
  end.

(** The first number after a chain that starts at [s]. *)
Fixpoint chain_next (s : Z) (tbl : table) : Z :=
  match tbl with
  | [] => s
  | (_, r) :: rest => chain_next (rng_end r + 1) rest
  end.

(** The effective row count of a data store: the largest row count among
    the data types that loaded. *)
Definition effective_rows (ds : Session.DataStore) : nat :=
  Loader.count_rows (Session.ds_screwdown ds) (Session.ds_bending ds)
                    (Session.ds_profile ds).

(** The entry of the data store that [update_max_row] reads for a tab. *)
Definition tab_series (ds : Session.DataStore) (t : Session.tab) : option Loader.DataSeries :=
  match t with
  | Session.tab_all_data | Session.tab_screwdown => Session.ds_screwdown ds
  | Session.tab_bending => Session.ds_bending ds
  | Session.tab_profile => Session.ds_profile ds
  end.

(** The blank-info array of the data store is a run of consecutive integers,
    as long as the effective row count. *)
Definition store_numbered (g : Session.Globals) : Prop :=
  forall ds, Session.data_store g = Some ds ->
             exists a, Session.ds_blank_info ds
                       = arange a (a + Z.of_nat (effective_rows ds)).

(** What holds of the accumulators of [generate_reference_display] after [i]
    turns of its loop. *)
Definition loop_inv (dx dz : dtype) (rx rz : list Q) (i : nat) (d : Densify.display)
  : Prop :=
  length (Densify.display_x d) = 2 * i /\
  length (Densify.display_z d) = 2 * i /\
  length (Densify.is_midpoint d) = 2 * i /\
  forall k, k < i ->
    nth_error (Densify.display_x d) (2 * k) = nth_error rx k /\
    nth_error (Densify.display_z d) (2 * k) = nth_error rz k /\
    nth_error (Densify.is_midpoint d) (2 * k) = Some false /\
    nth_error (Densify.display_x d) (2 * k + 1)
      = Some (np_add dx (nth k rx 0) (nth (k + 1) rx 0) / 2)%Q /\
    nth_error (Densify.display_z d) (2 * k + 1)
      = Some (np_add dz (nth k rz 0) (nth (k + 1) rz 0) / 2)%Q /\
    nth_error (Densify.is_midpoint d) (2 * k + 1) = Some true.

End Invariants.

(** ** Python strings and sorting

    File names and group paths are taken to be ASCII text: a character is a
    byte, [lower] touches the letters A to Z, and a digit is one of 0 to 9. *)

Module PyStr.

(** [c.lower()] for one ASCII character. *)
Definition lower_ascii (c : ascii) : ascii :=
  let n := nat_of_ascii c in
  if ((65 <=? n) && (n <=? 90))%nat then ascii_of_nat (n + 32) else c.

(** [s.lower()], for ASCII text. *)
Fixpoint lower (s : string) : string :=
  match s with
  | EmptyString => EmptyString
  | String c rest => String (lower_ascii c) (lower rest)
  end.

(** [sub in s]. *)
Fixpoint contains (sub s : string) : bool :=
  if String.prefix sub s then true
  else match s with
       | EmptyString => false
       | String _ rest => contains sub rest
       end.

(** [os.path.basename(path)] on a POSIX system: what follows the last
    slash. *)
Fixpoint basename (path : string) : string :=
  match path with
  | EmptyString => EmptyString
  | String c rest =>
      if contains "/" rest then basename rest
      else if Ascii.eqb c "/" then rest
      else path
  end.

(** [sorted(l, key=key)] and [l.sort(key=key)]: a stable sort, [le] being
    the order of the keys. *)
Fixpoint insert_by {A K : Type} (le : K -> K -> bool) (key : A -> K) (x : A) (l : list A)
  : list A :=
  match l with
  | [] => [x]
  | y :: rest => if le (key x) (key y) then x :: y :: rest else y :: insert_by le key x rest
  end.

Definition sort_by {A K : Type} (le : K -> K -> bool) (key : A -> K) (l : list A) : list A :=
  fold_right (insert_by le key) [] l.

End PyStr.

(** ** Finding the HDF5 files *)

Module Files.

Import PyStr.

(** A path that [glob] returns, with what [validate_h5_file] reads of it:
    the number of top-level keys ([None] when opening the file raises) and
    the size in bytes. *)
Record Candidate : Type := mkCandidate {
  cand_path : string;
  cand_keys : option nat;
  cand_size : nat
}.

Inductive verdict : Type := Valid | EmptyFile | TooSmall | Invalid.

(** [validate_h5_file]. *)
Definition validate_h5_file (c : Candidate) : bool * verdict :=
  match cand_keys c with
  | None => (false, Invalid)
  | Some 0 => (false, EmptyFile)
  | Some _ => if (cand_size c <? 1024)%nat then (false, TooSmall) else (true, Valid)
  end.

(** The part of the environment and of the file system that the search
    reads. *)
Record FileSystem : Type := mkFS {
  env_h5_data_dir : option string;        (* os.getenv('H5_DATA_DIR') *)
  dir_exists : string -> bool;            (* os.path.exists(d) *)
  glob_h5 : string -> list Candidate      (* glob.glob(os.path.join(d, '*.h5')) *)
}.

Definition search_dirs (fs : FileSystem) : list string :=
  [ match env_h5_data_dir fs with Some d => d | None => "./data" end;
    "./data"; "./valid"; "./input"; "." ].

(** [[d for d in dict.fromkeys(search_dirs) if os.path.exists(d)]]. *)
Definition existing_dirs (fs : FileSystem) : list string :=
  filter (dir_exists fs) (fold_left Coils.append_new (search_dirs fs) []).

(** The body of the inner loop; the state is [h5_files] and
    [seen_filenames]. *)
Definition consider (st : list string * list string) (c : Candidate)
  : list string * list string :=
  let '(h5_files, seen_filenames) := st in
  let filename := basename (cand_path c) in
  if Coils.mem filename seen_filenames then st
  else if negb (fst (validate_h5_file c)) then st
  else (h5_files ++ [cand_path c], filename :: seen_filenames).

Definition scan_dirs (fs : FileSystem) : list string * list string :=
  fold_left (fun st d => fold_left consider (glob_h5 fs d) st) (existing_dirs fs) ([], []).

(** [find_h5_files_improved]. *)
Definition find_h5_files_improved (fs : FileSystem) : list string :=
  sort_by String.leb (fun x => lower (basename x)) (fst (scan_dirs fs)).

Definition priority_patterns : list string :=
  ["test.h5"; "sample"; "data"; "coil"; "main"; "primary"].

Definition is_priority (file_path : string) : bool :=
  existsb (fun pattern => contains pattern (lower (basename file_path))) priority_patterns.

(** [filter_h5_files_by_pattern(h5_files, max_files)]. *)
Definition filter_h5_files_by_pattern (h5_files : list string) (max_files : nat)
  : list string :=
  if (length h5_files <=? max_files)%nat then h5_files
  else
    let priority_files := filter is_priority h5_files in
    let regular_files := filter (fun f => negb (is_priority f)) h5_files in
    let filtered_files :=
      firstn (max_files / 2) priority_files ++ firstn (max_files / 2) regular_files in
    let remaining_slots := max_files - length filtered_files in
    let filtered_files :=
      if (0 <? remaining_slots)%nat then
        let remaining_files := filter (fun f => negb (Coils.mem f filtered_files)) h5_files in
        filtered_files ++ firstn remaining_slots remaining_files
      else filtered_files in
    firstn max_files filtered_files.

(** The loop of [find_h5_files] that keeps every file name once. *)
Definition unique_names (st : list string * list string) (file_path : string)
  : list string * list string :=
  let '(unique_filenames, seen_names) := st in
  let filename := basename file_path in
  if Coils.mem filename seen_names then st
  else (unique_filenames ++ [filename], filename :: seen_names).

(** [find_h5_files]. *)
Definition find_h5_files (fs : FileSystem) : list string :=
  let all_h5_files := find_h5_files_improved fs in
  let filtered_files := filter_h5_files_by_pattern all_h5_files 15 in
  fst (fold_left unique_names filtered_files ([], [])).

(** [find_file_path(file_name)]. *)
Definition find_file_path (fs : FileSystem) (file_name : string) : option string :=
  find (fun file_path => String.eqb (basename file_path) file_name)
       (find_h5_files_improved fs).

End Files.

(** ** Pages, the table slice and the row label *)

Module Paging.

Import Ranges Session Navigation.

(** The input that fired [update_page_navigation]. *)
Inductive page_trigger : Type :=
| TabsChanged
| SelectedRowChanged
| PrevButton
| NextButton.

(** [int(current_page) if current_page else 1]; the store holds the integer
    a former call returned. *)
Definition current_page_int (current_page : option Z) : Z :=
  match current_page with
  | Some p => if (p =? 0)%Z then 1%Z else p
  | None => 1%Z
  end.

(** [math.ceil(max_row / rows_per_page) if max_row > 0 else 1], with five
    rows per page. *)
Definition max_pages (max_row : Z) : Z :=
  if (0 <? max_row)%Z then ((max_row + 4) / 5)%Z else 1%Z.

(** [update_page_navigation]. *)
Definition update_page_navigation (triggered : option page_trigger)
           (prev_clicks next_clicks : option nat)
           (selected_row : option Z) (current_page : option Z) (max_row : Z) : Z :=
  match triggered with
  | None => 1%Z
  | Some TabsChanged => 1%Z
  | Some trigger_id =>
      let current_page := current_page_int current_page in
      let max_pages := max_pages max_row in
      match trigger_id, row_is_set selected_row, selected_row with
      | SelectedRowChanged, true, Some selected_row_int => page_for_row selected_row_int
      | PrevButton, _, _ =>
          if clicks_truthy prev_clicks then Z.max 1 (current_page - 1) else current_page
      | NextButton, _, _ =>
          if clicks_truthy next_clicks then Z.min (current_page + 1) max_pages
          else current_page
      | _, _, _ => current_page
      end
  end.

(** [range(a, b)]. *)
Definition py_range (a b : Z) : list Z :=
  map (fun i => (a + Z.of_nat i)%Z) (seq 0 (Z.to_nat (b - a))).

(** The rows [update_table] lists on a page: the indices
    [range(start_idx, end_idx)], when the three data types are in the data
    store ([None] stands for the message shown otherwise). *)
Definition table_rows (ds : option DataStore) (page : option Z) : option (list Z) :=
  match ds with
  | None => None
  | Some d =>
      match ds_screwdown d, ds_bending d, ds_profile d with
      | Some sd_data, Some bd_data, Some pd_data =>
          let page := current_page_int page in
          let max_rows :=
            Z.min (Z.min (Z.of_nat (Loader.shape0 (Loader.actual_x sd_data)))
                         (Z.of_nat (Loader.shape0 (Loader.actual_x bd_data))))
                  (Z.of_nat (Loader.shape0 (Loader.actual_x pd_data))) in
          let rows_per_page := 5%Z in
          let start_idx := ((page - 1) * rows_per_page)%Z in
          let end_idx := Z.min (start_idx + rows_per_page) max_rows in
          Some (py_range start_idx end_idx)
      | _, _, _ => None
      end
  end.

(** The number that [update_current_row_display] puts in the label
    ["Row {0}"]: the blank-info number of the selected row when the array
    reaches that far, the one-based index otherwise, and 1 when no row is
    selected. *)
Definition update_current_row_display (blank_info_data : option (list Z))
           (selected_row : option Z) : Z :=
  match selected_row with
  | Some row_num =>
      if (row_num =? -1)%Z then 1%Z
      else
        match blank_info_data with
        | Some data =>
            if (row_num <? Z.of_nat (length data))%Z && (0 <=? row_num)%Z
            then nth (Z.to_nat row_num) data 0%Z
            else (row_num + 1)%Z
        | None => (row_num + 1)%Z
        end
  | None => 1%Z
  end.

(** [update_auto_advance_state]: ['auto_advance' in (checkbox_value or [])]. *)
Definition update_auto_advance_state (checkbox_value : option (list string)) : string :=
  let is_checked :=
    match checkbox_value with
    | Some values => Coils.mem "auto_advance" values
    | None => false
    end in
  if is_checked then "true" else "false".

(** [control_auto_advance_interval]: the value of the interval's [disabled]. *)
Definition control_auto_advance_interval (auto_advance_state : string)
           (selected_row : option Z) : bool :=
  negb (String.eqb auto_advance_state "true" && row_is_set selected_row).

(** The row store after [n] ticks of the auto-advance interval. *)
Fixpoint ticks (n : nat) (blank_info : option (list Z)) (max_row : Z)
         (auto_advance_state : string) (jump_value : jump_input) (row : option Z)
  : option Z :=
  match n with
  | O => row
  | S n' =>
      ticks n' blank_info max_row auto_advance_state jump_value
            (store_after row
               (handle_row_selection (Some AutoAdvanceInterval) blank_info row max_row
                                     auto_advance_state jump_value))
  end.

End Paging.

(** ** Walking the groups of a file *)

Module Scan.

Import PyStr.

Definition data_type_tag_eqb (a b : data_type) : bool :=
  match a, b with
  | screwdown, screwdown | bending, bending | profile, profile => true
  | _, _ => false
  end.

(** What [visititems] hands to its callback: the path of an object, whether
    it is a group, and the names of its members ([obj.keys()]). *)
Record Node : Type := mkNode {
  node_name : string;
  node_is_group : bool;
  node_keys : list string
}.

(** [name.split('/')]. *)
Fixpoint split_slash (s : string) : list string :=
  match s with
  | EmptyString => [EmptyString]
  | String c rest =>
      if Ascii.eqb c "/" then EmptyString :: split_slash rest
      else match split_slash rest with
           | [] => [String c EmptyString]
           | part :: parts => String c part :: parts
           end
  end.

(** [any(char.isdigit() for char in part)] and [part.isdigit()]. *)
Definition any_digit (part : string) : bool :=
  existsb Coils.is_digit (list_ascii_of_string part).

Definition all_digits (part : string) : bool :=
  negb (String.eqb part "") && forallb Coils.is_digit (list_ascii_of_string part).

(** ['x' in obj and 'z' in obj]. *)
Definition has_axes (n : Node) : bool :=
  Coils.mem "x" (node_keys n) && Coils.mem "z" (node_keys n).

(** [any('x' in child or 'z' in child for child in obj.keys())]. *)
Definition child_with_axis (n : Node) : bool :=
  existsb (fun child => contains "x" child || contains "z" child) (node_keys n).

Definition looks_like_coil (part : string) : bool :=
  contains "coil" (lower part) && any_digit part && (String.length part <? 20)%nat.

(** The callback [find_coils]. *)
Definition find_coils (available_coils : list string) (n : Node) : list string :=
  if node_is_group n then
    fold_left
      (fun acc part =>
         if looks_like_coil part then
           if has_axes n || child_with_axis n then Coils.append_new acc part else acc
         else acc)
      (split_slash (node_name n)) available_coils
  else available_coils.

(** [int(part)] of a string of digits. *)
Definition int_of (part : string) : Z := Coils.digits_value 0 part.

(** The callback [find_coils_alternative]. *)
Definition find_coils_alternative (available_coils : list string) (n : Node) : list string :=
  if node_is_group n then
    fold_left
      (fun acc part =>
         if all_digits part && (50 <=? int_of part)%Z && (int_of part <=? 60)%Z
            && has_axes n
         then Coils.append_new acc ("coil " ++ part)%string
         else acc)
      (split_slash (node_name n)) available_coils
  else available_coils.

(** The coils found by the two walks of [get_available_coils_dynamic],
    before they are sorted. *)
Definition discover_coils (nodes : list Node) : list string :=
  match fold_left find_coils nodes [] with
  | [] => fold_left find_coils_alternative nodes []
  | found => found
  end.

(** The callback [find_coil_data] of [get_coil_data_paths]: [data_paths] maps
    a data type to the path of its group. *)
Definition find_coil_data (coil_name : string) (data_paths : data_type -> option string)
           (n : Node) : data_type -> option string :=
  if node_is_group n then
    if contains coil_name (node_name n) then
      fold_left
        (fun paths data_type =>
           if contains (type_name data_type) (lower (node_name n)) then
             if has_axes n
             then fun t => if data_type_tag_eqb t data_type then Some (node_name n) else paths t
             else paths
           else paths)
        [bending; screwdown; profile] data_paths
    else data_paths
  else data_paths.

(** [get_coil_data_paths]. *)
Definition get_coil_data_paths (nodes : list Node) (coil_name : string)
  : data_type -> option string :=
  fold_left (find_coil_data coil_name) nodes (fun _ => None).

(** The group that counts for a coil and a data type. *)
Definition is_data_group (coil_name : string) (t : data_type) (n : Node) : bool :=
  node_is_group n && contains coil_name (node_name n)
  && contains (type_name t) (lower (node_name n)) && has_axes n.

End Scan.

(** ** What is expected of the search and of the batch of ranges *)

Module Expected.

Import PyStr Files Ranges Loader Scan.

(** Consecutive elements are in order. *)
Fixpoint ordered {A : Type} (R : A -> A -> Prop) (l : list A) : Prop :=
  match l with
  | [] => True
  | x :: rest =>
      match rest with
      | [] => True
      | y :: _ => R x y /\ ordered R rest
      end
  end.

(** A path that was taken from a valid candidate of a directory of the
    search. *)
Definition accepted (fs : FileSystem) (p : string) : Prop :=
  exists d c,
    In d (existing_dirs fs) /\ In c (glob_h5 fs d) /\ cand_path c = p /\
    (exists k, cand_keys c = Some (S k)) /\ 1024 <= cand_size c.

Definition scan_inv (fs : FileSystem) (st : list string * list string) : Prop :=
  (forall x, In x (snd st) <-> In x (map basename (fst st))) /\
  NoDup (map basename (fst st)) /\
  (forall p, In p (fst st) -> accepted fs p).

(** The ranges for the coils of a file, one after the other from [start],
    the coils without rows left out. *)
Fixpoint ranges_from (f : File) (start : Z) (coils : list string) : table :=
  match coils with
  | [] => []
  | coil :: rest =>
      let n := file_rows f coil in
      if (0 <? n)%nat
      then (coil, mkRange start (start + Z.of_nat n - 1) n)
             :: ranges_from f (start + Z.of_nat n) rest
      else ranges_from f start rest
  end.

(** A name made of ASCII characters, for which [str.isdigit] holds of the
    digits 0 to 9 alone and [int] reads every run of them. *)
Definition ascii_name (s : string) : bool :=
  forallb (fun c => (nat_of_ascii c <? 128)%nat) (list_ascii_of_string s).



(** A coil name of the first walk, and one of the second. *)
Definition primary_coil (nodes : list Node) (c : string) : Prop :=
  looks_like_coil c = true /\
  exists n, In n nodes /\ node_is_group n = true /\ In c (split_slash (node_name n)) /\
            (has_axes n = true \/ child_with_axis n = true).

Definition numeric_coil (nodes : list Node) (c : string) : Prop :=
  exists part n,
    c = ("coil " ++ part)%string /\ all_digits part = true /\
    (50 <= int_of part <= 60)%Z /\
    In n nodes /\ node_is_group n = true /\ In part (split_slash (node_name n)) /\
    has_axes n = true.

End Expected.

(** * Properties *)

Lemma for_each_app {S : Type} (body : S -> nat -> result S) (l1 l2 : list nat) (s : S) :
  for_each body (l1 ++ l2) s = (s' <- for_each body l1 s ;; for_each body l2 s').
Proof.
  revert s; induction l1 as [|i l1 IH]; intros s; simpl; [reflexivity|].
  destruct (body s i); simpl; auto.
Qed.

(** ** Reference densification *)

Module DensifyFacts.

Import Densify Invariants Expected.

(** The three points of the specification's example, as floats. *)
Example densify_example :
  generate_reference_display Floating Floating (Some [0; 10; 20]%Q) (Some [0; 5; 0]%Q)
  = Ok (mkDisplay [0; (0 + 10) / 2; 10; (10 + 20) / 2; 20]%Q
                  [0; (0 + 5) / 2; 5; (5 + 0) / 2; 0]%Q
                  [false; true; false; true; false]).
Proof. reflexivity. Qed.

(** An empty reference curve makes [ref_x[-1]] raise. *)
Example densify_empty (dx dz : dtype) :
  generate_reference_display dx dz (Some []) (Some []) = Raise IndexError.
Proof. reflexivity. Qed.

(** Signed 8-bit integers: 100 + 100 is stored as -56. *)
Example int8_sum_wraps :
  np_add (Integer true W8) 100 100 = inject_Z (-56).
Proof. reflexivity. Qed.



Lemma py_index_nth (l : list Q) (i : nat) :
  i < length l -> py_index l i = Ok (nth i l 0%Q) /\ nth_error l i = Some (nth i l 0%Q).
Proof.
  intros H. unfold py_index.
  rewrite (nth_error_nth' l 0%Q H). auto.
Qed.

Lemma nth_error_snoc2 {A : Type} (l : list A) (a b : A) (n : nat) :
  length l = n ->
  nth_error (l ++ [a; b]) n = Some a /\
  nth_error (l ++ [a; b]) (n + 1) = Some b.
Proof.
  intros <-. split.
  - rewrite nth_error_app2 by lia. rewrite Nat.sub_diag. reflexivity.
  - rewrite nth_error_app2 by lia.
    replace (length l + 1 - length l) with 1 by lia. reflexivity.
Qed.

Lemma loop_runs (dx dz : dtype) (rx rz : list Q) :
  length rx = length rz ->
  forall i, i <= length rx - 1 ->
  exists d, for_each (loop_body dx dz rx rz) (seq 0 i) empty_display = Ok d /\
            loop_inv dx dz rx rz i d.
Proof.
  intros Hlen i. induction i as [|i IH]; intros Hi.
  - exists empty_display. split; [reflexivity|].
    unfold loop_inv; simpl. repeat split; try reflexivity; intros; lia.
  - destruct IH as (d & Hrun & Hx & Hz & Hm & Hk); [lia|].
    rewrite seq_S, for_each_app, Hrun.
    cbn [bind for_each Nat.add]. unfold loop_body.
    destruct (@py_index_nth rx i) as [Exi Nxi]; [lia|].
    destruct (@py_index_nth rz i) as [Ezi Nzi]; [lia|].
    destruct (@py_index_nth rx (i + 1)) as [Exj _]; [lia|].
    destruct (@py_index_nth rz (i + 1)) as [Ezj _]; [lia|].
    rewrite Exi, Ezi, Exj, Ezj. cbn [bind].
    eexists; split; [reflexivity|].
    unfold loop_inv; cbn [display_x display_z is_midpoint].
    rewrite !length_app; cbn [length].
    split; [lia|]. split; [lia|]. split; [lia|].
    intros k Hlt.
    destruct (Nat.eq_dec k i) as [->|Hne].
    + destruct (nth_error_snoc2 (display_x d) (nth i rx 0%Q)
                  (np_add dx (nth i rx 0) (nth (i + 1) rx 0) / 2)%Q Hx) as [E1 E2].
      destruct (nth_error_snoc2 (display_z d) (nth i rz 0%Q)
                  (np_add dz (nth i rz 0) (nth (i + 1) rz 0) / 2)%Q Hz) as [E3 E4].
      destruct (nth_error_snoc2 (is_midpoint d) false true Hm) as [E5 E6].
      rewrite E1, E2, E3, E4, E5, E6, Nxi, Nzi. repeat split; reflexivity.
    + assert (Hki : k < i) by lia.
      destruct (Hk k Hki) as (K1 & K2 & K3 & K4 & K5 & K6).
      rewrite !nth_error_app1 by lia.
      repeat split; assumption.
Qed.

Lemma nth_error_snoc1 {A : Type} (l : list A) (a : A) (n : nat) :
  length l = n -> nth_error (l ++ [a]) n = Some a.
Proof.
  intros <-. rewrite nth_error_app2 by lia. rewrite Nat.sub_diag. reflexivity.
Qed.

(** The result of [generate_reference_display] on two curves of the same
    length n >= 1. *)
Lemma densify_runs (dx dz : dtype) (ref_x ref_z : list Q) :
  length ref_x = length ref_z ->
  1 <= length ref_x ->
  exists d,
    generate_reference_display dx dz (Some ref_x) (Some ref_z) = Ok d /\
    length (display_x d) = 2 * length ref_x - 1 /\
    length (display_z d) = 2 * length ref_x - 1 /\
    length (is_midpoint d) = 2 * length ref_x - 1 /\
    (forall k, k <= length ref_x - 1 ->
       nth_error (display_x d) (2 * k) = nth_error ref_x k /\
       nth_error (display_z d) (2 * k) = nth_error ref_z k /\
       nth_error (is_midpoint d) (2 * k) = Some false) /\
    (forall k, k + 2 <= length ref_x ->
       nth_error (display_x d) (2 * k + 1)
         = Some (np_add dx (nth k ref_x 0) (nth (k + 1) ref_x 0) / 2)%Q /\
       nth_error (display_z d) (2 * k + 1)
         = Some (np_add dz (nth k ref_z 0) (nth (k + 1) ref_z 0) / 2)%Q /\
       nth_error (is_midpoint d) (2 * k + 1) = Some true).
Proof.
  intros Hlen Hn.
  destruct (loop_runs dx dz ref_x ref_z Hlen (i := length ref_x - 1))
    as (d & Hrun & Hx & Hz & Hm & Hk); [lia|].
  unfold generate_reference_display, py_last. rewrite Hrun. cbn [bind].
  destruct (@py_index_nth ref_x (length ref_x - 1)) as [Exl Nxl]; [lia|].
  destruct (@py_index_nth ref_z (length ref_x - 1)) as [Ezl Nzl]; [lia|].
  rewrite <- Hlen. rewrite Exl, Ezl. cbn [bind].
  eexists; split; [reflexivity|].
  cbn [display_x display_z is_midpoint].
  rewrite !length_app; cbn [length].
  split; [lia|]. split; [lia|]. split; [lia|].
  split.
  - intros k Hkn.
    destruct (Nat.eq_dec k (length ref_x - 1)) as [->|Hne].
    + rewrite (nth_error_snoc1 (display_x d) _ Hx).
      rewrite (nth_error_snoc1 (display_z d) _ Hz).
      rewrite (nth_error_snoc1 (is_midpoint d) _ Hm).
      rewrite Nxl, Nzl. auto.
    + destruct (Hk k) as (K1 & K2 & K3 & _); [lia|].
      rewrite !nth_error_app1 by lia. auto.
  - intros k Hkn.
    destruct (Hk k) as (_ & _ & _ & K4 & K5 & K6); [lia|].
    rewrite !nth_error_app1 by lia. auto.
Qed.

(** C1. The claim fails at a reference curve stored as unsigned 8-bit
    integers whose X runs from 200 to 100: [generate_reference_display]
    returns [200, 44 / 2, 100], the sum 300 having wrapped to 44 in the
    dtype of the array, and 44 / 2 = 22 is not the arithmetic mean 150 of
    the two points.  The loader passes such a curve on as it reads it from
    the attributes of a data group. *)
Theorem uint8_midpoint_wraps :
  generate_reference_display (Integer false W8) (Integer false W8)
                             (Some [200; 100]%Q) (Some [7; 7]%Q)
  = Ok (mkDisplay [200; 44 / 2; 100]%Q [7; 14 / 2; 7]%Q [false; true; false]) /\
  (44 / 2 == 22)%Q /\
  ~ (44 / 2 == (200 + 100) / 2)%Q /\
  exists s,
    Loader.load_data_type screwdown Samples.uint8_group = Some s /\
    Loader.ref_x s = [200; 44 / 2; 100]%Q.
Proof.
  split; [reflexivity|]. split; [reflexivity|]. split; [discriminate|].
  eexists. split; reflexivity.
Qed.



End DensifyFacts.

(** ** Coil discovery *)

Module CoilsFacts.

Import Coils.

Example extract_coil_number_ex : extract_coil_number "coil 51b2" = 512%Z.
Proof. reflexivity. Qed.

Example sorted_by_ex :
  sorted_by extract_coil_number ["coil 52"; "c51"; "coil 50"; "coil 51"]
  = ["coil 50"; "c51"; "coil 51"; "coil 52"].
Proof. reflexivity. Qed.

Lemma mem_In (x : string) (l : list string) : mem x l = true <-> In x l.
Proof.
  unfold mem. rewrite existsb_exists. split.
  - intros (y & Hy & E). apply String.eqb_eq in E. subst. assumption.
  - intros H. exists x. split; [assumption | apply String.eqb_refl].
Qed.

Lemma append_new_NoDup (acc : list string) (part : string) :
  NoDup acc -> NoDup (append_new acc part).
Proof.
  intros H. unfold append_new. destruct (mem part acc) eqn:E; [assumption|].
  apply NoDup_app; [assumption | repeat constructor; intros [] | ].
  intros x Hx [<-|[]]. apply mem_In in Hx. congruence.
Qed.

Lemma fold_append_new_NoDup (parts acc : list string) :
  NoDup acc -> NoDup (fold_left append_new parts acc).
Proof.
  revert acc. induction parts as [|p parts IH]; intros acc H; simpl; [assumption|].
  apply IH, append_new_NoDup, H.
Qed.

Lemma insert_by_perm (key : string -> Z) (x : string) (l : list string) :
  Permutation (x :: l) (insert_by key x l).
Proof.
  induction l as [|y l IH]; simpl; [reflexivity|].
  destruct (key x <=? key y)%Z; [reflexivity|].
  rewrite perm_swap. constructor. exact IH.
Qed.

Lemma sorted_by_perm (key : string -> Z) (l : list string) :
  Permutation l (sorted_by key l).
Proof.
  induction l as [|x l IH]; simpl; [reflexivity|].
  rewrite <- insert_by_perm. constructor. exact IH.
Qed.

Lemma sorted_by_NoDup (key : string -> Z) (l : list string) :
  NoDup l -> NoDup (sorted_by key l).
Proof. intros H. eapply Permutation_NoDup; [apply sorted_by_perm | exact H]. Qed.

Lemma sorted_by_nil (key : string -> Z) (l : list string) :
  sorted_by key l = [] -> l = [].
Proof.
  intros H. apply Permutation_nil. rewrite <- H. symmetry. apply sorted_by_perm.
Qed.

Lemma available_coils_NoDup (f : File) : NoDup (get_available_coils_dynamic f).
Proof.
  apply sorted_by_NoDup, fold_append_new_NoDup. constructor.
Qed.

End CoilsFacts.

(** ** Blank-info numbers *)

Module RangesFacts.

Import Ranges.

(** The specification's example: coil50 with 12 rows, then coil51 with 8. *)
Example ranges_example :
  let '(_, t1) := generate_coil_blank_info [] "coil50" 12 in
  let '(b2, t2) := generate_coil_blank_info t1 "coil51" 8 in
  t2 = [("coil50", mkRange 1 12 12); ("coil51", mkRange 13 20 8)] /\
  resolve_blank_info b2 15 = Some 2.
Proof. split; reflexivity. Qed.

(** *** Basic facts *)

Lemma arange_length (a : Z) (n : nat) : length (arange a (a + Z.of_nat n)) = n.
Proof.
  unfold arange. rewrite length_map, length_seq. lia.
Qed.

Lemma arange_nth (a : Z) (n i : nat) :
  i < n -> nth i (arange a (a + Z.of_nat n)) 0%Z = (a + Z.of_nat i)%Z.
Proof.
  intros H. unfold arange.
  replace (Z.to_nat (a + Z.of_nat n - a)) with n by lia.
  rewrite (nth_indep _ 0%Z (a + Z.of_nat 0)%Z) by (rewrite length_map, length_seq; lia).
  rewrite (map_nth (fun i => (a + Z.of_nat i)%Z)). rewrite seq_nth by lia. reflexivity.
Qed.

Lemma generate_length (tbl : table) (coil : string) (n : nat) :
  length (fst (generate_coil_blank_info tbl coil n)) = n.
Proof.
  unfold generate_coil_blank_info. destruct (lookup coil tbl); simpl; apply arange_length.
Qed.

Lemma generate_is_arange (tbl : table) (coil : string) (n : nat) :
  exists a, fst (generate_coil_blank_info tbl coil n) = arange a (a + Z.of_nat n).
Proof.
  unfold generate_coil_blank_info. destruct (lookup coil tbl); simpl; eauto.
Qed.

Lemma where_eq_none (from : nat) (l : list Z) (t : Z) :
  ~ In t l -> where_eq from l t = [].
Proof.
  revert from. induction l as [|v l IH]; intros from H; simpl; [reflexivity|].
  destruct (Z.eqb_spec v t) as [->|Hne].
  - exfalso. apply H. left. reflexivity.
  - apply IH. intros Hin. apply H. right. exact Hin.
Qed.

Lemma where_eq_shift (from : nat) (l : list Z) (t : Z) :
  where_eq from l t = map (Nat.add from) (where_eq 0 l t).
Proof.
  revert from. induction l as [|v l IH]; intros from; simpl; [reflexivity|].
  rewrite (IH (S from)), (IH 1).
  assert (E : map (Nat.add (S from)) (where_eq 0 l t)
              = map (Nat.add from) (map (Nat.add 1) (where_eq 0 l t))).
  { rewrite map_map. apply map_ext. intros j. lia. }
  destruct (v =? t)%Z; cbn [map]; rewrite E; [|reflexivity].
  f_equal. lia.
Qed.

Lemma resolve_in_range (l : list Z) (t : Z) (i : nat) :
  resolve_blank_info l t = Some i -> i < length l /\ nth i l 0%Z = t.
Proof.
  unfold resolve_blank_info. revert i.
  induction l as [|v l IH]; intros i; simpl; [discriminate|].
  destruct (Z.eqb_spec v t) as [->|Hne]; simpl.
  - intros [= <-]. split; [lia | reflexivity].
  - rewrite where_eq_shift. destruct (where_eq 0 l t) as [|j js] eqn:E; simpl; [discriminate|].
    intros [= <-]. destruct (IH j eq_refl) as [Hj Hn]. split; [lia | exact Hn].
Qed.

Lemma resolve_none (l : list Z) (t : Z) :
  resolve_blank_info l t = None <-> ~ In t l.
Proof.
  unfold resolve_blank_info. split.
  - induction l as [|v l IH]; simpl; [tauto|].
    destruct (Z.eqb_spec v t) as [->|Hne]; simpl; [discriminate|].
    rewrite where_eq_shift. destruct (where_eq 0 l t); simpl; [|discriminate].
    intros _ [E|Hin]; [congruence | exact (IH eq_refl Hin)].
  - intros H. rewrite where_eq_none by assumption. reflexivity.
Qed.

(** In an array of consecutive integers the first match of the value at
    index [i] is [i]. *)
Lemma resolve_arange (a : Z) (n i : nat) :
  i < n ->
  resolve_blank_info (arange a (a + Z.of_nat n)) (a + Z.of_nat i) = Some i.
Proof.
  intros Hi.
  destruct (resolve_blank_info (arange a (a + Z.of_nat n)) (a + Z.of_nat i)) as [j|] eqn:E.
  - apply resolve_in_range in E. destruct E as [Hj Hn].
    rewrite arange_length in Hj. rewrite arange_nth in Hn by assumption.
    f_equal. lia.
  - apply resolve_none in E. exfalso. apply E.
    rewrite <- (arange_nth a Hi). apply nth_In. rewrite arange_length. exact Hi.
Qed.

End RangesFacts.

(** ** Navigation *)

Module NavigationFacts.

Import Ranges RangesFacts Navigation.

Example spec_jump_example :
  handle_row_selection (Some JumpToRowButton) (Some (arange 13 21)) (Some 0%Z) 8
                       "false" (JumpInt 15) = Update 2.
Proof. reflexivity. Qed.

Lemma clamp_in_range (x m : Z) :
  (0 <= x < m)%Z -> Z.max 0 (Z.min x (m - 1)) = x.
Proof. lia. Qed.

(** When a branch chose a row inside the bounds, the store holds that row
    afterwards, whether or not the callback reported a change. *)
Lemma chosen_row_stored (cur : option Z) (x m : Z) :
  row_is_set cur = true ->
  (0 <= x < m)%Z ->
  store_after cur (commit_row (current_row_int cur) m (Some x)) = Some x.
Proof.
  intros Hset Hx. unfold commit_row. cbv zeta. rewrite clamp_in_range by assumption.
  destruct cur as [r|]; simpl in *; [|discriminate].
  destruct (Z.eqb_spec r (-1)); simpl in *; [discriminate|].
  destruct (Z.eqb_spec x r); simpl; congruence.
Qed.

Lemma row_is_set_nonneg (r : Z) : (0 <= r)%Z -> row_is_set (Some r) = true.
Proof. intros H. simpl. destruct (Z.eqb_spec r (-1)); [lia | reflexivity]. Qed.

(** The first index at which [t] occurs is what [resolve_blank_info] finds. *)
Lemma resolve_first (l : list Z) (t : Z) (i : nat) :
  i < length l -> nth i l 0%Z = t -> (forall j, j < i -> nth j l 0%Z <> t) ->
  resolve_blank_info l t = Some i.
Proof.
  unfold resolve_blank_info. revert i.
  induction l as [|v l IH]; intros i Hi Hn Hfirst; simpl in Hi; [lia|].
  destruct i as [|i]; simpl in Hn |- *.
  - subst v. rewrite Z.eqb_refl. reflexivity.
  - destruct (Z.eqb_spec v t) as [E|Hne].
    + exfalso. apply (Hfirst 0); [lia | exact E].
    + rewrite where_eq_shift.
      assert (H : hd_error (where_eq 0 l t) = Some i).
      { apply IH; [lia | exact Hn |]. intros j Hj. apply (Hfirst (S j)). lia. }
      destruct (where_eq 0 l t) as [|k ks]; simpl in *; [discriminate|].
      congruence.
Qed.

(** C5. For a current row in [0, max_row-1]: Previous gives max(0, row-1)
    and Next gives min(max_row-1, row+1), both inside [0, max_row-1], in the
    table view and in the fullscreen view; a tick of the auto-advance
    interval gives (row+1) mod max_row when auto-advance is on (row 0 from the
    last row) and no update when it is off. *)
Theorem previous_next_tick (row max_row : Z) (blank_info : option (list Z))
        (auto_advance_state : string) (jump_value : jump_input)
        (prev_clicks next_clicks : nat) :
  (0 <= row < max_row)%Z ->
  let cur := Some row in
  let fire t aa := handle_row_selection (Some t) blank_info cur max_row aa jump_value in
  store_after cur (fire JumpPreviousButton auto_advance_state) = Some (Z.max 0 (row - 1)) /\
  store_after cur (fire JumpNextButton auto_advance_state)
    = Some (Z.min (max_row - 1) (row + 1)) /\
  store_after cur (handle_fullscreen_navigation (Some FullscreenPrevRow)
                     (Some (S prev_clicks)) (Some next_clicks) cur max_row)
    = Some (Z.max 0 (row - 1)) /\
  store_after cur (handle_fullscreen_navigation (Some FullscreenNextRow)
                     (Some prev_clicks) (Some (S next_clicks)) cur max_row)
    = Some (Z.min (max_row - 1) (row + 1)) /\
  (0 <= Z.max 0 (row - 1) < max_row)%Z /\
  (0 <= Z.min (max_row - 1) (row + 1) < max_row)%Z /\
  store_after cur (fire AutoAdvanceInterval "true") = Some ((row + 1) mod max_row)%Z /\
  (row = (max_row - 1)%Z -> store_after cur (fire AutoAdvanceInterval "true") = Some 0%Z) /\
  (auto_advance_state <> "true" ->
   fire AutoAdvanceInterval auto_advance_state = NoUpdate /\
   store_after cur (fire AutoAdvanceInterval auto_advance_state) = cur).
Proof.
  intros Hrow cur fire.
  assert (Hset : row_is_set cur = true) by (apply row_is_set_nonneg; lia).
  assert (Hint : current_row_int cur = row).
  { simpl. destruct (Z.eqb_spec row (-1)); [lia | reflexivity]. }
  assert (Hmax : (max_row <=? 0)%Z = false) by (apply Z.leb_gt; lia).
  assert (Hmod : (0 <= (row + 1) mod max_row < max_row)%Z)
    by (apply Z.mod_pos_bound; lia).
  assert (Htick : store_after cur (fire AutoAdvanceInterval "true")
                  = Some ((row + 1) mod max_row)%Z).
  { unfold fire, handle_row_selection. rewrite Hmax. simpl String.eqb. cbv iota.
    rewrite Hint at 2. apply chosen_row_stored; assumption. }
  repeat split; try lia.
  - unfold fire, handle_row_selection. rewrite Hmax.
    rewrite Hint at 2. apply chosen_row_stored; [assumption | lia].
  - unfold fire, handle_row_selection. rewrite Hmax.
    rewrite Hint at 2. apply chosen_row_stored; [assumption | lia].
  - unfold cur. simpl. destruct (Z.eqb_spec row (-1)); [lia | reflexivity].
  - unfold cur. simpl. destruct (Z.eqb_spec row (-1)); [lia | reflexivity].
  - exact Htick.
  - intros ->. rewrite Htick. f_equal.
    replace (max_row - 1 + 1)%Z with max_row by lia. apply Z_mod_same_full.
  - unfold fire, handle_row_selection. rewrite Hmax.
    destruct (String.eqb_spec auto_advance_state "true"); [contradiction | reflexivity].
  - unfold fire, handle_row_selection. rewrite Hmax.
    destruct (String.eqb_spec auto_advance_state "true"); [contradiction | reflexivity].
Qed.

(** At the last of ten rows a tick with auto-advance on leads to row 0. *)
Lemma previous_next_tick_witness :
  store_after (Some 9%Z)
    (handle_row_selection (Some AutoAdvanceInterval) None (Some 9%Z) 10 "true" JumpNone)
  = Some 0%Z.
Proof.
  destruct (@previous_next_tick 9 10 None "true" JumpNone 0 0) as (_ & _ & _ & _ & _ & _ & _ & H & _);
    [lia|].
  apply H. reflexivity.
Defined.

(** The specification's paging example: row 7 is on page 2, row 0 on page 1. *)
Example page_for_row_example : page_for_row 7 = 2%Z /\ page_for_row 0 = 1%Z.
Proof. split; reflexivity. Qed.

(** With no row selected the current row is read as 0, so a jump whose
    target is row 0 is taken for "no change" and the store stays unset. *)
Example jump_to_first_row_from_unset :
  handle_row_selection (Some JumpToRowButton) (Some [1; 2; 3]%Z) None 3 "false" (JumpInt 1)
  = NoUpdate.
Proof. reflexivity. Qed.

(** C7 (amended). A jump request for [n] while the data store holds a
    non-empty blank-info array, with [max_row > 0] and a row selected: if [n]
    occurs and its first index [i] is below [max_row], the row becomes [i];
    if [n] does not occur, or its first index is not below [max_row], the
    callback returns [dash.no_update] and the store keeps its value. *)
Theorem jump_to_blank_info (data : list Z) (n max_row : Z) (cur : option Z)
        (auto_advance_state : string) :
  data <> [] ->
  (0 < max_row)%Z ->
  row_is_set cur = true ->
  let out := handle_row_selection (Some JumpToRowButton) (Some data) cur max_row
                                  auto_advance_state (JumpInt n) in
  (forall i, i < length data -> nth i data 0%Z = n ->
             (forall j, j < i -> nth j data 0%Z <> n) ->
             ((Z.of_nat i < max_row)%Z -> store_after cur out = Some (Z.of_nat i)) /\
             ((max_row <= Z.of_nat i)%Z -> out = NoUpdate /\ store_after cur out = cur)) /\
  (~ In n data -> out = NoUpdate /\ store_after cur out = cur).
Proof.
  intros Hne Hmax Hset out.
  assert (Hguard : (max_row <=? 0)%Z = false) by (apply Z.leb_gt; lia).
  destruct data as [|v rest]; [contradiction|].
  split.
  - intros i Hi Hn Hfirst.
    pose proof (resolve_first _ Hi Hn Hfirst) as Hres.
    split; intros Hb.
    + unfold out, handle_row_selection, jump_target. rewrite Hguard, Hres.
      replace ((0 <=? Z.of_nat i)%Z && (Z.of_nat i <? max_row)%Z) with true
        by (symmetry; apply andb_true_intro; split; [apply Z.leb_le | apply Z.ltb_lt]; lia).
      apply chosen_row_stored; [assumption | lia].
    + assert (E : out = NoUpdate).
      { unfold out, handle_row_selection, jump_target. rewrite Hguard, Hres.
        replace (Z.of_nat i <? max_row)%Z with false by (symmetry; apply Z.ltb_ge; lia).
        rewrite andb_false_r. reflexivity. }
      rewrite E. split; reflexivity.
  - intros Hnot. apply resolve_none in Hnot.
    assert (E : out = NoUpdate).
    { unfold out, handle_row_selection, jump_target. rewrite Hguard, Hnot. reflexivity. }
    rewrite E. split; reflexivity.
Qed.

(** Coil51 of the specification's example (numbers 13..20, eight rows, row 5
    selected): a jump to 15 leads to row 2. *)
Lemma jump_to_blank_info_witness :
  store_after (Some 5%Z)
    (handle_row_selection (Some JumpToRowButton) (Some (arange 13 21)) (Some 5%Z) 8
                          "false" (JumpInt 15))
  = Some 2%Z.
Proof.
  destruct (@jump_to_blank_info (arange 13 21) 15 8 (Some 5%Z) "false") as [H _];
    [discriminate | lia | reflexivity |].
  destruct (H 2) as [H2 _].
  - vm_compute. lia.
  - reflexivity.
  - intros j Hj. destruct j as [|[|j]]; [discriminate | discriminate | lia].
  - apply H2. lia.
Defined.

(** C10 (amended). A jump request for [n] while the data store holds no
    blank-info array, or an empty one, with [max_row > 0] and a row
    selected: [n] is read as a one-based row index; the row becomes [n-1]
    when [n-1] lies in [0, max_row-1], and otherwise the callback returns
    [dash.no_update] and the store keeps its value. *)
Theorem jump_fallback_one_based (blank_info : option (list Z)) (n max_row : Z)
        (cur : option Z) (auto_advance_state : string) :
  blank_info = None \/ blank_info = Some [] ->
  (0 < max_row)%Z ->
  row_is_set cur = true ->
  let out := handle_row_selection (Some JumpToRowButton) blank_info cur max_row
                                  auto_advance_state (JumpInt n) in
  ((0 <= n - 1 < max_row)%Z -> store_after cur out = Some (n - 1)%Z) /\
  (~ (0 <= n - 1 < max_row)%Z -> out = NoUpdate /\ store_after cur out = cur).
Proof.
  intros Hbi Hmax Hset out.
  assert (Hguard : (max_row <=? 0)%Z = false) by (apply Z.leb_gt; lia).
  assert (Hout : out = commit_row (current_row_int cur) max_row
                         (if (0 <=? n - 1)%Z && (n - 1 <? max_row)%Z
                          then Some (n - 1)%Z else None)).
  { unfold out, handle_row_selection, jump_target. rewrite Hguard.
    destruct Hbi as [-> | ->]; reflexivity. }
  rewrite Hout. split; intros Hb.
  - replace ((0 <=? n - 1)%Z && (n - 1 <? max_row)%Z) with true
      by (symmetry; apply andb_true_intro; split; [apply Z.leb_le | apply Z.ltb_lt]; lia).
    apply chosen_row_stored; assumption.
  - replace ((0 <=? n - 1)%Z && (n - 1 <? max_row)%Z) with false.
    + split; reflexivity.
    + symmetry. apply andb_false_iff.
      destruct (Z.leb_spec 0 (n - 1)); [right; apply Z.ltb_ge; lia | left; reflexivity].
Qed.

(** Four rows, row 0 selected, no blank-info array: a jump to 3 leads to
    row 2. *)
Lemma jump_fallback_one_based_witness :
  store_after (Some 0%Z)
    (handle_row_selection (Some JumpToRowButton) None (Some 0%Z) 4 "false" (JumpInt 3))
  = Some 2%Z.
Proof.
  destruct (@jump_fallback_one_based None 3 4 (Some 0%Z) "false") as [H _];
    [left; reflexivity | lia | reflexivity |].
  apply H. lia.
Defined.

End NavigationFacts.

(** ** The range table *)

Module TableFacts.

Import Ranges RangesFacts Invariants.

Lemma lookup_dict_set_same (tbl : table) (k : string) (r : CoilRange) :
  lookup k (dict_set tbl k r) = Some r.
Proof.
  induction tbl as [|[k0 r0] tbl IH]; simpl.
  - rewrite String.eqb_refl. reflexivity.
  - destruct (String.eqb_spec k k0) as [->|Hne]; simpl.
    + rewrite String.eqb_refl. reflexivity.
    + destruct (String.eqb_spec k k0); [contradiction | exact IH].
Qed.

Lemma lookup_dict_set_other (tbl : table) (k k' : string) (r : CoilRange) :
  k' <> k -> lookup k' (dict_set tbl k r) = lookup k' tbl.
Proof.
  intros Hne. induction tbl as [|[k0 r0] tbl IH]; simpl.
  - destruct (String.eqb_spec k' k); [contradiction | reflexivity].
  - destruct (String.eqb_spec k k0) as [->|Hk]; simpl.
    + destruct (String.eqb_spec k' k0); [contradiction | reflexivity].
    + destruct (String.eqb_spec k' k0); [reflexivity | exact IH].
Qed.

Lemma dict_set_absent (tbl : table) (k : string) (r : CoilRange) :
  lookup k tbl = None -> dict_set tbl k r = tbl ++ [(k, r)].
Proof.
  induction tbl as [|[k0 r0] tbl IH]; simpl; [reflexivity|].
  destruct (String.eqb_spec k k0); [discriminate|].
  intros H. rewrite IH by assumption. reflexivity.
Qed.

Lemma dict_set_same_value (tbl : table) (k : string) (r : CoilRange) :
  lookup k tbl = Some r -> dict_set tbl k r = tbl.
Proof.
  induction tbl as [|[k0 r0] tbl IH]; simpl; [discriminate|].
  destruct (String.eqb_spec k k0) as [->|Hne].
  - intros [= ->]. reflexivity.
  - intros H. rewrite IH by assumption. reflexivity.
Qed.

Lemma lookup_app_absent (tbl : table) (k k' : string) (r : CoilRange) :
  lookup k' (tbl ++ [(k, r)]) =
  match lookup k' tbl with
  | Some r' => Some r'
  | None => if String.eqb k' k then Some r else None
  end.
Proof.
  induction tbl as [|[k0 r0] tbl IH]; simpl; [reflexivity|].
  destruct (String.eqb k' k0); [reflexivity | exact IH].
Qed.

(** *** Chains *)

Lemma chain_next_ge (tbl : table) (s : Z) : chain s tbl -> (s <= chain_next s tbl)%Z.
Proof.
  revert s. induction tbl as [|[k r] tbl IH]; intros s; simpl; [lia|].
  intros (Hs & He & Hc). specialize (IH _ Hc). lia.
Qed.

Lemma fold_max_chain (tbl : table) (e : Z) :
  chain (e + 1) tbl ->
  fold_left Z.max (map (fun kr => rng_end (snd kr)) tbl) e = (chain_next (e + 1) tbl - 1)%Z.
Proof.
  revert e. induction tbl as [|[k r] tbl IH]; intros e; simpl; [lia|].
  intros (Hs & He & Hc).
  replace (Z.max e (rng_end r)) with (rng_end r) by lia.
  apply IH. exact Hc.
Qed.

(** On a chain, the start chosen for a coil without a range is the number
    after the chain. *)
Lemma lazy_start_is_next (tbl : table) :
  chain 1 tbl ->
  match tbl with
  | [] => 1%Z
  | _ => (py_max (map (fun kr => rng_end (snd kr)) tbl) + 1)%Z
  end = chain_next 1 tbl.
Proof.
  destruct tbl as [|[k r] tbl]; [reflexivity|].
  intros (Hs & He & Hc). simpl. rewrite fold_max_chain by assumption. lia.
Qed.

Lemma chain_app (tbl : table) (s : Z) (k : string) (n : nat) :
  chain s tbl ->
  let r := mkRange (chain_next s tbl) (chain_next s tbl + Z.of_nat n - 1) n in
  chain s (tbl ++ [(k, r)]) /\
  chain_next s (tbl ++ [(k, r)]) = (chain_next s tbl + Z.of_nat n)%Z.
Proof.
  revert s. induction tbl as [|[k0 r0] tbl IH]; intros s; simpl.
  - intros _. repeat split; lia.
  - intros (Hs & He & Hc). destruct (IH _ Hc) as [H1 H2]. repeat split; assumption.
Qed.

Lemma chain_consecutive (tbl : table) (s : Z) (i : nat) (k1 k2 : string) (r1 r2 : CoilRange) :
  chain s tbl ->
  nth_error tbl i = Some (k1, r1) -> nth_error tbl (S i) = Some (k2, r2) ->
  rng_start r2 = (rng_end r1 + 1)%Z.
Proof.
  revert s i. induction tbl as [|[k0 r0] tbl IH]; intros s i H E1 E2.
  - destruct i; discriminate.
  - simpl in H. destruct H as (Hs & He & Hc). destruct i as [|i]; simpl in E1, E2.
    + injection E1 as E1 E1'. subst.
      destruct tbl as [|[k3 r3] tbl]; simpl in *; [discriminate|].
      injection E2 as E2 E2'. subst. apply Hc.
    + exact (IH _ _ Hc E1 E2).
Qed.

Lemma chain_contiguous (tbl : table) : chain 1 tbl -> contiguous tbl.
Proof.
  intros H. split.
  - intros k r E. destruct tbl as [|[k0 r0] tbl]; simpl in *; [discriminate|].
    injection E as E1 E2. subst. apply H.
  - intros i k1 r1 k2 r2. apply chain_consecutive with (s := 1%Z). exact H.
Qed.

Lemma chain_after (tbl : table) (s : Z) (i : nat) (k : string) (r : CoilRange) :
  chain s tbl -> nth_error tbl i = Some (k, r) ->
  (s <= rng_start r)%Z /\ (rng_start r - 1 <= rng_end r)%Z.
Proof.
  revert s i. induction tbl as [|[k0 r0] tbl IH]; intros s i H E.
  - destruct i; discriminate.
  - simpl in H. destruct H as (Hs & He & Hc). destruct i as [|i]; simpl in E.
    + injection E as E E'. subst. lia.
    + destruct (IH _ _ Hc E). lia.
Qed.

Lemma chain_disjoint (tbl : table) (s : Z) : chain s tbl -> pairwise_disjoint tbl.
Proof.
  revert s. induction tbl as [|[k0 r0] tbl IH]; intros s H i j k1 r1 k2 r2 Hij E1 E2 n [C1 C2].
  - destruct i; discriminate.
  - simpl in H. destruct H as (Hs & He & Hc).
    destruct j as [|j]; [lia|]. simpl in E2.
    destruct i as [|i]; simpl in E1.
    + injection E1 as E1 E1'. subst.
      destruct (@chain_after _ _ _ _ _ Hc E2) as [Hge _]. unfold covers in *. lia.
    + apply (IH _ Hc i j k1 r1 k2 r2 ltac:(lia) E1 E2 n). split; assumption.
Qed.

(** *** Lazy allocation *)

Lemma generate_table_known (tbl : table) (coil : string) (n : nat) (r : CoilRange) :
  lookup coil tbl = Some r -> snd (generate_coil_blank_info tbl coil n) = tbl.
Proof. intros H. unfold generate_coil_blank_info. rewrite H. reflexivity. Qed.

Lemma generate_table_new (tbl : table) (coil : string) (n : nat) :
  chain 1 tbl -> lookup coil tbl = None ->
  snd (generate_coil_blank_info tbl coil n)
  = tbl ++ [(coil, mkRange (chain_next 1 tbl) (chain_next 1 tbl + Z.of_nat n - 1) n)].
Proof.
  intros Hc H. unfold generate_coil_blank_info. rewrite H.
  cbn [snd]. rewrite lazy_start_is_next by assumption.
  apply dict_set_absent. exact H.
Qed.

Lemma generate_chain (tbl : table) (coil : string) (n : nat) :
  chain 1 tbl -> chain 1 (snd (generate_coil_blank_info tbl coil n)).
Proof.
  intros Hc. destruct (lookup coil tbl) as [r|] eqn:E.
  - rewrite (@generate_table_known tbl coil n r E). exact Hc.
  - rewrite generate_table_new by assumption. apply chain_app. exact Hc.
Qed.

Lemma generate_keeps (tbl : table) (coil : string) (n : nat) (c : string) (r : CoilRange) :
  lookup c tbl = Some r -> lookup c (snd (generate_coil_blank_info tbl coil n)) = Some r.
Proof.
  intros H. unfold generate_coil_blank_info.
  destruct (lookup coil tbl) as [r0|] eqn:E; cbn [snd]; [exact H|].
  rewrite lookup_dict_set_other; [exact H|]. intros ->. congruence.
Qed.

End TableFacts.

(** ** Loading *)

Module LoaderFacts.

Import Ranges RangesFacts Invariants TableFacts Loader.

Lemma count_rows_pos (sd bd pf : option DataSeries) :
  0 < count_rows sd bd pf ->
  negb (is_none sd) || negb (is_none bd) || negb (is_none pf) = true.
Proof.
  destruct sd, bd, pf; simpl; try reflexivity. unfold count_rows. simpl. lia.
Qed.

(** What [load_data_from_h5_dynamic] returns, in terms of the file alone. *)
Lemma load_eq (tbl : table) (f : File) (coil : string) :
  let n := file_rows f coil in
  (file_loads f coil = true ->
   fst (load_data_from_h5_dynamic tbl f coil)
   = mkLoaded (load_entry f coil screwdown) (load_entry f coil bending)
              (load_entry f coil profile)
              (Some (if (0 <? n)%nat then fst (generate_coil_blank_info tbl coil n) else []))) /\
  any_values (fst (load_data_from_h5_dynamic tbl f coil)) = file_loads f coil /\
  num_rows_of (fst (load_data_from_h5_dynamic tbl f coil))
  = (if file_loads f coil then n else 0) /\
  snd (load_data_from_h5_dynamic tbl f coil)
  = (if (0 <? n)%nat then snd (generate_coil_blank_info tbl coil n) else tbl).
Proof.
  intros n. unfold load_data_from_h5_dynamic.
  destruct (is_none (data_group f coil screwdown) && is_none (data_group f coil bending)
            && is_none (data_group f coil profile)) eqn:Epaths.
  - apply andb_prop in Epaths. destruct Epaths as [E12 E3].
    apply andb_prop in E12. destruct E12 as [E1 E2].
    assert (Hl : file_loads f coil = false).
    { unfold file_loads, load_entry.
      destruct (data_group f coil screwdown); [discriminate|].
      destruct (data_group f coil bending); [discriminate|].
      destruct (data_group f coil profile); [discriminate|]. reflexivity. }
    assert (Hn : n = 0).
    { unfold n, file_rows, load_entry.
      destruct (data_group f coil screwdown); [discriminate|].
      destruct (data_group f coil bending); [discriminate|].
      destruct (data_group f coil profile); [discriminate|]. reflexivity. }
    rewrite Hl, Hn. simpl. repeat split; try reflexivity. discriminate.
  - fold (file_rows f coil). fold n.
    destruct (0 <? n)%nat eqn:En.
    + destruct (generate_coil_blank_info tbl coil n) as [bi tbl'] eqn:Eg. simpl.
      assert (Hl : file_loads f coil = true).
      { apply count_rows_pos. apply Nat.ltb_lt in En. exact En. }
      unfold any_values, num_rows_of. simpl. fold (file_loads f coil).
      fold (file_rows f coil). rewrite Hl. repeat split; reflexivity.
    + simpl. unfold any_values, num_rows_of. simpl. fold (file_loads f coil).
      fold (file_rows f coil). fold n.
      apply Nat.ltb_ge in En. assert (n = 0) by lia.
      destruct (file_loads f coil); repeat split; auto.
Qed.

Lemma load_table (tbl : table) (f : File) (coil : string) :
  snd (load_data_from_h5_dynamic tbl f coil)
  = (if (0 <? file_rows f coil)%nat
     then snd (generate_coil_blank_info tbl coil (file_rows f coil)) else tbl).
Proof. apply load_eq. Qed.

Lemma load_chain (tbl : table) (f : File) (coil : string) :
  chain 1 tbl -> chain 1 (snd (load_data_from_h5_dynamic tbl f coil)).
Proof.
  intros H. rewrite load_table. destruct (0 <? file_rows f coil)%nat; [|exact H].
  apply generate_chain. exact H.
Qed.

Lemma load_keeps (tbl : table) (f : File) (coil c : string) (r : CoilRange) :
  lookup c tbl = Some r -> lookup c (snd (load_data_from_h5_dynamic tbl f coil)) = Some r.
Proof.
  intros H. rewrite load_table. destruct (0 <? file_rows f coil)%nat; [|exact H].
  apply generate_keeps. exact H.
Qed.

(** *** Resolution of the reference curves *)

(** [first_attr] returns the value of the first name of the list that the
    attributes hold. *)
Lemma first_attr_spec (attrs : string -> option (list Q)) (names : list string) :
  match first_attr attrs names with
  | Some v =>
      exists i name, nth_error names i = Some name /\ attrs name = Some v /\
                     forall j name', j < i -> nth_error names j = Some name' -> attrs name' = None
  | None => forall name, In name names -> attrs name = None
  end.
Proof.
  induction names as [|n names IH]; simpl; [intros name []|].
  destruct (attrs n) as [v|] eqn:E.
  - exists 0, n. repeat split; auto. intros j name' Hj. lia.
  - destruct (first_attr attrs names) as [v|].
    + destruct IH as (i & name & Hn & Ha & Hfirst).
      exists (S i), name. repeat split; auto.
      intros [|j] name' Hj Hnth; simpl in Hnth.
      * injection Hnth as <-. exact E.
      * apply (Hfirst j); [lia | exact Hnth].
    + intros name [<-|Hin]; [exact E | apply IH, Hin].
Qed.

(** Every data type's entry of the result depends on its own group only. *)
Lemma load_get (tbl : table) (f : File) (coil : string) (t : data_type) :
  get (fst (load_data_from_h5_dynamic tbl f coil)) t = load_entry f coil t.
Proof.
  unfold load_data_from_h5_dynamic.
  destruct (is_none (data_group f coil screwdown) && is_none (data_group f coil bending)
            && is_none (data_group f coil profile)) eqn:Epaths.
  - apply andb_prop in Epaths. destruct Epaths as [E12 E3].
    apply andb_prop in E12. destruct E12 as [E1 E2].
    unfold load_entry. destruct t; simpl.
    + destruct (data_group f coil screwdown); [discriminate | reflexivity].
    + destruct (data_group f coil bending); [discriminate | reflexivity].
    + destruct (data_group f coil profile); [discriminate | reflexivity].
  - destruct (0 <? _)%nat.
    + destruct (generate_coil_blank_info _ _ _) as [bi tbl']. destruct t; reflexivity.
    + destruct t; reflexivity.
Qed.

Lemma resolve_both (t : data_type) (g : Group) (ax az : list Q) :
  first_attr (grp_attrs g) (ref_attr_names t) = Some ax ->
  first_attr (grp_attrs g) (ref_attr_names_z t) = Some az ->
  resolve_reference t g = (Some ax, Some az).
Proof. intros Ex Ez. unfold resolve_reference. rewrite Ex, Ez. reflexivity. Qed.

Lemma resolve_partial (t : data_type) (g : Group) :
  first_attr (grp_attrs g) (ref_attr_names t) = None \/
  first_attr (grp_attrs g) (ref_attr_names_z t) = None ->
  resolve_reference t g
  = (fallback_mean (take_dataset (grp_ref_x g) (first_attr (grp_attrs g) (ref_attr_names t)))
                   (as_2d (grp_x g)),
     fallback_mean (take_dataset (grp_ref_z g) (first_attr (grp_attrs g) (ref_attr_names_z t)))
                   (as_2d (grp_z g))).
Proof.
  intros Hor. unfold resolve_reference.
  destruct Hor as [E|E]; rewrite E; cbn [is_none orb]; [reflexivity|].
  rewrite orb_true_r. reflexivity.
Qed.

(** A curve has a dtype exactly when it has values. *)
Lemma first_attr_dtype_none (g : Group) (names : list string) :
  is_none (first_attr (attr_dtypes g) names) = is_none (first_attr (grp_attrs g) names).
Proof.
  induction names as [|n names IH]; simpl; [reflexivity|].
  unfold attr_dtypes at 1. destruct (grp_attrs g n); simpl; auto.
Qed.

Lemma resolve_dtype_defined (t : data_type) (g : Group) :
  is_none (fst (resolve_dtype t g)) = is_none (fst (resolve_reference t g)) /\
  is_none (snd (resolve_dtype t g)) = is_none (snd (resolve_reference t g)).
Proof.
  unfold resolve_dtype, resolve_reference.
  pose proof (first_attr_dtype_none g (ref_attr_names t)) as Hx.
  pose proof (first_attr_dtype_none g (ref_attr_names_z t)) as Hz.
  destruct (first_attr (attr_dtypes g) (ref_attr_names t)),
           (first_attr (grp_attrs g) (ref_attr_names t)); try discriminate Hx;
  destruct (first_attr (attr_dtypes g) (ref_attr_names_z t)),
           (first_attr (grp_attrs g) (ref_attr_names_z t)); try discriminate Hz;
  cbn [is_none orb];
  destruct (grp_ref_x g), (grp_ref_z g);
  cbn [take_dataset dataset_dtype fallback_dtype fallback_mean fst snd is_none];
  destruct (0 <? size (as_2d (grp_x g)))%nat, (0 <? size (as_2d (grp_z g)))%nat;
  split; reflexivity.
Qed.

Lemma resolve_dtype_some (t : data_type) (g : Group) (rx rz : list Q) :
  resolve_reference t g = (Some rx, Some rz) ->
  exists dx dz, resolve_dtype t g = (Some dx, Some dz).
Proof.
  intros E. destruct (resolve_dtype_defined t g) as [Hx Hz].
  rewrite E in Hx, Hz. cbn [fst snd is_none] in Hx, Hz.
  destruct (resolve_dtype t g) as [[dx|] [dz|]]; try discriminate.
  exists dx, dz. reflexivity.
Qed.

Lemma load_excluded (t : data_type) (g : Group) :
  fst (resolve_reference t g) = None \/ snd (resolve_reference t g) = None \/
  (exists x z, fst (resolve_reference t g) = Some x /\ snd (resolve_reference t g) = Some z /\
               length x <> length z) ->
  load_data_type t g = None.
Proof.
  unfold load_data_type.
  destruct (resolve_reference t g) as [[x|] [z|]]; cbn [fst snd];
    intros [H | [H | (x' & z' & Hx & Hz & Hne)]];
    try discriminate; try reflexivity.
  injection Hx as <-. injection Hz as <-.
  destruct (resolve_dtype t g) as [[dx|] [dz|]]; try reflexivity.
  destruct (Nat.eqb_spec (length x) (length z)); [contradiction | reflexivity].
Qed.

(** The attribute holds a reference X curve, yet the loader takes the
    sibling dataset [ref_x]: the datasets are read for both axes as soon as
    one axis has no attribute. *)
Lemma dataset_replaces_attribute_curve :
  first_attr (grp_attrs Samples.mixed_group) (ref_attr_names screwdown) = Some [0; 1]%Q /\
  first_attr (grp_attrs Samples.mixed_group) (ref_attr_names_z screwdown) = None /\
  resolve_reference screwdown Samples.mixed_group = (Some [5; 6]%Q, Some [7; 8]%Q).
Proof. repeat split. Qed.

(** The synthetic reference of a group without reference data. *)
Example synthetic_reference :
  resolve_reference screwdown Samples.bare_group
  = (Some [(0 + 1 + 3) / inject_Z 2; (0 + 2 + 6) / inject_Z 2]%Q,
     Some [(0 + 3 + 5) / inject_Z 2; (0 + 4 + 8) / inject_Z 2]%Q).
Proof. reflexivity. Qed.

(** C8 (amended). The reference curves of a data type are resolved in three
    stages.  (a) Per axis, the first attribute name of the list that the
    group holds.  (b) When both axes have an attribute, these are the
    result; when an axis has none, each sibling dataset [ref_x] / [ref_z]
    that exists becomes the curve of its axis, also of an axis that had an
    attribute.  (c) An axis still without a curve gets the column-wise mean
    of its actual array when that array is not empty.  When a curve is
    still missing or the lengths differ, the data type has no entry; the
    entry of every data type is computed from its own group alone, so the
    other data types load all the same. *)
Theorem reference_fallback_chain (t : data_type) (g : Group) :
  let attr_x := first_attr (grp_attrs g) (ref_attr_names t) in
  let attr_z := first_attr (grp_attrs g) (ref_attr_names_z t) in
  let rx := fst (resolve_reference t g) in
  let rz := snd (resolve_reference t g) in
  let first_held names v :=
    exists i name,
      nth_error names i = Some name /\ grp_attrs g name = Some v /\
      forall j name', j < i -> nth_error names j = Some name' -> grp_attrs g name' = None in
  (forall v, attr_x = Some v -> first_held (ref_attr_names t) v) /\
  (forall v, attr_z = Some v -> first_held (ref_attr_names_z t) v) /\
  (attr_x <> None -> attr_z <> None -> rx = attr_x /\ rz = attr_z) /\
  (attr_x = None \/ attr_z = None ->
   (forall v, grp_ref_x g = Some v -> rx = Some v) /\
   (forall v, grp_ref_z g = Some v -> rz = Some v) /\
   (grp_ref_x g = None -> attr_x <> None -> rx = attr_x) /\
   (grp_ref_z g = None -> attr_z <> None -> rz = attr_z) /\
   (grp_ref_x g = None -> attr_x = None ->
    rx = if (0 <? size (as_2d (grp_x g)))%nat
         then Some (mean_axis0 (as_2d (grp_x g))) else None) /\
   (grp_ref_z g = None -> attr_z = None ->
    rz = if (0 <? size (as_2d (grp_z g)))%nat
         then Some (mean_axis0 (as_2d (grp_z g))) else None)) /\
  ((rx = None \/ rz = None \/
    (exists x z, rx = Some x /\ rz = Some z /\ length x <> length z)) ->
   load_data_type t g = None) /\
  (forall tbl f coil t',
      get (fst (load_data_from_h5_dynamic tbl f coil)) t'
      = match data_group f coil t' with
        | Some g' => load_data_type t' g'
        | None => None
        end).
Proof.
  cbv zeta.
  split; [|split; [|split; [|split; [|split]]]].
  - intros v E. pose proof (first_attr_spec (grp_attrs g) (ref_attr_names t)) as H.
    rewrite E in H. exact H.
  - intros v E. pose proof (first_attr_spec (grp_attrs g) (ref_attr_names_z t)) as H.
    rewrite E in H. exact H.
  - intros Hx Hz.
    destruct (first_attr (grp_attrs g) (ref_attr_names t)) as [ax|] eqn:Ex; [|contradiction].
    destruct (first_attr (grp_attrs g) (ref_attr_names_z t)) as [az|] eqn:Ez; [|contradiction].
    rewrite (resolve_both t g Ex Ez). split; reflexivity.
  - intros Hor. rewrite (resolve_partial t g Hor). cbn [fst snd].
    repeat split.
    + intros v ->. reflexivity.
    + intros v ->. reflexivity.
    + intros ->. cbn [take_dataset].
      destruct (first_attr (grp_attrs g) (ref_attr_names t)); [reflexivity | contradiction].
    + intros ->. cbn [take_dataset].
      destruct (first_attr (grp_attrs g) (ref_attr_names_z t)); [reflexivity | contradiction].
    + intros -> ->. reflexivity.
    + intros -> ->. reflexivity.
  - apply load_excluded.
  - intros tbl f coil t'. apply load_get.
Qed.

(** The group without reference data: both curves are the column means. *)
Lemma reference_fallback_chain_witness :
  fst (resolve_reference screwdown Samples.bare_group)
  = Some (mean_axis0 [[1; 2]; [3; 6]]%Q) /\
  snd (resolve_reference screwdown Samples.bare_group)
  = Some (mean_axis0 [[3; 4]; [5; 8]]%Q).
Proof.
  destruct (@reference_fallback_chain screwdown Samples.bare_group) as (_ & _ & _ & H & _).
  destruct H as (_ & _ & _ & _ & Hx & Hz); [left; reflexivity|].
  split; [apply Hx | apply Hz]; reflexivity.
Defined.

End LoaderFacts.

(** ** The session *)

Module SessionFacts.

Import Ranges RangesFacts Invariants TableFacts Loader LoaderFacts Session.

(** One turn of the loop of [calculate_coil_ranges], in terms of the file. *)
Lemma range_step_eq (f : File) (tbl : table) (cs : Z) (coil : string) :
  range_step f (tbl, cs) coil
  = let n := file_rows f coil in
    if (0 <? n)%nat
    then (dict_set (snd (generate_coil_blank_info tbl coil n)) coil
                   (mkRange cs (cs + Z.of_nat n - 1) n),
          (cs + Z.of_nat n - 1 + 1)%Z)
    else (tbl, cs).
Proof.
  unfold range_step.
  destruct (load_eq tbl f coil) as (_ & Hany & Hrows & Htbl).
  destruct (load_data_from_h5_dynamic tbl f coil) as [dd tbl1]. simpl in *.
  rewrite Hany, Hrows, Htbl. cbv zeta.
  destruct (file_loads f coil) eqn:El.
  - destruct (0 <? file_rows f coil)%nat; reflexivity.
  - destruct (0 <? file_rows f coil)%nat eqn:En; [|reflexivity].
    apply Nat.ltb_lt, count_rows_pos in En. unfold file_loads in El. congruence.
Qed.

(** The loop of [calculate_coil_ranges] over coils that are pairwise
    different and not yet in the table. *)
Lemma batch_loop (f : File) (coils : list string) :
  NoDup coils ->
  forall (tbl : table) (cs : Z) (seen : list string),
    chain 1 tbl ->
    chain_next 1 tbl = cs ->
    (forall k r, lookup k tbl = Some r -> In k seen) ->
    (forall k, In k seen -> 0 < file_rows f k -> lookup k tbl <> None) ->
    (forall k, In k coils -> ~ In k seen) ->
    let tbl' := fst (fold_left (range_step f) coils (tbl, cs)) in
    chain 1 tbl' /\
    (forall k, In k seen \/ In k coils -> 0 < file_rows f k -> lookup k tbl' <> None).
Proof.
  induction 1 as [|c coils Hc Hnd IH]; intros tbl cs seen Hchain Hnext Hkeys Hpres Hfresh.
  - simpl. split; [exact Hchain|]. intros k [Hk|[]]. apply Hpres. exact Hk.
  - cbn [fold_left]. rewrite range_step_eq. cbv zeta.
    assert (Habs : lookup c tbl = None).
    { destruct (lookup c tbl) as [r|] eqn:E; [|reflexivity].
      exfalso. apply (Hfresh c); [left; reflexivity | exact (Hkeys _ _ E)]. }
    destruct (0 <? file_rows f c)%nat eqn:En.
    + rewrite generate_table_new by assumption. rewrite Hnext.
      set (r := mkRange cs (cs + Z.of_nat (file_rows f c) - 1) (file_rows f c)).
      assert (Hl : lookup c (tbl ++ [(c, r)]) = Some r).
      { rewrite lookup_app_absent, Habs, String.eqb_refl. reflexivity. }
      rewrite (dict_set_same_value _ _ Hl).
      destruct (@chain_app tbl 1%Z c (file_rows f c) Hchain) as [Hch Hnx].
      rewrite Hnext in Hch, Hnx. fold r in Hch, Hnx.
      destruct (IH (tbl ++ [(c, r)]) (cs + Z.of_nat (file_rows f c) - 1 + 1)%Z (c :: seen))
        as [H1 H2].
      * exact Hch.
      * rewrite Hnx. lia.
      * intros k r0. rewrite lookup_app_absent.
        destruct (lookup k tbl) as [r1|] eqn:E.
        -- intros _. right. exact (Hkeys _ _ E).
        -- destruct (String.eqb_spec k c); [intros _; left; congruence | discriminate].
      * intros k [<-|Hk] Hr; [congruence|].
        rewrite lookup_app_absent. specialize (Hpres k Hk Hr).
        destruct (lookup k tbl); [discriminate | contradiction].
      * intros k Hk [<-|Hs]; [contradiction | exact (Hfresh k (or_intror Hk) Hs)].
      * split; [exact H1|]. intros k [Hk|[<-|Hk]]; apply H2; auto; left; [right|left]; auto.
    + destruct (IH tbl cs (c :: seen)) as [H1 H2]; try assumption.
      * intros k r E. right. exact (Hkeys _ _ E).
      * intros k [<-|Hk] Hr; [apply Nat.ltb_ge in En; lia | exact (Hpres k Hk Hr)].
      * intros k Hk [<-|Hs]; [contradiction | exact (Hfresh k (or_intror Hk) Hs)].
      * split; [exact H1|]. intros k [Hk|[<-|Hk]]; apply H2; auto; left; [right|left]; auto.
Qed.

Lemma batch_spec (f : File) :
  chain 1 (batch f) /\
  (forall k, In k (Coils.get_available_coils_dynamic f) -> 0 < file_rows f k ->
             lookup k (batch f) <> None).
Proof.
  pose proof (@batch_loop f (Coils.sorted_by Coils.extract_coil_number
                               (Coils.get_available_coils_dynamic f))
                (CoilsFacts.sorted_by_NoDup _ (CoilsFacts.available_coils_NoDup f))
                [] 1%Z []) as H.
  destruct H as [H1 H2].
  - exact I.
  - reflexivity.
  - intros k r E. discriminate E.
  - intros k [].
  - intros k _ [].
  - split; [exact H1|]. intros k Hk. apply H2. right.
    eapply Permutation_in; [apply CoilsFacts.sorted_by_perm | exact Hk].
Qed.

Lemma calculate_eq (tbl : table) (f : File) :
  calculate_coil_ranges tbl f (Coils.get_available_coils_dynamic f)
  = match Coils.get_available_coils_dynamic f with [] => tbl | _ => batch f end.
Proof.
  unfold calculate_coil_ranges, batch.
  destruct (Coils.get_available_coils_dynamic f); reflexivity.
Qed.

Lemma select_coils_eq (g : Globals) (f : File) :
  select_coils g f
  = match Coils.get_available_coils_dynamic f with
    | [] => ([], "", COIL_BLANK_INFO_RANGES g)
    | first :: rest =>
        (first :: rest,
         (if Coils.mem (selected_coil g) (first :: rest) then selected_coil g else first),
         batch f)
    end.
Proof.
  unfold select_coils. pose proof (calculate_eq (COIL_BLANK_INFO_RANGES g) f) as E.
  destruct (Coils.get_available_coils_dynamic f) as [|first rest]; [reflexivity|].
  rewrite E. reflexivity.
Qed.

(** [handle_h5_file_loading], in terms of the file: the regeneration of
    [blank_info] never fires, since the loader's array has the length of
    the row count. *)
Lemma handle_eq (g : Globals) (file_name : string) (f : File) :
  handle_h5_file_loading g file_name f
  = let '(coils, sel, tbl) := select_coils g f in
    let n := file_rows f sel in
    let tbl1 := snd (load_data_from_h5_dynamic tbl f sel) in
    if file_loads f sel then
      (mkGlobals
         (Some (mkStore (load_entry f sel screwdown) (load_entry f sel bending)
                        (load_entry f sel profile)
                        (if (0 <? n)%nat then fst (generate_coil_blank_info tbl sel n) else [])))
         (Some file_name) (Some n) coils sel 0 tbl1, true)
    else
      (mkGlobals (data_store g) (Some file_name) (data_rows g) coils sel 0 tbl1, false).
Proof.
  unfold handle_h5_file_loading.
  destruct (select_coils g f) as [[coils sel] tbl]. cbv zeta.
  destruct (load_eq tbl f sel) as (Hfst & Hany & Hrows & Htbl).
  destruct (load_data_from_h5_dynamic tbl f sel) as [dd tbl1]. simpl in *.
  rewrite Hany, Hrows. destruct (file_loads f sel) eqn:El; [|reflexivity].
  rewrite (Hfst eq_refl). simpl.
  assert (Hlen : (length (if (0 <? file_rows f sel)%nat
                          then fst (generate_coil_blank_info tbl sel (file_rows f sel))
                          else []) =? file_rows f sel)%nat = true).
  { apply Nat.eqb_eq. destruct (0 <? file_rows f sel)%nat eqn:En.
    - apply generate_length.
    - apply Nat.ltb_ge in En. simpl. lia. }
  rewrite Hlen. reflexivity.
Qed.

Lemma handle_table (g : Globals) (file_name : string) (f : File) :
  COIL_BLANK_INFO_RANGES (fst (handle_h5_file_loading g file_name f))
  = let '(coils, sel, tbl) := select_coils g f in snd (load_data_from_h5_dynamic tbl f sel).
Proof.
  rewrite handle_eq. destruct (select_coils g f) as [[coils sel] tbl]. cbv zeta.
  destruct (file_loads f sel); reflexivity.
Qed.

(** *** The table stays a chain *)

Lemma handle_chain (g : Globals) (file_name : string) (f : File) :
  chain 1 (COIL_BLANK_INFO_RANGES g) ->
  chain 1 (COIL_BLANK_INFO_RANGES (fst (handle_h5_file_loading g file_name f))).
Proof.
  intros H. rewrite handle_table, select_coils_eq.
  destruct (Coils.get_available_coils_dynamic f); apply load_chain;
    [exact H | apply batch_spec].
Qed.

Lemma update_coil_chain (g : Globals) (cv : option string) (path : string)
      (found : option File) :
  chain 1 (COIL_BLANK_INFO_RANGES g) ->
  chain 1 (COIL_BLANK_INFO_RANGES (fst (update_coil_and_reload g cv path found))).
Proof.
  intros H. unfold update_coil_and_reload.
  destruct cv as [c|]; [|exact H].
  destruct (negb (c =? "")%string && negb (c =? selected_coil g)%string); [|exact H].
  cbn [fst current_file_name].
  destruct (current_file_name g) as [name|]; [|exact H].
  destruct found as [f|]; [|exact H].
  destruct (name =? "")%string; [exact H|].
  apply handle_chain. exact H.
Qed.

Lemma step_chain (g : Globals) (e : event) :
  chain 1 (COIL_BLANK_INFO_RANGES g) -> chain 1 (COIL_BLANK_INFO_RANGES (step g e)).
Proof.
  intros H. destruct e as [name f | cv found | coil n]; simpl.
  - apply handle_chain, H.
  - apply update_coil_chain, H.
  - apply generate_chain, H.
Qed.

Lemma run_chain (es : list event) (g : Globals) :
  chain 1 (COIL_BLANK_INFO_RANGES g) -> chain 1 (COIL_BLANK_INFO_RANGES (run es g)).
Proof.
  revert g. induction es as [|e es IH]; intros g H; simpl; [exact H|].
  apply IH, step_chain, H.
Qed.

(** Two loads of files with coils in one session.  Each load empties the
    table and allocates the ranges of its file, so the ranges allocated in
    the session are, in the order of their allocation, those of the table
    after the first load followed by those of the table after the second:
    1-2, 3-3 and then 1-1.  The third does not start after the end of the
    second, and it shares the number 1 with the first. *)
Lemma second_load_restarts_at_1 :
  let t1 := COIL_BLANK_INFO_RANGES
              (run [LoadFile "a.h5" Samples.file_a] initial_globals) in
  let t2 := COIL_BLANK_INFO_RANGES
              (run [LoadFile "a.h5" Samples.file_a; LoadFile "b.h5" Samples.file_b]
                   initial_globals) in
  t1 = [("coil 50", mkRange 1 2 2); ("coil 51", mkRange 3 3 1)] /\
  t2 = [("coil 51", mkRange 1 1 1)] /\
  ~ contiguous (t1 ++ t2) /\
  ~ pairwise_disjoint (t1 ++ t2).
Proof.
  intros t1 t2.
  assert (E1 : t1 = [("coil 50", mkRange 1 2 2); ("coil 51", mkRange 3 3 1)])
    by (vm_compute; reflexivity).
  assert (E2 : t2 = [("coil 51", mkRange 1 1 1)]) by (vm_compute; reflexivity).
  clearbody t1 t2. subst t1 t2.
  split; [reflexivity|]. split; [reflexivity|]. split.
  - intros [_ H].
    specialize (H 1 "coil 51" (mkRange 3 3 1) "coil 51" (mkRange 1 1 1) eq_refl eq_refl).
    discriminate H.
  - intros H.
    apply (H 0 2 "coil 50" (mkRange 1 2 2) "coil 51" (mkRange 1 1 1)
             ltac:(lia) eq_refl eq_refl 1%Z).
    unfold covers; simpl. lia.
Qed.

(** C3 (amended). At every point of a session, that is after any sequence
    of file loads, coil switches and lazy allocations from the start of the
    process, the ranges the table holds are contiguous in allocation order,
    the first one starting at 1 and each other one at the previous end plus
    1, and pairwise disjoint. *)
Theorem ranges_contiguous_and_disjoint (es : list event) :
  contiguous (COIL_BLANK_INFO_RANGES (run es initial_globals)) /\
  pairwise_disjoint (COIL_BLANK_INFO_RANGES (run es initial_globals)).
Proof.
  assert (H : chain 1 (COIL_BLANK_INFO_RANGES (run es initial_globals)))
    by (apply run_chain; exact I).
  split; [apply chain_contiguous | apply chain_disjoint with (s := 1%Z)]; exact H.
Qed.

(** *** What a file load does to existing ranges *)

Lemma handle_table_with_coils (g : Globals) (file_name : string) (f : File) :
  Coils.get_available_coils_dynamic f <> [] ->
  COIL_BLANK_INFO_RANGES (fst (handle_h5_file_loading g file_name f)) = batch f.
Proof.
  intros Hne. rewrite handle_table, select_coils_eq.
  destruct (Coils.get_available_coils_dynamic f) as [|first rest] eqn:Ec; [contradiction|].
  rewrite load_table.
  set (sel := if Coils.mem (selected_coil g) (first :: rest) then selected_coil g else first).
  destruct (0 <? file_rows f sel)%nat eqn:En; [|reflexivity].
  assert (Hin : In sel (Coils.get_available_coils_dynamic f)).
  { rewrite Ec. unfold sel.
    destruct (Coils.mem (selected_coil g) (first :: rest)) eqn:Em.
    - apply CoilsFacts.mem_In. exact Em.
    - left. reflexivity. }
  destruct (batch_spec f) as [_ Hpres].
  apply Nat.ltb_lt in En. specialize (Hpres sel Hin En).
  destruct (lookup sel (batch f)) as [r|] eqn:El; [|contradiction].
  apply (@generate_table_known (batch f) sel (file_rows f sel) r El).
Qed.

Lemma handle_table_without_coils (g : Globals) (file_name : string) (f : File) :
  Coils.get_available_coils_dynamic f = [] ->
  COIL_BLANK_INFO_RANGES (fst (handle_h5_file_loading g file_name f))
  = snd (load_data_from_h5_dynamic (COIL_BLANK_INFO_RANGES g) f "").
Proof.
  intros He. rewrite handle_table, select_coils_eq, He. reflexivity.
Qed.

(** Loading file A (coil 50: rows 1-2, coil 51: row 3) and then file B,
    which holds coil 51 alone, gives coil 51 the range 1-1: the table is
    emptied and recomputed by every load of a file with coils. *)
Lemma reload_renumbers_coil :
  lookup "coil 51"
    (COIL_BLANK_INFO_RANGES (run [LoadFile "a.h5" Samples.file_a] initial_globals))
  = Some (mkRange 3 3 1) /\
  lookup "coil 51"
    (COIL_BLANK_INFO_RANGES
       (run [LoadFile "a.h5" Samples.file_a; LoadFile "b.h5" Samples.file_b] initial_globals))
  = Some (mkRange 1 1 1).
Proof. split; vm_compute; reflexivity. Qed.

(** C2 (amended). Once a coil has a range, lazily allocating a range for
    any coil, loading any coil, and loading a file in which no coil is found
    leave its start, end and count unchanged.  A load of a file with coils
    rebuilds the table from that file alone; so after such a load, loading
    the same contents again or switching the coil within them leaves every
    range unchanged. *)
Theorem coil_range_kept (g : Globals) (c : string) (r : CoilRange) :
  lookup c (COIL_BLANK_INFO_RANGES g) = Some r ->
  (forall coil n,
      lookup c (snd (generate_coil_blank_info (COIL_BLANK_INFO_RANGES g) coil n)) = Some r) /\
  (forall f coil,
      lookup c (snd (load_data_from_h5_dynamic (COIL_BLANK_INFO_RANGES g) f coil)) = Some r) /\
  (forall name f,
      Coils.get_available_coils_dynamic f = [] ->
      lookup c (COIL_BLANK_INFO_RANGES (fst (handle_h5_file_loading g name f))) = Some r) /\
  (forall g0 name0 f,
      Coils.get_available_coils_dynamic f <> [] ->
      g = fst (handle_h5_file_loading g0 name0 f) ->
      (forall name,
          lookup c (COIL_BLANK_INFO_RANGES (fst (handle_h5_file_loading g name f))) = Some r) /\
      (forall coil_value path,
          lookup c (COIL_BLANK_INFO_RANGES
                      (fst (update_coil_and_reload g coil_value path (Some f)))) = Some r)).
Proof.
  intros H. repeat split.
  - intros coil n. apply generate_keeps. exact H.
  - intros f coil. apply load_keeps. exact H.
  - intros name f He. rewrite handle_table_without_coils by assumption.
    apply load_keeps. exact H.
  - intros name. rewrite handle_table_with_coils by assumption.
    subst g. rewrite handle_table_with_coils in H by assumption. exact H.
  - intros cv path.
    assert (Hb : COIL_BLANK_INFO_RANGES g = batch f)
      by (subst g; apply handle_table_with_coils; assumption).
    unfold update_coil_and_reload.
    destruct cv as [c'|]; [|exact H].
    destruct (negb (c' =? "")%string && negb (c' =? selected_coil g)%string); [|exact H].
    cbn [fst current_file_name].
    destruct (current_file_name g) as [name|]; [|exact H].
    destruct (name =? "")%string; [exact H|].
    rewrite handle_table_with_coils by assumption. rewrite <- Hb. exact H.
Qed.

(** Coil 51 after loading file A: switching to coil 51 keeps its range 3-3. *)
Lemma coil_range_kept_witness :
  lookup "coil 51"
    (COIL_BLANK_INFO_RANGES
       (fst (update_coil_and_reload
               (fst (handle_h5_file_loading initial_globals "a.h5" Samples.file_a))
               (Some "coil 51") "/visualize" (Some Samples.file_a))))
  = Some (mkRange 3 3 1).
Proof.
  destruct (@coil_range_kept
              (fst (handle_h5_file_loading initial_globals "a.h5" Samples.file_a))
              "coil 51" (mkRange 3 3 1)) as (_ & _ & _ & H).
  - vm_compute. reflexivity.
  - destruct (H initial_globals "a.h5" Samples.file_a) as [_ H2].
    + vm_compute. discriminate.
    + reflexivity.
    + apply H2.
Defined.

(** *** The data store *)

Lemma handle_numbered (g : Globals) (file_name : string) (f : File) :
  store_numbered g -> store_numbered (fst (handle_h5_file_loading g file_name f)).
Proof.
  intros H. rewrite handle_eq.
  destruct (select_coils g f) as [[coils sel] tbl]. cbv zeta.
  destruct (file_loads f sel); [|exact H].
  intros ds [= <-]. unfold effective_rows. cbn [ds_screwdown ds_bending ds_profile ds_blank_info].
  fold (file_rows f sel).
  destruct (0 <? file_rows f sel)%nat eqn:En.
  - apply generate_is_arange.
  - apply Nat.ltb_ge in En. exists 1%Z.
    replace (file_rows f sel) with 0 by lia. reflexivity.
Qed.

Lemma step_numbered (g : Globals) (e : event) :
  store_numbered g -> store_numbered (step g e).
Proof.
  intros H. destruct e as [name f | cv found | coil n]; simpl.
  - apply handle_numbered, H.
  - unfold update_coil_and_reload.
    destruct cv as [c|]; [|exact H].
    destruct (negb (c =? "")%string && negb (c =? selected_coil g)%string); [|exact H].
    cbn [fst current_file_name].
    destruct (current_file_name g) as [name|]; [|exact H].
    destruct found as [f|]; [|exact H].
    destruct (name =? "")%string; [exact H|].
    apply handle_numbered. exact H.
  - exact H.
Qed.

Lemma run_numbered (es : list event) (g : Globals) :
  store_numbered g -> store_numbered (run es g).
Proof.
  revert g. induction es as [|e es IH]; intros g H; simpl; [exact H|].
  apply IH, step_numbered, H.
Qed.

Lemma initial_numbered : store_numbered initial_globals.
Proof. intros ds E. discriminate E. Qed.

(** C4. In every data store a session produces, looking up the value at a
    valid row index [i] of the blank-info array, taking the first match as
    the jump handler does, gives [i]. *)
Theorem blank_info_round_trip (es : list event) (ds : DataStore) (i : nat) :
  data_store (run es initial_globals) = Some ds ->
  i < length (ds_blank_info ds) ->
  resolve_blank_info (ds_blank_info ds) (nth i (ds_blank_info ds) 0%Z) = Some i.
Proof.
  intros Hds Hi.
  destruct (run_numbered es initial_numbered Hds) as [a Ha].
  rewrite Ha in Hi |- *. rewrite arange_length in Hi.
  rewrite arange_nth by assumption. apply resolve_arange. exact Hi.
Qed.

(** Coil 51 of file A (one row, numbered 3): the number 3 leads back to
    row 0. *)
Lemma blank_info_round_trip_witness :
  exists ds,
    data_store (run [LoadFile "a.h5" Samples.file_a; SwitchCoil (Some "coil 51") (Some Samples.file_a)]
                    initial_globals) = Some ds /\
    ds_blank_info ds = [3%Z] /\
    resolve_blank_info (ds_blank_info ds) (nth 0 (ds_blank_info ds) 0%Z) = Some 0.
Proof.
  eexists. split; [vm_compute; reflexivity|]. split; [reflexivity|].
  apply (@blank_info_round_trip
           [LoadFile "a.h5" Samples.file_a; SwitchCoil (Some "coil 51") (Some Samples.file_a)]).
  - vm_compute. reflexivity.
  - simpl. lia.
Defined.

(** In file C coil 50 has two rows of screwdown and one row of bending data:
    the blank-info array has two entries, and on the bending tab [max-row]
    is 1. *)
Lemma max_row_differs_from_blank_info_length :
  exists ds,
    data_store (run [LoadFile "c.h5" Samples.file_c] initial_globals) = Some ds /\
    length (ds_blank_info ds) = 2 /\
    effective_rows ds = 2 /\
    update_max_row (Some ds) tab_bending = Ok 1%Z.
Proof.
  eexists. split; [vm_compute; reflexivity|]. repeat split.
Qed.

(** C9 (amended). In every data store a session produces, the length of
    the blank-info array is the effective row count, the largest row count
    among the loaded data types.  The [max-row] value of a tab is the row
    count of that tab's own data type: it is at most the length of the
    blank-info array, and equal to it when no loaded data type has more
    rows than the tab's. *)
Theorem blank_info_length_and_max_row (es : list event) (ds : DataStore) :
  data_store (run es initial_globals) = Some ds ->
  length (ds_blank_info ds) = effective_rows ds /\
  forall t m,
    update_max_row (Some ds) t = Ok m ->
    (exists s, tab_series ds t = Some s /\ m = Z.of_nat (shape0 (actual_x s))) /\
    (m <= Z.of_nat (length (ds_blank_info ds)))%Z /\
    ((forall t' s', tab_series ds t' = Some s' -> (Z.of_nat (shape0 (actual_x s')) <= m)%Z) ->
     m = Z.of_nat (length (ds_blank_info ds))).
Proof.
  intros Hds.
  destruct (run_numbered es initial_numbered Hds) as [a Ha].
  assert (Hlen : length (ds_blank_info ds) = effective_rows ds)
    by (rewrite Ha; apply arange_length).
  split; [exact Hlen|].
  intros t m Hm. rewrite Hlen.
  unfold update_max_row in Hm. fold (tab_series ds t) in Hm.
  destruct (tab_series ds t) as [s|] eqn:Et; [|discriminate].
  injection Hm as <-.
  assert (Hle : shape0 (actual_x s) <= effective_rows ds).
  { unfold effective_rows, count_rows.
    destruct t; simpl in Et; rewrite Et; simpl; lia. }
  split; [exists s; split; reflexivity|]. split; [lia|].
  intros Hall.
  assert (Hge : effective_rows ds <= shape0 (actual_x s)).
  { unfold effective_rows, count_rows, rows_of.
    pose proof (Hall tab_screwdown) as H1. pose proof (Hall tab_bending) as H2.
    pose proof (Hall tab_profile) as H3. cbn [tab_series] in H1, H2, H3.
    destruct (ds_screwdown ds) as [s1|]; destruct (ds_bending ds) as [s2|];
      destruct (ds_profile ds) as [s3|];
      repeat match goal with
             | K : forall s', Some ?x = Some s' -> _ |- _ => specialize (K _ eq_refl)
             end; lia. }
  lia.
Qed.

(** File C: two blank-info numbers, and [max-row] 2 on the screwdown tab. *)
Lemma blank_info_length_and_max_row_witness :
  exists ds,
    data_store (run [LoadFile "c.h5" Samples.file_c] initial_globals) = Some ds /\
    length (ds_blank_info ds) = effective_rows ds /\
    (2 <= Z.of_nat (length (ds_blank_info ds)))%Z.
Proof.
  eexists. split; [vm_compute; reflexivity|].
  match goal with |- length (ds_blank_info ?d) = _ /\ _ =>
    destruct (@blank_info_length_and_max_row [LoadFile "c.h5" Samples.file_c] d) as [H1 H2]
  end.
  - vm_compute. reflexivity.
  - split; [exact H1|].
    match goal with |- (_ <= Z.of_nat (length (ds_blank_info ?d)))%Z =>
      destruct (H2 tab_screwdown 2%Z) as (_ & H3 & _); [reflexivity | exact H3]
    end.
Defined.

End SessionFacts.

(** ** Coil switches and file loads against the navigation state *)

Module CoilSwitchFacts.

Import Ranges Loader Session Navigation SessionFacts.

(** A file load leaves the global [selected_row] at 0. *)
Lemma handle_selected_row (g : Globals) (file_name : string) (f : File) :
  selected_row (fst (handle_h5_file_loading g file_name f)) = 0%Z.
Proof.
  rewrite handle_eq. destruct (select_coils g f) as [[coils sel] tbl]. cbv zeta.
  destruct (file_loads f sel); reflexivity.
Qed.

(** A switch to another coil leaves the global [selected_row] at 0 and
    returns the pathname it was given. *)
Lemma switch_selected_row (g : Globals) (c pathname : string) (found : option File) :
  c <> "" -> c <> selected_coil g ->
  selected_row (fst (update_coil_and_reload g (Some c) pathname found)) = 0%Z /\
  snd (update_coil_and_reload g (Some c) pathname found) = Some pathname.
Proof.
  intros H1 H2. unfold update_coil_and_reload.
  destruct (String.eqb_spec c ""); [contradiction|].
  destruct (String.eqb_spec c (selected_coil g)); [contradiction|].
  cbn [negb andb fst snd current_file_name]. split; [|reflexivity].
  destruct (current_file_name g) as [name|]; [|reflexivity].
  destruct found as [f|]; [|reflexivity].
  destruct (name =? "")%string; [reflexivity|].
  apply handle_selected_row.
Qed.


End CoilSwitchFacts.

(** ** Jump requests while [max-row] is 0 *)

Module JumpGuardFacts.

Import Ranges Loader Session Navigation.

(** File D is loaded: the blank-info numbers are 1, 2, 3 (three rows of
    bending data) and on the screwdown tab, which has no rows, [max-row] is
    0.  The guard [if max_row_int <= 0: return "0"] comes before every
    branch: a jump request for 99, which does not occur, selects row 0. *)
Lemma jump_not_found_selects_row_0 :
  exists ds,
    data_store (run [LoadFile "d.h5" Samples.file_d] initial_globals) = Some ds /\
    ds_blank_info ds = [1; 2; 3]%Z /\
    ~ In 99%Z (ds_blank_info ds) /\
    update_max_row (Some ds) tab_screwdown = Ok 0%Z /\
    (let out cur := handle_row_selection (Some JumpToRowButton) (Some (ds_blank_info ds))
                                         cur 0 "false" (JumpInt 99) in
     out None = Update 0 /\ store_after None (out None) <> None /\
     out (Some 2%Z) = Update 0 /\ store_after (Some 2%Z) (out (Some 2%Z)) <> Some 2%Z).
Proof.
  eexists. split; [vm_compute; reflexivity|].
  cbv zeta. cbn [ds_blank_info]. repeat split; try discriminate.
  intros [H|[H|[H|[]]]]; discriminate.
Qed.

(** File E is loaded: its only data type has no rows, so the blank-info
    array is empty and [max-row] is 0.  The fallback branch is not reached:
    a jump request for 5, out of range, selects row 0. *)
Lemma fallback_jump_out_of_range_selects_row_0 :
  exists ds,
    data_store (run [LoadFile "e.h5" Samples.file_e] initial_globals) = Some ds /\
    ds_blank_info ds = [] /\
    update_max_row (Some ds) tab_screwdown = Ok 0%Z /\
    ~ (0 <= 5 - 1 < 0)%Z /\
    (let out := handle_row_selection (Some JumpToRowButton) (Some (ds_blank_info ds))
                                     None 0 "false" (JumpInt 5) in
     out = Update 0 /\ store_after None out <> None).
Proof.
  eexists. split; [vm_compute; reflexivity|].
  cbv zeta. cbn [ds_blank_info]. repeat split; try discriminate. lia.
Qed.

End JumpGuardFacts.

(** ** More on row navigation *)

Module NavigationMore.

Import Ranges RangesFacts Navigation NavigationFacts Paging.

Lemma commit_row_bounds (c m : Z) (chosen : option Z) :
  match commit_row c m chosen with
  | Update r => (0 <= r <= Z.max 0 (m - 1))%Z
  | NoUpdate => True
  end.
Proof.
  unfold commit_row. destruct chosen as [x|]; [|exact I]. cbv zeta.
  destruct (negb _); [lia | exact I].
Qed.

(** Whatever fired the callback and whatever the stores hold,
    [handle_row_selection] writes no row below 0 and none above
    [max_row - 1] (row 0 when [max_row] is not positive). *)
Theorem handle_row_selection_writes_in_bounds
        (triggered : option trigger) (blank_info : option (list Z)) (cur : option Z)
        (max_row : Z) (auto_advance_state : string) (jump_value : jump_input) :
  match handle_row_selection triggered blank_info cur max_row auto_advance_state jump_value with
  | Update r => (0 <= r <= Z.max 0 (max_row - 1))%Z
  | NoUpdate => True
  end.
Proof.
  unfold handle_row_selection. destruct triggered as [t|]; [|exact I].
  destruct (Z.leb_spec max_row 0); [lia|].
  apply commit_row_bounds.
Qed.

Lemma tick_step (blank_info : option (list Z)) (row max_row : Z) (jump_value : jump_input) :
  (0 <= row < max_row)%Z ->
  store_after (Some row)
    (handle_row_selection (Some AutoAdvanceInterval) blank_info (Some row) max_row "true"
                          jump_value)
  = Some ((row + 1) mod max_row)%Z.
Proof.
  intros Hrow. unfold handle_row_selection.
  replace (max_row <=? 0)%Z with false by (symmetry; apply Z.leb_gt; lia).
  simpl String.eqb. cbv iota.
  assert (Hint : current_row_int (Some row) = row).
  { simpl. destruct (Z.eqb_spec row (-1)); [lia | reflexivity]. }
  rewrite Hint at 2. apply chosen_row_stored.
  - apply row_is_set_nonneg. lia.
  - apply Z.mod_pos_bound. lia.
Qed.

(** With auto-advance on, [n] ticks from a row in range lead to row
    [(row + n) mod max_row]; after [max_row] ticks the row is the one the
    walk started from. *)
Theorem auto_advance_cycles (n : nat) (blank_info : option (list Z)) (row max_row : Z)
        (jump_value : jump_input) :
  (0 <= row < max_row)%Z ->
  ticks n blank_info max_row "true" jump_value (Some row)
  = Some ((row + Z.of_nat n) mod max_row)%Z /\
  ticks (Z.to_nat max_row) blank_info max_row "true" jump_value (Some row) = Some row.
Proof.
  intros Hrow.
  assert (Hn : forall k r, (0 <= r < max_row)%Z ->
                 ticks k blank_info max_row "true" jump_value (Some r)
                 = Some ((r + Z.of_nat k) mod max_row)%Z).
  { induction k as [|k IH]; intros r Hr.
    - simpl. rewrite Z.add_0_r, Z.mod_small by lia. reflexivity.
    - cbn [ticks]. rewrite tick_step by assumption.
      rewrite IH by (apply Z.mod_pos_bound; lia).
      f_equal. rewrite Zplus_mod_idemp_l. f_equal. lia. }
  split; [apply Hn; exact Hrow|].
  rewrite Hn by exact Hrow. rewrite Z2Nat.id by lia.
  rewrite <- (Z.mul_1_l max_row) at 1. rewrite Z_mod_plus_full.
  rewrite Z.mod_small by lia. reflexivity.
Qed.

(** Three ticks from row 3 of four rows lead to row 2. *)
Lemma auto_advance_cycles_witness :
  ticks 3 None 4 "true" JumpNone (Some 3%Z) = Some 2%Z.
Proof.
  destruct (@auto_advance_cycles 3 None 3 4 JumpNone) as [H _]; [lia|]. exact H.
Defined.

Lemma prev_stored (blank_info : option (list Z)) (row max_row : Z) (aa : string)
      (jv : jump_input) :
  (0 <= row < max_row)%Z ->
  store_after (Some row)
    (handle_row_selection (Some JumpPreviousButton) blank_info (Some row) max_row aa jv)
  = Some (Z.max 0 (row - 1)).
Proof.
  intros Hrow. unfold handle_row_selection.
  replace (max_row <=? 0)%Z with false by (symmetry; apply Z.leb_gt; lia).
  assert (Hint : current_row_int (Some row) = row).
  { simpl. destruct (Z.eqb_spec row (-1)); [lia | reflexivity]. }
  rewrite Hint at 2. apply chosen_row_stored; [apply row_is_set_nonneg; lia | lia].
Qed.

Lemma next_stored (blank_info : option (list Z)) (row max_row : Z) (aa : string)
      (jv : jump_input) :
  (0 <= row < max_row)%Z ->
  store_after (Some row)
    (handle_row_selection (Some JumpNextButton) blank_info (Some row) max_row aa jv)
  = Some (Z.min (max_row - 1) (row + 1)).
Proof.
  intros Hrow. unfold handle_row_selection.
  replace (max_row <=? 0)%Z with false by (symmetry; apply Z.leb_gt; lia).
  assert (Hint : current_row_int (Some row) = row).
  { simpl. destruct (Z.eqb_spec row (-1)); [lia | reflexivity]. }
  rewrite Hint at 2. apply chosen_row_stored; [apply row_is_set_nonneg; lia | lia].
Qed.

(** Previous undoes Next except on the last row, and Next undoes Previous
    except on row 0; at these two ends the buttons report no change. *)
Theorem previous_and_next_are_inverse (blank_info : option (list Z)) (row max_row : Z)
        (aa : string) (jv : jump_input) :
  (0 <= row < max_row)%Z ->
  let press t cur := store_after cur (handle_row_selection (Some t) blank_info cur max_row aa jv) in
  ((row < max_row - 1)%Z ->
   press JumpPreviousButton (press JumpNextButton (Some row)) = Some row) /\
  ((0 < row)%Z ->
   press JumpNextButton (press JumpPreviousButton (Some row)) = Some row) /\
  (row = (max_row - 1)%Z ->
   handle_row_selection (Some JumpNextButton) blank_info (Some row) max_row aa jv = NoUpdate) /\
  (row = 0%Z ->
   handle_row_selection (Some JumpPreviousButton) blank_info (Some row) max_row aa jv
   = NoUpdate).
Proof.
  intros Hrow press. unfold press. repeat split.
  - intros H. rewrite next_stored by assumption. rewrite prev_stored by lia. f_equal. lia.
  - intros H. rewrite prev_stored by assumption. rewrite next_stored by lia. f_equal. lia.
  - intros ->. unfold handle_row_selection.
    replace (max_row <=? 0)%Z with false by (symmetry; apply Z.leb_gt; lia).
    simpl. destruct (Z.eqb_spec (max_row - 1) (-1)); [lia|].
    unfold commit_row. cbv zeta.
    replace (Z.max 0 (Z.min (Z.min (max_row - 1) (max_row - 1 + 1)) (max_row - 1)))
      with (max_row - 1)%Z by lia.
    rewrite Z.eqb_refl. reflexivity.
  - intros ->. unfold handle_row_selection.
    replace (max_row <=? 0)%Z with false by (symmetry; apply Z.leb_gt; lia).
    simpl. unfold commit_row. cbv zeta.
    replace (Z.max 0 (Z.min (Z.max 0 (-1)) (max_row - 1))) with 0%Z by lia. reflexivity.
Qed.

(** Row 2 of four rows: Next and then Previous lead back to row 2. *)
Lemma previous_and_next_are_inverse_witness :
  store_after
    (store_after (Some 2%Z)
       (handle_row_selection (Some JumpNextButton) None (Some 2%Z) 4 "false" JumpNone))
    (handle_row_selection (Some JumpPreviousButton) None
       (store_after (Some 2%Z)
          (handle_row_selection (Some JumpNextButton) None (Some 2%Z) 4 "false" JumpNone))
       4 "false" JumpNone)
  = Some 2%Z.
Proof.
  destruct (@previous_and_next_are_inverse None 2 4 "false" JumpNone) as [H _]; [lia|].
  apply H. lia.
Defined.

(** With the auto-advance box unchecked the state is ["false"] and the
    interval is disabled; a tick that still arrives returns [no_update] when
    [max_row] is positive, and is answered with row 0, like every trigger,
    when [max_row] is not positive.  With the box checked the state is
    ["true"] and the interval runs exactly when a row is selected. *)
Theorem auto_advance_follows_checkbox (checkbox_value : option (list string))
        (blank_info : option (list Z)) (row : option Z) (max_row : Z)
        (jump_value : jump_input) :
  let state := update_auto_advance_state checkbox_value in
  let checked := match checkbox_value with
                 | Some values => Coils.mem "auto_advance" values
                 | None => false
                 end in
  (checked = false ->
   state = "false" /\
   control_auto_advance_interval state row = true /\
   handle_row_selection (Some AutoAdvanceInterval) blank_info row max_row state jump_value
   = if (0 <? max_row)%Z then NoUpdate else Update 0) /\
  (checked = true ->
   state = "true" /\ control_auto_advance_interval state row = negb (row_is_set row)).
Proof.
  cbv zeta. unfold update_auto_advance_state, control_auto_advance_interval.
  split; intros ->; simpl.
  - split; [reflexivity|]. split; [reflexivity|]. unfold handle_row_selection.
    destruct (Z.ltb_spec 0 max_row) as [H|H].
    + replace (max_row <=? 0)%Z with false by (symmetry; apply Z.leb_gt; lia). reflexivity.
    + replace (max_row <=? 0)%Z with true by (symmetry; apply Z.leb_le; lia). reflexivity.
  - split; reflexivity.
Qed.

(** The box unchecked: a tick with four rows changes nothing, a tick with no
    rows writes row 0. *)
Lemma auto_advance_follows_checkbox_witness :
  handle_row_selection (Some AutoAdvanceInterval) None (Some 2%Z) 4
                       (update_auto_advance_state (Some [])) JumpNone = NoUpdate /\
  handle_row_selection (Some AutoAdvanceInterval) None (Some 2%Z) 0
                       (update_auto_advance_state (Some [])) JumpNone = Update 0.
Proof.
  split.
  - destruct (@auto_advance_follows_checkbox (Some []) None (Some 2%Z) 4 JumpNone) as [H _].
    destruct H as (_ & _ & H); [reflexivity | exact H].
  - destruct (@auto_advance_follows_checkbox (Some []) None (Some 2%Z) 0 JumpNone) as [H _].
    destruct H as (_ & _ & H); [reflexivity | exact H].
Defined.

(** [handle_fullscreen_navigation] has no guard for an empty table: with
    [max_row] not positive, Next from a selected row writes [max_row - 1],
    a negative row; Previous never writes a row below 0. *)
Theorem fullscreen_next_without_rows (row max_row : Z) (prev_clicks next_clicks : nat) :
  (0 <= row)%Z ->
  ((max_row <= 0)%Z ->
   handle_fullscreen_navigation (Some FullscreenNextRow) (Some prev_clicks)
                                (Some (S next_clicks)) (Some row) max_row
   = Update (max_row - 1)) /\
  (exists r, handle_fullscreen_navigation (Some FullscreenPrevRow) (Some (S prev_clicks))
                                          (Some next_clicks) (Some row) max_row
             = Update r /\ (0 <= r <= row)%Z).
Proof.
  intros Hrow. unfold handle_fullscreen_navigation.
  destruct (Z.eqb_spec row (-1)); [lia|]. cbn [clicks_truthy]. split.
  - intros H. f_equal. lia.
  - eexists. split; [reflexivity | lia].
Qed.

(** No rows and row 0 selected: Next writes -1. *)
Lemma fullscreen_next_without_rows_witness :
  handle_fullscreen_navigation (Some FullscreenNextRow) (Some 0) (Some 1) (Some 0%Z) 0
  = Update (-1).
Proof.
  destruct (@fullscreen_next_without_rows 0 0 0 0) as [H _]; [lia|].
  apply H. lia.
Defined.

End NavigationMore.

(** ** Pages and labels *)

Module PagingFacts.

Import Ranges RangesFacts Loader Session Navigation NavigationFacts Paging.

Lemma py_range_In (a b z : Z) : In z (py_range a b) <-> (a <= z < b)%Z.
Proof.
  unfold py_range. rewrite in_map_iff. split.
  - intros (i & <- & Hi). apply in_seq in Hi. lia.
  - intros H. exists (Z.to_nat (z - a)). split; [lia|]. apply in_seq. lia.
Qed.

Lemma py_range_length (a b : Z) : length (py_range a b) = Z.to_nat (b - a).
Proof. unfold py_range. rewrite length_map, length_seq. reflexivity. Qed.

Lemma max_pages_pos (max_row : Z) : (1 <= max_pages max_row)%Z.
Proof.
  unfold max_pages. destruct (Z.ltb_spec 0 max_row); [|lia].
  assert (5 * 1 <= max_row + 4)%Z by lia.
  apply Z.div_le_lower_bound; lia.
Qed.

Lemma page_for_row_bounds (row max_row : Z) :
  (0 <= row < max_row)%Z -> (1 <= page_for_row row <= max_pages max_row)%Z.
Proof.
  intros H. unfold page_for_row, max_pages.
  replace (0 <? max_row)%Z with true by (symmetry; apply Z.ltb_lt; lia).
  assert (0 <= row / 5)%Z by (apply Z.div_pos; lia).
  split; [lia|].
  assert (row / 5 + 1 = (row + 5) / 5)%Z as ->.
  { replace (row + 5)%Z with (row + 1 * 5)%Z by lia. rewrite Z.div_add by lia. reflexivity. }
  apply Z.div_le_mono; lia.
Qed.

(** When the row store changed to a row in range, the page becomes the one
    that holds the row: it lies between 1 and the number of pages, and when
    the three data types are loaded with more rows than this, the table of
    that page lists the row among its at most five rows. *)
Theorem selected_row_is_on_its_page (row max_row : Z) (prev_clicks next_clicks : option nat)
        (current_page : option Z) (d : DataStore) (sd bd pf : DataSeries) :
  (0 <= row < max_row)%Z ->
  ds_screwdown d = Some sd -> ds_bending d = Some bd -> ds_profile d = Some pf ->
  (row < Z.of_nat (shape0 (actual_x sd)))%Z ->
  (row < Z.of_nat (shape0 (actual_x bd)))%Z ->
  (row < Z.of_nat (shape0 (actual_x pf)))%Z ->
  let page := update_page_navigation (Some SelectedRowChanged) prev_clicks next_clicks
                                     (Some row) current_page max_row in
  page = (row / 5 + 1)%Z /\
  (1 <= page <= max_pages max_row)%Z /\
  exists rows, table_rows (Some d) (Some page) = Some rows /\
               In row rows /\ length rows <= 5.
Proof.
  intros Hrow Hsd Hbd Hpf H1 H2 H3 page.
  assert (Hpage : page = page_for_row row).
  { unfold page, update_page_navigation. rewrite row_is_set_nonneg by lia. reflexivity. }
  pose proof (page_for_row_bounds Hrow) as Hb. rewrite <- Hpage in Hb.
  split; [exact Hpage|]. split; [exact Hb|].
  unfold table_rows. rewrite Hsd, Hbd, Hpf. cbv zeta.
  eexists. split; [reflexivity|].
  assert (Hcp : current_page_int (Some page) = page).
  { simpl. destruct (Z.eqb_spec page 0); [lia | reflexivity]. }
  rewrite Hcp. rewrite Hpage. unfold page_for_row.
  pose proof (Z.div_mod row 5 ltac:(lia)) as Hdm.
  pose proof (Z.mod_pos_bound row 5 ltac:(lia)) as Hm.
  split.
  - apply py_range_In. lia.
  - rewrite py_range_length. lia.
Qed.

(** Row 7 of ten rows is on page 2, whose table lists rows 5 to 9. *)
Lemma selected_row_is_on_its_page_witness :
  let s := mkSeries (repeat [] 10) [] [] [] [] in
  let d := mkStore (Some s) (Some s) (Some s) [] in
  update_page_navigation (Some SelectedRowChanged) None None (Some 7%Z) (Some 1%Z) 10 = 2%Z /\
  exists rows, table_rows (Some d) (Some 2%Z) = Some rows /\ In 7%Z rows.
Proof.
  cbv zeta.
  destruct (@selected_row_is_on_its_page 7 10 None None (Some 1%Z)
              (mkStore (Some (mkSeries (repeat [] 10) [] [] [] []))
                       (Some (mkSeries (repeat [] 10) [] [] [] []))
                       (Some (mkSeries (repeat [] 10) [] [] [] [])) [])
              (mkSeries (repeat [] 10) [] [] [] [])
              (mkSeries (repeat [] 10) [] [] [] [])
              (mkSeries (repeat [] 10) [] [] [] []))
    as (H1 & _ & rows & H2 & H3 & _);
    try reflexivity; try (simpl; lia).
  split; [exact H1|]. exists rows. split; [exact H2 | exact H3].
Defined.

(** The page stays between 1 and the number of pages: from a page in that
    interval, and with a row store that is unset or holds a row below
    [max_row], every firing of [update_page_navigation] returns a page in
    the interval. *)
Theorem page_stays_in_range (triggered : option page_trigger)
        (prev_clicks next_clicks : option nat) (selected_row current_page : option Z)
        (max_row : Z) :
  (1 <= current_page_int current_page <= max_pages max_row)%Z ->
  (forall r, selected_row = Some r -> r = (-1)%Z \/ (0 <= r < max_row)%Z) ->
  (1 <= update_page_navigation triggered prev_clicks next_clicks selected_row
                               current_page max_row
     <= max_pages max_row)%Z.
Proof.
  intros Hcp Hsel. pose proof (max_pages_pos max_row) as Hmp.
  unfold update_page_navigation.
  destruct triggered as [[| | |]|]; try lia.
  - destruct selected_row as [r|]; cbn [row_is_set]; [|exact Hcp].
    destruct (Z.eqb_spec r (-1)); cbn [negb]; [exact Hcp|].
    apply page_for_row_bounds. destruct (Hsel r eq_refl); [contradiction | assumption].
  - destruct (clicks_truthy prev_clicks); lia.
  - destruct (clicks_truthy next_clicks); lia.
Qed.

(** On page 2 of 3 (eleven rows) the next-page button leads to page 3. *)
Lemma page_stays_in_range_witness :
  (1 <= update_page_navigation (Some NextButton) None (Some 1%nat) None (Some 2%Z) 11 <= 3)%Z.
Proof.
  apply (@page_stays_in_range (Some NextButton) None (Some 1%nat) None (Some 2%Z) 11).
  - vm_compute. split; discriminate.
  - intros r H. discriminate H.
Defined.

(** After a jump that succeeds, the label of the current row shows the
    number that was asked for: the blank-info number found in the array, or,
    without an array, the one-based index. *)
Theorem label_shows_jump_target (blank_info : option (list Z)) (n max_row : Z)
        (cur : option Z) (auto_advance_state : string) :
  (0 < max_row)%Z ->
  row_is_set cur = true ->
  (match blank_info with
   | Some ((_ :: _) as data) =>
       exists i, resolve_blank_info data n = Some i /\ (Z.of_nat i < max_row)%Z
   | _ => (0 <= n - 1 < max_row)%Z
   end) ->
  update_current_row_display
    blank_info
    (store_after cur (handle_row_selection (Some JumpToRowButton) blank_info cur max_row
                                           auto_advance_state (JumpInt n)))
  = n.
Proof.
  intros Hmax Hset Hfound.
  assert (Hguard : (max_row <=? 0)%Z = false) by (apply Z.leb_gt; lia).
  assert (Hfb : (0 <= n - 1 < max_row)%Z ->
                ((0 <=? n - 1)%Z && (n - 1 <? max_row)%Z) = true).
  { intros H. apply andb_true_intro. split; [apply Z.leb_le | apply Z.ltb_lt]; lia. }
  destruct blank_info as [[|v rest]|].
  - unfold handle_row_selection, jump_target. rewrite Hguard, (Hfb Hfound).
    rewrite chosen_row_stored by assumption.
    unfold update_current_row_display. simpl length.
    destruct (Z.eqb_spec (n - 1) (-1)); [lia|].
    replace (n - 1 <? Z.of_nat 0)%Z with false by (symmetry; apply Z.ltb_ge; lia).
    cbn [andb]. lia.
  - destruct Hfound as (i & Hres & Hi).
    unfold handle_row_selection, jump_target. rewrite Hguard, Hres.
    replace ((0 <=? Z.of_nat i)%Z && (Z.of_nat i <? max_row)%Z) with true
      by (symmetry; apply andb_true_intro; split; [apply Z.leb_le | apply Z.ltb_lt]; lia).
    rewrite chosen_row_stored by (try assumption; lia).
    destruct (resolve_in_range _ _ Hres) as [Hlen Hnth].
    unfold update_current_row_display.
    destruct (Z.eqb_spec (Z.of_nat i) (-1)); [lia|].
    replace (Z.of_nat i <? Z.of_nat (length (v :: rest)))%Z with true
      by (symmetry; apply Z.ltb_lt; lia).
    replace (0 <=? Z.of_nat i)%Z with true by (symmetry; apply Z.leb_le; lia).
    cbn [andb]. rewrite Nat2Z.id. exact Hnth.
  - unfold handle_row_selection, jump_target. rewrite Hguard, (Hfb Hfound).
    rewrite chosen_row_stored by assumption.
    unfold update_current_row_display.
    destruct (Z.eqb_spec (n - 1) (-1)); [lia|]. lia.
Qed.

(** Coil51 of the specification's example: after the jump to 15 the label
    shows 15. *)
Lemma label_shows_jump_target_witness :
  update_current_row_display
    (Some (arange 13 21))
    (store_after (Some 5%Z)
       (handle_row_selection (Some JumpToRowButton) (Some (arange 13 21)) (Some 5%Z) 8
                             "false" (JumpInt 15)))
  = 15%Z.
Proof.
  apply (@label_shows_jump_target (Some (arange 13 21)) 15 8 (Some 5%Z) "false").
  - lia.
  - reflexivity.
  - exists 2. split; [reflexivity | lia].
Defined.

End PagingFacts.

(** ** Finding the files *)

Module FilesFacts.

Import PyStr Files Expected.

(** *** Sorting *)

Lemma insert_by_key_perm {A K : Type} (le : K -> K -> bool) (key : A -> K) (x : A) (l : list A) :
  Permutation (x :: l) (insert_by le key x l).
Proof.
  induction l as [|y l IH]; simpl; [reflexivity|].
  destruct (le (key x) (key y)); [reflexivity|].
  rewrite perm_swap. constructor. exact IH.
Qed.

Lemma sort_by_key_perm {A K : Type} (le : K -> K -> bool) (key : A -> K) (l : list A) :
  Permutation l (sort_by le key l).
Proof.
  induction l as [|x l IH]; simpl; [reflexivity|].
  rewrite <- insert_by_key_perm. constructor. exact IH.
Qed.

Lemma insert_by_ordered {A K : Type} (le : K -> K -> bool) (key : A -> K) :
  (forall a b, le a b = true \/ le b a = true) ->
  forall x l, ordered (fun a b => le (key a) (key b) = true) l ->
              ordered (fun a b => le (key a) (key b) = true) (insert_by le key x l).
Proof.
  intros Htot x l. induction l as [|y l IH]; intros H; [exact I|].
  cbn [insert_by]. destruct (le (key x) (key y)) eqn:E.
  - split; assumption.
  - assert (Hyx : le (key y) (key x) = true) by (destruct (Htot (key x) (key y)); congruence).
    destruct l as [|z l].
    + simpl. split; [exact Hyx | exact I].
    + destruct H as [Hyz Hrest]. specialize (IH Hrest).
      cbn [insert_by] in IH |- *.
      destruct (le (key x) (key z)); split; assumption.
Qed.

Lemma sort_by_ordered {A K : Type} (le : K -> K -> bool) (key : A -> K) (l : list A) :
  (forall a b, le a b = true \/ le b a = true) ->
  ordered (fun a b => le (key a) (key b) = true) (sort_by le key l).
Proof.
  intros Htot. induction l as [|x l IH]; [exact I|].
  simpl. apply insert_by_ordered; assumption.
Qed.

(** *** The search *)

Lemma validate_true (c : Candidate) :
  fst (validate_h5_file c) = true <->
  (exists k, cand_keys c = Some (S k)) /\ 1024 <= cand_size c.
Proof.
  unfold validate_h5_file. destruct (cand_keys c) as [[|k]|]; simpl.
  - split; [discriminate | intros [[k H] _]; discriminate].
  - destruct (Nat.ltb_spec (cand_size c) 1024); simpl.
    + split; [discriminate | intros [_ H']; lia].
    + split; [intros _; split; [eauto | lia] | reflexivity].
  - split; [discriminate | intros [[k H] _]; discriminate].
Qed.

Lemma consider_inv (fs : FileSystem) (d : string) (c : Candidate) (st : list string * list string) :
  In d (existing_dirs fs) -> In c (glob_h5 fs d) ->
  scan_inv fs st -> scan_inv fs (consider st c).
Proof.
  intros Hd Hc Hinv. destruct st as [files seen]. unfold consider.
  destruct (Coils.mem (basename (cand_path c)) seen) eqn:Em; [exact Hinv|].
  destruct (fst (validate_h5_file c)) eqn:Ev; cbn [negb]; [|exact Hinv].
  destruct Hinv as (Hseen & Hnd & Hacc).
  simpl in *. repeat split; cbn [fst snd].
  - intros [<-|H]; rewrite map_app, in_app_iff; [right; left; reflexivity|].
    left. apply Hseen, H.
  - rewrite map_app, in_app_iff. intros [H|[<-|[]]]; [right; apply Hseen, H | left; reflexivity].
  - rewrite map_app. apply NoDup_app; [exact Hnd | repeat constructor; intros [] |].
    intros x Hx [<-|[]]. apply Hseen in Hx. apply CoilsFacts.mem_In in Hx. congruence.
  - intros p Hp. apply in_app_iff in Hp. destruct Hp as [Hp|[<-|[]]]; [apply Hacc, Hp|].
    exists d, c. apply validate_true in Ev. tauto.
Qed.

Lemma consider_seen (c : Candidate) (st : list string * list string) :
  (forall x, In x (snd st) -> In x (snd (consider st c))) /\
  (fst (validate_h5_file c) = true -> In (basename (cand_path c)) (snd (consider st c))).
Proof.
  destruct st as [files seen]. unfold consider.
  destruct (Coils.mem (basename (cand_path c)) seen) eqn:Em.
  - split; [auto|]. intros _. apply CoilsFacts.mem_In. exact Em.
  - destruct (fst (validate_h5_file c)); cbn [negb snd].
    + split; [intros x H; right; exact H | intros _; left; reflexivity].
    + split; [auto | discriminate].
Qed.

Lemma glob_fold_inv (fs : FileSystem) (d : string) (cs : list Candidate)
      (st : list string * list string) :
  In d (existing_dirs fs) -> incl cs (glob_h5 fs d) ->
  scan_inv fs st -> scan_inv fs (fold_left consider cs st).
Proof.
  intros Hd. revert st. induction cs as [|c cs IH]; intros st Hin H; simpl; [exact H|].
  apply IH; [intros x Hx; apply Hin; right; exact Hx|].
  apply (consider_inv d); [exact Hd | apply Hin; left; reflexivity | exact H].
Qed.

Lemma glob_fold_seen (cs : list Candidate) (st : list string * list string) :
  (forall x, In x (snd st) -> In x (snd (fold_left consider cs st))) /\
  (forall c, In c cs -> fst (validate_h5_file c) = true ->
             In (basename (cand_path c)) (snd (fold_left consider cs st))).
Proof.
  revert st. induction cs as [|c cs IH]; intros st; simpl; [split; [auto | intros c []]|].
  destruct (IH (consider st c)) as [H1 H2]. destruct (consider_seen c st) as [K1 K2].
  split; [auto|]. intros c' [<-|Hin] Hv; [apply H1, K2, Hv | apply H2; assumption].
Qed.

Lemma dirs_fold (fs : FileSystem) (dirs : list string) (st : list string * list string) :
  incl dirs (existing_dirs fs) -> scan_inv fs st ->
  let final := fold_left (fun st d => fold_left consider (glob_h5 fs d) st) dirs st in
  scan_inv fs final /\
  (forall x, In x (snd st) -> In x (snd final)) /\
  (forall d c, In d dirs -> In c (glob_h5 fs d) -> fst (validate_h5_file c) = true ->
               In (basename (cand_path c)) (snd final)).
Proof.
  revert st. induction dirs as [|d dirs IH]; intros st Hin H; cbv zeta; simpl.
  - repeat split; try apply H; auto. intros d c [].
  - assert (Hd : In d (existing_dirs fs)) by (apply Hin; left; reflexivity).
    destruct (IH (fold_left consider (glob_h5 fs d) st)) as (H1 & H2 & H3).
    + intros x Hx. apply Hin. right. exact Hx.
    + apply (glob_fold_inv d); [exact Hd | apply incl_refl | exact H].
    + destruct (glob_fold_seen (glob_h5 fs d) st) as [K1 K2].
      split; [exact H1|]. split; [auto|].
      intros d' c [<-|Hd'] Hc Hv; [apply H2, K2; assumption | apply (H3 d'); assumption].
Qed.

Lemma improved_accepted (fs : FileSystem) (p : string) :
  In p (find_h5_files_improved fs) -> accepted fs p.
Proof.
  unfold find_h5_files_improved. intros Hp.
  destruct (@dirs_fold fs (existing_dirs fs) ([], [])) as ((_ & _ & Hacc) & _).
  - apply incl_refl.
  - repeat split; simpl; auto; try constructor. intros q [].
  - apply Hacc. eapply Permutation_in; [|exact Hp]. symmetry.
    apply (sort_by_key_perm String.leb (fun x => lower (basename x))).
Qed.

(** [find_h5_files_improved] returns paths of valid files (some top-level
    key, at least 1024 bytes) found in existing search directories, no two
    with the same file name, in the order of their lower-cased file names;
    and every valid file of an existing search directory has its file name
    in the result. *)
Theorem find_h5_files_improved_spec (fs : FileSystem) :
  let out := find_h5_files_improved fs in
  NoDup (map basename out) /\
  ordered (fun a b => String.leb (lower (basename a)) (lower (basename b)) = true) out /\
  (forall p, In p out -> accepted fs p) /\
  (forall d c, In d (existing_dirs fs) -> In c (glob_h5 fs d) ->
               (exists k, cand_keys c = Some (S k)) -> 1024 <= cand_size c ->
               In (basename (cand_path c)) (map basename out)).
Proof.
  cbv zeta. unfold find_h5_files_improved.
  destruct (@dirs_fold fs (existing_dirs fs) ([], [])) as ((Hseen & Hnd & Hacc) & _ & Hall).
  - apply incl_refl.
  - repeat split; simpl; auto; try constructor. intros p [].
  - fold (scan_dirs fs) in Hseen, Hnd, Hacc, Hall.
    pose proof (sort_by_key_perm String.leb (fun x => lower (basename x)) (fst (scan_dirs fs)))
      as Hperm.
    repeat split.
    + eapply Permutation_NoDup; [apply Permutation_map, Hperm | exact Hnd].
    + apply (sort_by_ordered String.leb (fun x => lower (basename x))). apply String.leb_total.
    + intros p Hp. apply Hacc. eapply Permutation_in; [symmetry; exact Hperm | exact Hp].
    + intros d c Hd Hc Hk Hs.
      eapply Permutation_in; [apply Permutation_map, Hperm|].
      apply Hseen. apply (Hall d c Hd Hc). apply validate_true. split; assumption.
Qed.

(** *** The selection for display *)

Lemma In_firstn {A : Type} (n : nat) (l : list A) (x : A) : In x (firstn n l) -> In x l.
Proof. intros H. rewrite <- (firstn_skipn n l). apply in_or_app. left. exact H. Qed.

Lemma firstn_NoDup {A : Type} (n : nat) (l : list A) : NoDup l -> NoDup (firstn n l).
Proof.
  revert n. induction l as [|x l IH]; intros [|n] H; simpl; try constructor.
  - inversion H as [|? ? Hx Hl]; subst. intros Hin. apply Hx.
    apply (In_firstn n l x). exact Hin.
  - inversion H; subst. apply IH. assumption.
Qed.

(** The elements of a duplicate-free list outside a duplicate-free part of it. *)
Lemma rest_length (l part : list string) :
  NoDup l -> NoDup part -> incl part l ->
  length (filter (fun f => negb (Coils.mem f part)) l) = length l - length part.
Proof.
  intros Hl Hp Hincl.
  assert (Hperm : Permutation l (part ++ filter (fun f => negb (Coils.mem f part)) l)).
  { apply NoDup_Permutation; [exact Hl | |].
    - apply NoDup_app; [exact Hp | apply NoDup_filter; exact Hl |].
      intros x Hx Hf. apply filter_In in Hf. destruct Hf as [_ Hf].
      apply CoilsFacts.mem_In in Hx. rewrite Hx in Hf. discriminate.
    - intros x. rewrite in_app_iff, filter_In. split.
      + intros Hx. destruct (Coils.mem x part) eqn:E.
        * left. apply CoilsFacts.mem_In. exact E.
        * right. split; [exact Hx | reflexivity].
      + intros [Hx|[Hx _]]; [apply Hincl, Hx | exact Hx]. }
  apply Permutation_length in Hperm. rewrite length_app in Hperm. lia.
Qed.

Lemma filter_incl (h5_files : list string) (max_files : nat) :
  length (filter_h5_files_by_pattern h5_files max_files) <= max_files /\
  incl (filter_h5_files_by_pattern h5_files max_files) h5_files.
Proof.
  unfold filter_h5_files_by_pattern.
  destruct (Nat.leb_spec (length h5_files) max_files) as [Hle|Hgt];
    [split; [lia | apply incl_refl]|].
  split; [rewrite length_firstn; lia|].
  intros x Hx. apply In_firstn in Hx.
  assert (H0 : forall y, In y (firstn (max_files / 2) (filter is_priority h5_files) ++
                               firstn (max_files / 2)
                                 (filter (fun f => negb (is_priority f)) h5_files)) ->
                         In y h5_files).
  { intros y Hy. apply in_app_iff in Hy.
    destruct Hy as [Hy|Hy]; apply In_firstn in Hy; apply filter_In in Hy; tauto. }
  destruct (0 <? _)%nat; [|apply H0, Hx].
  apply in_app_iff in Hx. destruct Hx as [Hx|Hx]; [apply H0, Hx|].
  apply In_firstn in Hx. apply filter_In in Hx. tauto.
Qed.

(** [filter_h5_files_by_pattern] returns at most [max_files] of the given
    files and nothing else; a list that is short enough is returned as it
    is; from a list without duplicates it returns no file twice, and exactly
    [max_files] files when the list is longer than that. *)
Theorem filter_h5_files_by_pattern_spec (h5_files : list string) (max_files : nat) :
  let out := filter_h5_files_by_pattern h5_files max_files in
  length out <= max_files /\
  incl out h5_files /\
  (length h5_files <= max_files -> out = h5_files) /\
  (NoDup h5_files ->
   NoDup out /\ (max_files < length h5_files -> length out = max_files)).
Proof.
  cbv zeta. unfold filter_h5_files_by_pattern.
  destruct (Nat.leb_spec (length h5_files) max_files) as [Hle|Hgt].
  { repeat split; auto using incl_refl. intros; lia. }
  set (h := max_files / 2).
  set (P := filter is_priority h5_files).
  set (R := filter (fun f => negb (is_priority f)) h5_files).
  set (F0 := firstn h P ++ firstn h R).
  set (slots := max_files - length F0).
  set (rest := filter (fun f => negb (Coils.mem f F0)) h5_files).
  set (F1 := if (0 <? slots)%nat then F0 ++ firstn slots rest else F0).
  assert (HF0 : incl F0 h5_files).
  { intros x Hx. unfold F0 in Hx. apply in_app_iff in Hx.
    destruct Hx as [Hx|Hx]; apply In_firstn in Hx; apply filter_In in Hx; tauto. }
  assert (HF1 : incl F1 h5_files).
  { intros x Hx. unfold F1 in Hx. destruct (0 <? slots)%nat; [|apply HF0, Hx].
    apply in_app_iff in Hx. destruct Hx as [Hx|Hx]; [apply HF0, Hx|].
    apply In_firstn in Hx. apply filter_In in Hx. tauto. }
  assert (HlenF0 : length F0 <= max_files).
  { unfold F0. rewrite length_app.
    pose proof (firstn_le_length h P). pose proof (firstn_le_length h R).
    rewrite !length_firstn.
    assert (2 * h <= max_files) by (unfold h; apply (Nat.Div0.mul_div_le max_files 2)).
    lia. }
  split; [rewrite length_firstn; lia|].
  split; [intros x Hx; apply HF1; apply In_firstn in Hx; exact Hx|].
  split; [intros; lia|].
  intros Hnd.
  assert (HndF0 : NoDup F0).
  { unfold F0. apply NoDup_app.
    - apply firstn_NoDup, NoDup_filter, Hnd.
    - apply firstn_NoDup, NoDup_filter, Hnd.
    - intros x Hx Hy. apply In_firstn, filter_In in Hx. apply In_firstn, filter_In in Hy.
      destruct Hx as [_ Hx]. destruct Hy as [_ Hy]. rewrite Hx in Hy. discriminate. }
  assert (HndF1 : NoDup F1).
  { unfold F1. destruct (0 <? slots)%nat; [|exact HndF0].
    apply NoDup_app; [exact HndF0 | apply firstn_NoDup, NoDup_filter, Hnd |].
    intros x Hx Hy. apply In_firstn, filter_In in Hy. destruct Hy as [_ Hy].
    apply CoilsFacts.mem_In in Hx. rewrite Hx in Hy. discriminate. }
  split; [apply firstn_NoDup, HndF1|].
  intros _. rewrite length_firstn.
  assert (Hrest : length rest = length h5_files - length F0)
    by (apply rest_length; assumption).
  assert (HlenF1 : length F1 = max_files).
  { unfold F1. destruct (Nat.ltb_spec 0 slots).
    - rewrite length_app, length_firstn. unfold slots in *. lia.
    - unfold slots in *. lia. }
  lia.
Qed.

(** Four distinct files and room for three: three files are kept. *)
Lemma filter_h5_files_by_pattern_spec_witness :
  length (filter_h5_files_by_pattern ["a.h5"; "b.h5"; "coil.h5"; "d.h5"] 3) = 3.
Proof.
  destruct (@filter_h5_files_by_pattern_spec ["a.h5"; "b.h5"; "coil.h5"; "d.h5"] 3)
    as (_ & _ & _ & H).
  destruct H as [_ H].
  - repeat constructor; simpl; intuition discriminate.
  - apply H. simpl. lia.
Defined.

(** *** Names on display and their paths *)

Lemma unique_names_fold (l : list string) (st : list string * list string) :
  (forall x, In x (snd st) <-> In x (fst st)) -> NoDup (fst st) ->
  let final := fold_left unique_names l st in
  NoDup (fst final) /\
  (forall x, In x (fst final) <-> In x (fst st) \/ In x (map basename l)) /\
  length (fst final) <= length (fst st) + length l.
Proof.
  revert st. induction l as [|p l IH]; intros [names seen] Hseen Hnd; cbv zeta; simpl.
  - repeat split; auto; try tauto. lia.
  - simpl in Hseen, Hnd. unfold unique_names at 2.
    destruct (Coils.mem (basename p) seen) eqn:Em.
    + destruct (IH (names, seen) Hseen Hnd) as (H1 & H2 & H3). cbv zeta in *. simpl in *.
      split; [exact H1|]. split; [|lia].
      intros x. rewrite H2. apply CoilsFacts.mem_In, Hseen in Em.
      split; [tauto|]. intros [H|[<-|H]]; tauto.
    + destruct (IH (names ++ [basename p], basename p :: seen)) as (H1 & H2 & H3).
      * intros x. simpl. rewrite in_app_iff, Hseen. simpl. tauto.
      * simpl. apply NoDup_app; [exact Hnd | repeat constructor; intros [] |].
        intros x Hx [<-|[]]. apply Hseen, CoilsFacts.mem_In in Hx. congruence.
      * cbv zeta in *. simpl in *. split; [exact H1|].
        split; [|rewrite length_app in H3; simpl in H3; lia].
        intros x. rewrite H2, in_app_iff. simpl. tauto.
Qed.

(** The names [find_h5_files] offers are pairwise different and at most 15;
    [find_file_path] resolves every one of them to a discovered path with
    that file name; and whatever name is asked for, a path it returns has
    that file name and belongs to a valid file of the search, while it
    returns nothing exactly when no discovered file has the name. *)
Theorem file_names_resolve (fs : FileSystem) :
  NoDup (find_h5_files fs) /\
  length (find_h5_files fs) <= 15 /\
  (forall name, In name (find_h5_files fs) ->
     exists p, find_file_path fs name = Some p /\ basename p = name) /\
  (forall name p, find_file_path fs name = Some p ->
     basename p = name /\ In p (find_h5_files_improved fs) /\ accepted fs p) /\
  (forall name, find_file_path fs name = None <->
     ~ In name (map basename (find_h5_files_improved fs))).
Proof.
  destruct (filter_incl (find_h5_files_improved fs) 15) as [Hlen Hincl].
  destruct (@unique_names_fold (filter_h5_files_by_pattern (find_h5_files_improved fs) 15)
              ([], [])) as (Hnd & Hin & Hl); [simpl; tauto | constructor |].
  cbv zeta in *. simpl in Hin, Hl.
  assert (Hsome : forall name p, find_file_path fs name = Some p ->
            basename p = name /\ In p (find_h5_files_improved fs)).
  { intros name p H. apply find_some in H. destruct H as [H1 H2].
    apply String.eqb_eq in H2. split; assumption. }
  assert (Hnone : forall name, find_file_path fs name = None <->
            ~ In name (map basename (find_h5_files_improved fs))).
  { intros name. unfold find_file_path. split.
    - intros H Hin'. apply in_map_iff in Hin'. destruct Hin' as (p & Hb & Hp).
      pose proof (find_none _ _ H p Hp) as Hn. cbv beta in Hn.
      rewrite Hb, String.eqb_refl in Hn. discriminate.
    - intros H. destruct (find _ _) as [p|] eqn:E; [|reflexivity].
      exfalso. apply H. apply find_some in E. destruct E as [E1 E2].
      apply String.eqb_eq in E2. subst name. apply in_map. exact E1. }
  unfold find_h5_files. repeat split.
  - exact Hnd.
  - lia.
  - intros name Hname. apply Hin in Hname. destruct Hname as [[]|Hname].
    destruct (find_file_path fs name) as [p|] eqn:E.
    + exists p. split; [reflexivity|]. apply (Hsome _ _ E).
    + exfalso. apply Hnone in E. apply E.
      apply in_map_iff in Hname. destruct Hname as (p & Hb & Hp).
      apply in_map_iff. exists p. split; [exact Hb | apply Hincl, Hp].
  - apply (Hsome _ _ H).
  - apply (Hsome _ _ H).
  - destruct (Hsome _ _ H) as [_ Hp].
    apply improved_accepted, Hp.
  - apply Hnone.
  - apply Hnone.
Qed.

End FilesFacts.

(** ** More on coils, ranges and loads *)

Module SessionMore.

Import Ranges RangesFacts Invariants TableFacts Loader LoaderFacts Session SessionFacts Expected.

(** *** The coils of a file *)

Lemma coils_sort_by (key : string -> Z) (l : list string) :
  Coils.sorted_by key l = PyStr.sort_by Z.leb key l.
Proof.
  unfold Coils.sorted_by, PyStr.sort_by.
  induction l as [|x l IH]; simpl; [reflexivity|]. rewrite IH.
  generalize (fold_right (PyStr.insert_by Z.leb key) [] l). intros m.
  induction m as [|y m IHm]; simpl; [reflexivity|]. rewrite IHm. reflexivity.
Qed.

Lemma Zleb_total (a b : Z) : (a <=? b)%Z = true \/ (b <=? a)%Z = true.
Proof. destruct (Z.leb_spec a b); [left; reflexivity | right; apply Z.leb_le; lia]. Qed.

Lemma sorted_by_ordered (key : string -> Z) (l : list string) :
  ordered (fun a b => (key a <=? key b)%Z = true) (Coils.sorted_by key l).
Proof.
  rewrite coils_sort_by.
  apply (FilesFacts.sort_by_ordered Z.leb key l Zleb_total).
Qed.

Lemma fold_append_new_In (parts acc : list string) (x : string) :
  In x (fold_left Coils.append_new parts acc) <-> In x acc \/ In x parts.
Proof.
  revert acc. induction parts as [|p parts IH]; intros acc; simpl; [tauto|].
  rewrite IH. unfold Coils.append_new.
  destruct (Coils.mem p acc) eqn:E.
  - apply CoilsFacts.mem_In in E. split; [tauto|]. intros [H|[<-|H]]; tauto.
  - rewrite in_app_iff. simpl. tauto.
Qed.

(** Sorting a list that is in order gives the list back. *)
Lemma sorted_by_fixed (key : string -> Z) (l : list string) :
  ordered (fun a b => (key a <=? key b)%Z = true) l -> Coils.sorted_by key l = l.
Proof.
  unfold Coils.sorted_by. induction l as [|x l IH]; intros H; [reflexivity|].
  simpl. destruct l as [|y l]; [reflexivity|].
  destruct H as [Hxy Hrest]. rewrite (IH Hrest). simpl. rewrite Hxy. reflexivity.
Qed.

(** For a file whose coil names are ASCII text, so that [int] reads the
    digits of every name and the [except] clause is not entered,
    [get_available_coils_dynamic] returns exactly the coil names met in the
    file, each once, in ascending order of the number made of their
    digits. *)
Theorem available_coils_sorted_and_unique (f : File) :
  forallb ascii_name (coil_parts f) = true ->
  let coils := Coils.get_available_coils_dynamic f in
  NoDup coils /\
  (forall c, In c coils <-> In c (coil_parts f)) /\
  ordered (fun a b => (Coils.extract_coil_number a <=? Coils.extract_coil_number b)%Z = true)
          coils.
Proof.
  intros _. cbv zeta. split; [apply CoilsFacts.available_coils_NoDup|]. split.
  - intros c. unfold Coils.get_available_coils_dynamic. split.
    + intros H. eapply Permutation_in in H; [|symmetry; apply CoilsFacts.sorted_by_perm].
      apply fold_append_new_In in H. destruct H as [[]|H]. exact H.
    + intros H. eapply Permutation_in; [apply CoilsFacts.sorted_by_perm|].
      apply fold_append_new_In. right. exact H.
  - apply sorted_by_ordered.
Qed.

(** File A: coil 50 and coil 51, in this order. *)
Lemma available_coils_sorted_and_unique_witness :
  NoDup (Coils.get_available_coils_dynamic Samples.file_a) /\
  In "coil 51" (Coils.get_available_coils_dynamic Samples.file_a).
Proof.
  destruct (@available_coils_sorted_and_unique Samples.file_a) as (H1 & H2 & _);
    [reflexivity|].
  split; [exact H1|]. apply H2. simpl. auto.
Defined.

(** *** The batch of ranges *)

Lemma batch_loop_eq (f : File) (coils : list string) :
  NoDup coils ->
  forall (tbl : table) (cs : Z) (seen : list string),
    chain 1 tbl ->
    chain_next 1 tbl = cs ->
    (forall k r, lookup k tbl = Some r -> In k seen) ->
    (forall k, In k coils -> ~ In k seen) ->
    fst (fold_left (range_step f) coils (tbl, cs)) = tbl ++ ranges_from f cs coils.
Proof.
  induction 1 as [|c coils Hc Hnd IH]; intros tbl cs seen Hchain Hnext Hkeys Hfresh.
  - simpl. rewrite app_nil_r. reflexivity.
  - cbn [fold_left ranges_from]. rewrite range_step_eq. cbv zeta.
    assert (Habs : lookup c tbl = None).
    { destruct (lookup c tbl) as [r|] eqn:E; [|reflexivity].
      exfalso. apply (Hfresh c); [left; reflexivity | exact (Hkeys _ _ E)]. }
    destruct (0 <? file_rows f c)%nat eqn:En.
    + rewrite generate_table_new by assumption. rewrite Hnext.
      set (r := mkRange cs (cs + Z.of_nat (file_rows f c) - 1) (file_rows f c)).
      assert (Hl : lookup c (tbl ++ [(c, r)]) = Some r).
      { rewrite lookup_app_absent, Habs, String.eqb_refl. reflexivity. }
      rewrite (dict_set_same_value _ _ Hl).
      destruct (@chain_app tbl 1%Z c (file_rows f c) Hchain) as [Hch Hnx].
      rewrite Hnext in Hch, Hnx. fold r in Hch, Hnx.
      replace (cs + Z.of_nat (file_rows f c) - 1 + 1)%Z
        with (cs + Z.of_nat (file_rows f c))%Z by lia.
      rewrite (IH (tbl ++ [(c, r)]) (cs + Z.of_nat (file_rows f c))%Z (c :: seen)).
      * rewrite <- app_assoc. reflexivity.
      * exact Hch.
      * exact Hnx.
      * intros k r0. rewrite lookup_app_absent.
        destruct (lookup k tbl) as [r1|] eqn:E.
        -- intros _. right. exact (Hkeys _ _ E).
        -- destruct (String.eqb_spec k c); [intros _; left; congruence | discriminate].
      * intros k Hk [<-|Hs]; [contradiction | exact (Hfresh k (or_intror Hk) Hs)].
    + apply (IH tbl cs (c :: seen)); try assumption.
      * intros k r E. right. exact (Hkeys _ _ E).
      * intros k Hk [<-|Hs]; [contradiction | exact (Hfresh k (or_intror Hk) Hs)].
Qed.

Lemma batch_eq (f : File) :
  batch f = ranges_from f 1 (Coils.get_available_coils_dynamic f).
Proof.
  unfold batch.
  rewrite (@batch_loop_eq f _ (CoilsFacts.sorted_by_NoDup _ (CoilsFacts.available_coils_NoDup f))
             [] 1%Z []).
  - simpl. f_equal. unfold Coils.get_available_coils_dynamic at 1.
    apply sorted_by_fixed. apply sorted_by_ordered.
  - exact I.
  - reflexivity.
  - intros k r E. discriminate E.
  - intros k _ [].
Qed.

(** For a file in which coils are found, [calculate_coil_ranges] forgets the
    table it is given and numbers the coils in ascending order of their
    numbers: each coil with rows gets as many numbers as it has rows, right
    after the coil before it, from 1; a coil without rows gets none. *)
Theorem calculate_coil_ranges_numbers_in_order (tbl : table) (f : File) :
  Coils.get_available_coils_dynamic f <> [] ->
  calculate_coil_ranges tbl f (Coils.get_available_coils_dynamic f)
  = ranges_from f 1 (Coils.get_available_coils_dynamic f).
Proof.
  intros Hne. rewrite calculate_eq.
  destruct (Coils.get_available_coils_dynamic f) eqn:E; [contradiction|].
  rewrite <- E. apply batch_eq.
Qed.

(** File A: coil 50 gets 1-2 and coil 51 gets 3-3, whatever the table was. *)
Lemma calculate_coil_ranges_numbers_in_order_witness :
  calculate_coil_ranges [("coil 51", mkRange 1 7 7)] Samples.file_a
                        (Coils.get_available_coils_dynamic Samples.file_a)
  = [("coil 50", mkRange 1 2 2); ("coil 51", mkRange 3 3 1)].
Proof.
  rewrite (@calculate_coil_ranges_numbers_in_order
             [("coil 51", mkRange 1 7 7)] Samples.file_a).
  - vm_compute. reflexivity.
  - vm_compute. discriminate.
Defined.

(** *** The numbers of the loaded coil *)

Lemma arange_In (a : Z) (n : nat) (z : Z) :
  In z (arange a (a + Z.of_nat n)) <-> (a <= z < a + Z.of_nat n)%Z.
Proof.
  unfold arange. rewrite in_map_iff. split.
  - intros (i & <- & Hi). apply in_seq in Hi. lia.
  - intros H. exists (Z.to_nat (z - a)). split; [lia|]. apply in_seq. lia.
Qed.

Lemma ranges_from_lookup (f : File) (coils : list string) (s : Z) (c : string) (r : CoilRange) :
  lookup c (ranges_from f s coils) = Some r ->
  rng_count r = file_rows f c /\
  rng_end r = (rng_start r + Z.of_nat (rng_count r) - 1)%Z /\
  0 < file_rows f c.
Proof.
  revert s. induction coils as [|k coils IH]; intros s; simpl; [discriminate|].
  destruct (0 <? file_rows f k)%nat eqn:En; [|apply IH].
  simpl. destruct (String.eqb_spec c k) as [->|Hne]; [|apply IH].
  intros [= <-]. simpl. apply Nat.ltb_lt in En. repeat split; auto.
Qed.

(** [handle_h5_file_loading] for a file with coils, in terms of the file. *)
Lemma handle_with_coils_eq (g : Globals) (file_name : string) (f : File) :
  Coils.get_available_coils_dynamic f <> [] ->
  let coils := Coils.get_available_coils_dynamic f in
  let sel := if Coils.mem (selected_coil g) coils then selected_coil g else hd "" coils in
  let n := file_rows f sel in
  handle_h5_file_loading g file_name f
  = if file_loads f sel then
      (mkGlobals
         (Some (mkStore (load_entry f sel screwdown) (load_entry f sel bending)
                        (load_entry f sel profile)
                        (if (0 <? n)%nat then fst (generate_coil_blank_info (batch f) sel n)
                         else [])))
         (Some file_name) (Some n) coils sel 0 (batch f), true)
    else
      (mkGlobals (data_store g) (Some file_name) (data_rows g) coils sel 0 (batch f), false).
Proof.
  intros Hne. cbv zeta.
  pose proof (@handle_table_with_coils g file_name f Hne) as Htbl.
  rewrite handle_eq in Htbl |- *. rewrite select_coils_eq in Htbl |- *.
  destruct (Coils.get_available_coils_dynamic f) as [|first rest] eqn:Ec; [contradiction|].
  cbv zeta in Htbl |- *. cbn [hd].
  destruct (file_loads f _); cbn [fst COIL_BLANK_INFO_RANGES] in Htbl; rewrite Htbl;
    reflexivity.
Qed.

(** After a successful load of a file with coils, the blank-info numbers of
    the data store are exactly the integers of the selected coil's range in
    the table (none, when the coil has no rows and no range). *)
Theorem dataset_numbers_fill_coil_range (g g' : Globals) (file_name : string) (f : File) :
  Coils.get_available_coils_dynamic f <> [] ->
  handle_h5_file_loading g file_name f = (g', true) ->
  exists ds,
    data_store g' = Some ds /\
    forall z, In z (ds_blank_info ds) <->
              exists r, lookup (selected_coil g') (COIL_BLANK_INFO_RANGES g') = Some r /\
                        covers r z.
Proof.
  intros Hne Hh. rewrite (@handle_with_coils_eq g file_name f Hne) in Hh. cbv zeta in Hh.
  set (coils := Coils.get_available_coils_dynamic f) in *.
  set (sel := if Coils.mem (selected_coil g) coils then selected_coil g else hd "" coils) in *.
  destruct (file_loads f sel); [|discriminate].
  injection Hh as <-. eexists. split; [reflexivity|].
  cbn [ds_blank_info selected_coil COIL_BLANK_INFO_RANGES].
  assert (Hin : In sel coils).
  { unfold sel. destruct (Coils.mem (selected_coil g) coils) eqn:Em.
    - apply CoilsFacts.mem_In. exact Em.
    - unfold coils in *. destruct (Coils.get_available_coils_dynamic f); [contradiction|].
      left. reflexivity. }
  intros z. destruct (0 <? file_rows f sel)%nat eqn:En.
  - apply Nat.ltb_lt in En.
    destruct (batch_spec f) as [_ Hpres]. specialize (Hpres sel Hin En).
    destruct (lookup sel (batch f)) as [r|] eqn:El; [|contradiction].
    unfold generate_coil_blank_info. rewrite El. cbn [fst].
    pose proof El as El'. rewrite batch_eq in El'.
    apply ranges_from_lookup in El'. destruct El' as (Hcount & Hend & _).
    rewrite arange_In. unfold covers. split.
    + intros H. exists r. split; [reflexivity | lia].
    + intros (r' & [= <-] & H). lia.
  - split; [intros []|]. intros (r & El & _).
    rewrite batch_eq in El. apply ranges_from_lookup in El.
    apply Nat.ltb_ge in En. lia.
Qed.

(** File A with coil 51 selected: the data store holds the number 3, the
    range of coil 51. *)
Lemma dataset_numbers_fill_coil_range_witness :
  exists ds,
    data_store (fst (handle_h5_file_loading
                       (mkGlobals None None None [] "coil 51" 0 []) "a.h5" Samples.file_a))
    = Some ds /\
    (In 3%Z (ds_blank_info ds) <->
     exists r, lookup "coil 51" (batch Samples.file_a) = Some r /\ covers r 3%Z).
Proof.
  destruct (@dataset_numbers_fill_coil_range
              (mkGlobals None None None [] "coil 51" 0 [])
              (fst (handle_h5_file_loading
                      (mkGlobals None None None [] "coil 51" 0 []) "a.h5" Samples.file_a))
              "a.h5" Samples.file_a) as (ds & Hds & H).
  - vm_compute. discriminate.
  - vm_compute. reflexivity.
  - exists ds. split; [exact Hds|]. apply (H 3%Z).
Defined.

(** *** What a load leaves behind *)

(** [handle_h5_file_loading] always records the file name and sets the
    global row to 0.  For a file with coils it keeps the selected coil when
    the file has it and takes the first coil otherwise; for a file without
    coils the selected coil becomes the empty name.  It succeeds exactly
    when some data type of the selected coil loads; when it fails, the data
    store and the row count are those of the load before. *)
Theorem load_outcome (g : Globals) (file_name : string) (f : File) :
  let coils := Coils.get_available_coils_dynamic f in
  let g' := fst (handle_h5_file_loading g file_name f) in
  let ok := snd (handle_h5_file_loading g file_name f) in
  current_file_name g' = Some file_name /\
  selected_row g' = 0%Z /\
  available_coils g' = coils /\
  (coils = [] -> selected_coil g' = "") /\
  (coils <> [] ->
   In (selected_coil g') coils /\
   (In (selected_coil g) coils -> selected_coil g' = selected_coil g) /\
   (~ In (selected_coil g) coils -> selected_coil g' = hd "" coils)) /\
  ok = file_loads f (selected_coil g') /\
  (ok = true -> data_rows g' = Some (file_rows f (selected_coil g'))) /\
  (ok = false -> data_store g' = data_store g /\ data_rows g' = data_rows g).
Proof.
  cbv zeta. rewrite handle_eq, select_coils_eq.
  destruct (Coils.get_available_coils_dynamic f) as [|first rest] eqn:Ec; cbv zeta.
  - destruct (file_loads f "") eqn:El; cbn [fst snd current_file_name selected_row
      available_coils selected_coil data_rows data_store];
      repeat split; auto; try contradiction; try discriminate.
  - set (sel := if Coils.mem (selected_coil g) (first :: rest) then selected_coil g else first).
    assert (Hsel : In sel (first :: rest) /\
                   (In (selected_coil g) (first :: rest) -> sel = selected_coil g) /\
                   (~ In (selected_coil g) (first :: rest) -> sel = first)).
    { unfold sel. destruct (Coils.mem (selected_coil g) (first :: rest)) eqn:Em.
      - apply CoilsFacts.mem_In in Em. repeat split; auto. intros H. contradiction.
      - repeat split; auto; [left; reflexivity|].
        intros H. apply CoilsFacts.mem_In in H. congruence. }
    destruct (file_loads f sel) eqn:El; cbn [fst snd current_file_name selected_row
      available_coils selected_coil data_rows data_store hd];
      repeat split; auto; try discriminate; try apply Hsel.
Qed.

End SessionMore.

(** ** More on densification and on loading one coil *)

Module LoaderMore.

Import Densify Invariants DensifyFacts Ranges RangesFacts TableFacts Loader LoaderFacts.

(** *** Densification at the edges *)

Lemma py_index_cases {A : Type} (l : list A) (i : nat) :
  (i < length l /\ exists a, py_index l i = Ok a) \/
  (length l <= i /\ py_index l i = Raise IndexError).
Proof.
  unfold py_index. destruct (nth_error l i) as [a|] eqn:E.
  - left. split; [apply nth_error_Some; congruence | eauto].
  - right. split; [apply nth_error_None; exact E | reflexivity].
Qed.

Lemma loop_body_raises (dx dz : dtype) (rx rz : list Q) (d : display) (i : nat) :
  (exists d', loop_body dx dz rx rz d i = Ok d') \/
  loop_body dx dz rx rz d i = Raise IndexError.
Proof.
  unfold loop_body.
  destruct (py_index_cases rx i) as [[_ [a ->]]|[_ ->]]; [|right; reflexivity].
  destruct (py_index_cases rz i) as [[_ [b ->]]|[_ ->]]; [|right; reflexivity].
  destruct (py_index_cases rx (i + 1)) as [[_ [a' ->]]|[_ ->]]; [|right; reflexivity].
  destruct (py_index_cases rz (i + 1)) as [[_ [b' ->]]|[_ ->]]; [|right; reflexivity].
  left. eexists. reflexivity.
Qed.

Lemma loop_stops (dx dz : dtype) (rx rz : list Q) (idx : list nat) (i : nat) (d : display) :
  In i idx -> length rz <= i + 1 ->
  for_each (loop_body dx dz rx rz) idx d = Raise IndexError.
Proof.
  intros Hin Hshort. revert d. induction idx as [|j idx IH]; intros d; [destruct Hin|].
  simpl. destruct (loop_body_raises dx dz rx rz d j) as [[d' E]|E]; rewrite E; simpl;
    [|reflexivity].
  destruct Hin as [->|Hin]; [|apply IH, Hin].
  exfalso. unfold loop_body in E.
  destruct (py_index rx i); simpl in E; [|discriminate].
  destruct (py_index rz i); simpl in E; [|discriminate].
  destruct (py_index rx (i + 1)); simpl in E; [|discriminate].
  destruct (py_index_cases rz (i + 1)) as [[Hlt _]|[_ E']]; [lia|].
  rewrite E' in E. discriminate.
Qed.

(** [generate_reference_display] at its edges: a missing array gives three
    empty arrays; an empty [ref_x] raises an index error; a single point is
    returned alone, marked as no midpoint; and a [ref_z] shorter than a
    non-empty [ref_x] raises an index error; all this for arrays of any
    dtype. *)
Theorem generate_reference_display_edges (dx dz : dtype) (ref_x ref_z : list Q) :
  generate_reference_display dx dz None (Some ref_z) = Ok empty_display /\
  generate_reference_display dx dz (Some ref_x) None = Ok empty_display /\
  generate_reference_display dx dz (Some []) (Some ref_z) = Raise IndexError /\
  (forall x z, ref_x = [x] -> ref_z = [z] ->
     generate_reference_display dx dz (Some ref_x) (Some ref_z)
     = Ok (mkDisplay [x] [z] [false])) /\
  (ref_x <> [] -> length ref_z < length ref_x ->
   generate_reference_display dx dz (Some ref_x) (Some ref_z) = Raise IndexError).
Proof.
  repeat split.
  - intros x z -> ->. reflexivity.
  - intros Hne Hlt. unfold generate_reference_display.
    destruct ref_x as [|x0 [|x1 rx]]; [contradiction | |].
    + (* one point: the loop does not run and [ref_z[-1]] fails *)
      destruct ref_z; [reflexivity | simpl in Hlt; lia].
    + (* the turn that reads [ref_z[len(ref_z)]] fails *)
      rewrite (@loop_stops dx dz (x0 :: x1 :: rx) ref_z _ (length ref_z - 1));
        [reflexivity| |lia].
      apply in_seq. simpl in *. lia.
Qed.

(** A reference Z curve of two points against an X curve of three. *)
Lemma generate_reference_display_edges_witness :
  generate_reference_display Floating Floating (Some [0; 10; 20]%Q) (Some [0; 5]%Q)
  = Raise IndexError.
Proof.
  destruct (@generate_reference_display_edges Floating Floating [0; 10; 20]%Q [0; 5]%Q)
    as (_ & _ & _ & _ & H).
  apply H; [discriminate | simpl; lia].
Defined.

(** *** The shape of a loaded series *)

Lemma densify_ok (dx dz : dtype) (rx rz : list Q) :
  length rx = length rz -> 1 <= length rx ->
  exists d,
    generate_reference_display dx dz (Some rx) (Some rz) = Ok d /\
    length (display_x d) = 2 * length rx - 1 /\
    length (display_z d) = 2 * length rx - 1 /\
    length (Densify.is_midpoint d) = 2 * length rx - 1 /\
    (forall k, k < length rx ->
       nth_error (display_x d) (2 * k) = nth_error rx k /\
       nth_error (display_z d) (2 * k) = nth_error rz k).
Proof.
  intros Hlen Hn.
  destruct (@densify_runs dx dz rx rz Hlen Hn) as (d & Hd & H1 & H2 & H3 & Heven & _).
  exists d. repeat split; auto; apply Heven; lia.
Qed.

(** A data type is loaded exactly when its two reference curves are
    resolved with the same length, at least one point.  The series then
    holds the group's actual arrays (2-D), and display arrays [ref_x],
    [ref_z], [is_midpoint] of one odd length, twice that of the resolved
    curve minus one, with the resolved points at the even positions. *)
Theorem loaded_series_shape (t : data_type) (g : Group) :
  (forall s, load_data_type t g = Some s ->
     exists rx rz,
       resolve_reference t g = (Some rx, Some rz) /\
       length rx = length rz /\ 1 <= length rx /\
       actual_x s = as_2d (grp_x g) /\ actual_z s = as_2d (grp_z g) /\
       length (ref_x s) = 2 * length rx - 1 /\
       length (ref_z s) = 2 * length rx - 1 /\
       length (is_midpoint s) = 2 * length rx - 1 /\
       (forall k, k < length rx ->
          nth_error (ref_x s) (2 * k) = nth_error rx k /\
          nth_error (ref_z s) (2 * k) = nth_error rz k)) /\
  (forall rx rz,
     resolve_reference t g = (Some rx, Some rz) ->
     length rx = length rz -> 1 <= length rx ->
     load_data_type t g <> None).
Proof.
  split.
  - intros s Hs. unfold load_data_type in Hs.
    destruct (resolve_reference t g) as [[rx|] [rz|]]; try discriminate.
    destruct (resolve_dtype t g) as [[dx|] [dz|]]; try discriminate.
    destruct (Nat.eqb_spec (length rx) (length rz)) as [Hlen|]; [|discriminate].
    destruct rx as [|x rx'].
    + destruct rz; [|discriminate Hlen]. discriminate Hs.
    + destruct (@densify_ok dx dz (x :: rx') rz Hlen) as (d & Hd & H1 & H2 & H3 & H4);
        [simpl; lia|].
      rewrite Hd in Hs. injection Hs as <-.
      exists (x :: rx'), rz. cbn [actual_x actual_z ref_x ref_z is_midpoint].
      repeat split; auto; try (simpl; lia); apply H4; assumption.
  - intros rx rz Hres Hlen Hn. unfold load_data_type.
    destruct (resolve_dtype_some t g Hres) as (dx & dz & Hdt).
    rewrite Hres, Hdt.
    rewrite (proj2 (Nat.eqb_eq _ _) Hlen).
    destruct (@densify_ok dx dz rx rz Hlen Hn) as (d & Hd & _). rewrite Hd. discriminate.
Qed.

(** The sample group with two-point reference curves: display arrays of
    three points. *)
Lemma loaded_series_shape_witness :
  load_data_type screwdown (Samples.group_of_rows 2) <> None.
Proof.
  destruct (@loaded_series_shape screwdown (Samples.group_of_rows 2)) as [_ H].
  apply (H [0; 1]%Q [0; 2]%Q); [reflexivity | reflexivity | simpl; lia].
Defined.

(** *** Loading a coil again *)

Lemma load_blank_info (tbl : table) (f : File) (coil : string) :
  r_blank_info (fst (load_data_from_h5_dynamic tbl f coil))
  = if is_none (data_group f coil screwdown) && is_none (data_group f coil bending)
       && is_none (data_group f coil profile)
    then None
    else Some (if (0 <? file_rows f coil)%nat
               then fst (generate_coil_blank_info tbl coil (file_rows f coil)) else []).
Proof.
  unfold load_data_from_h5_dynamic.
  destruct (is_none _ && is_none _ && is_none _); [reflexivity|].
  fold (file_rows f coil). destruct (0 <? file_rows f coil)%nat; [|reflexivity].
  destruct (generate_coil_blank_info tbl coil (file_rows f coil)). reflexivity.
Qed.

Lemma generate_start (tbl : table) (coil : string) (n : nat) :
  exists r, lookup coil (snd (generate_coil_blank_info tbl coil n)) = Some r /\
            fst (generate_coil_blank_info tbl coil n)
            = arange (rng_start r) (rng_start r + Z.of_nat n).
Proof.
  unfold generate_coil_blank_info. destruct (lookup coil tbl) as [r|] eqn:E; cbn [fst snd].
  - exists r. split; [exact E | reflexivity].
  - eexists. split; [apply lookup_dict_set_same | reflexivity].
Qed.

Lemma generate_known (tbl : table) (coil : string) (n : nat) (r : CoilRange) :
  lookup coil tbl = Some r ->
  fst (generate_coil_blank_info tbl coil n) = arange (rng_start r) (rng_start r + Z.of_nat n).
Proof. intros E. unfold generate_coil_blank_info. rewrite E. reflexivity. Qed.

(** Loading a coil a second time gives the same result and leaves the table
    as the first load left it; the blank-info numbers are also the same
    after any other coil, of any file, was loaded in between. *)
Theorem reload_gives_same_numbers (tbl : table) (f : File) (coil : string) :
  let first := load_data_from_h5_dynamic tbl f coil in
  load_data_from_h5_dynamic (snd first) f coil = first /\
  forall f' coil',
    r_blank_info
      (fst (load_data_from_h5_dynamic
              (snd (load_data_from_h5_dynamic (snd first) f' coil')) f coil))
    = r_blank_info (fst first).
Proof.
  cbv zeta.
  assert (Hsame : forall t',
            (forall r, lookup coil (snd (load_data_from_h5_dynamic tbl f coil)) = Some r ->
                       lookup coil t' = Some r) ->
            r_blank_info (fst (load_data_from_h5_dynamic t' f coil))
            = r_blank_info (fst (load_data_from_h5_dynamic tbl f coil))).
  { intros t' Hkeep. rewrite !load_blank_info.
    destruct (is_none _ && is_none _ && is_none _); [reflexivity|].
    destruct (0 <? file_rows f coil)%nat eqn:En; [|reflexivity].
    f_equal. destruct (generate_start tbl coil (file_rows f coil)) as (r & Hl & Hf).
    rewrite Hf. apply generate_known. apply Hkeep.
    rewrite load_table, En. exact Hl. }
  split.
  - assert (Ht : snd (load_data_from_h5_dynamic
                        (snd (load_data_from_h5_dynamic tbl f coil)) f coil)
                 = snd (load_data_from_h5_dynamic tbl f coil)).
    { rewrite (load_table (snd _)). destruct (0 <? file_rows f coil)%nat eqn:En; [|reflexivity].
      destruct (generate_start tbl coil (file_rows f coil)) as (r & Hl & _).
      apply (@generate_table_known _ coil (file_rows f coil) r).
      rewrite load_table, En. exact Hl. }
    assert (Hb := Hsame (snd (load_data_from_h5_dynamic tbl f coil)) (fun r H => H)).
    pose proof (load_get tbl f coil) as G1.
    pose proof (load_get (snd (load_data_from_h5_dynamic tbl f coil)) f coil) as G2.
    destruct (load_data_from_h5_dynamic tbl f coil) as [r1 t1] eqn:E1.
    cbn [fst snd] in *.
    destruct (load_data_from_h5_dynamic t1 f coil) as [r2 t2] eqn:E2.
    cbn [fst snd] in *. subst t2. f_equal.
    destruct r1 as [a1 b1 c1 d1], r2 as [a2 b2 c2 d2]. cbn [r_blank_info] in Hb.
    pose proof (G1 screwdown) as X1. pose proof (G2 screwdown) as X2.
    pose proof (G1 bending) as Y1. pose proof (G2 bending) as Y2.
    pose proof (G1 profile) as Z1. pose proof (G2 profile) as Z2.
    cbn [get r_screwdown r_bending r_profile] in *. congruence.
  - intros f' coil'. apply Hsame. intros r Hr. apply load_keeps. exact Hr.
Qed.

(** *** The synthetic reference of a single measured curve *)

Lemma own_mean (v : list Q) : Forall2 Qeq (mean_axis0 [v]) v.
Proof.
  unfold mean_axis0. cbn [hd].
  induction v as [|x v IH]; cbn [length seq map]; constructor.
  - unfold Qsum. simpl. field.
  - rewrite <- seq_shift, map_map. exact IH.
Qed.

(** For a group whose [x] dataset is one-dimensional and not empty, and
    which holds no reference X curve at all, the reference X curve is, point
    by point, the measured curve itself. *)
Theorem single_curve_is_its_own_reference (t : data_type) (g : Group) (v : list Q) :
  grp_x g = Arr1 v -> v <> [] ->
  first_attr (grp_attrs g) (ref_attr_names t) = None ->
  grp_ref_x g = None ->
  exists m, fst (resolve_reference t g) = Some m /\ Forall2 Qeq m v.
Proof.
  intros Hx Hv Hattr Hds.
  rewrite (resolve_partial t g (or_introl Hattr)). cbn [fst].
  rewrite Hattr, Hds, Hx. cbn [take_dataset as_2d fallback_mean].
  assert (Hsize : (0 <? size [v])%nat = true).
  { apply Nat.ltb_lt. unfold size. simpl. destruct v; [contradiction | simpl; lia]. }
  rewrite Hsize. eexists. split; [reflexivity|]. apply own_mean.
Qed.

(** A one-dimensional [x] dataset of three points and nothing else. *)
Lemma single_curve_is_its_own_reference_witness :
  exists m,
    fst (resolve_reference screwdown
           (mkGroup (Arr1 [1; 2; 4]%Q) (Arr1 [3; 5; 9]%Q) (fun _ => None) None None
                    (fun _ => Floating) Floating Floating))
    = Some m /\
    Forall2 Qeq m [1; 2; 4]%Q.
Proof.
  apply (@single_curve_is_its_own_reference screwdown
           (mkGroup (Arr1 [1; 2; 4]%Q) (Arr1 [3; 5; 9]%Q) (fun _ => None) None None
                    (fun _ => Floating) Floating Floating));
    [reflexivity | discriminate | reflexivity | reflexivity].
Defined.

End LoaderMore.

(** ** Walking the groups *)

Module ScanFacts.

Import PyStr Scan Expected.

Lemma find_coil_data_one (coil_name : string) (paths : data_type -> option string)
      (n : Node) (t : data_type) :
  find_coil_data coil_name paths n t
  = if is_data_group coil_name t n then Some (node_name n) else paths t.
Proof.
  unfold find_coil_data, is_data_group.
  destruct (node_is_group n); [|reflexivity].
  destruct (contains coil_name (node_name n)); [|reflexivity].
  destruct t; cbn [fold_left andb type_name];
    destruct (contains "bending" (lower (node_name n)));
    destruct (contains "screwdown" (lower (node_name n)));
    destruct (contains "profile" (lower (node_name n)));
    destruct (has_axes n); reflexivity.
Qed.

Lemma find_app_last {A : Type} (p : A -> bool) (l : list A) (x : A) :
  find p (l ++ [x]) = match find p l with
                      | Some y => Some y
                      | None => if p x then Some x else None
                      end.
Proof.
  induction l as [|y l IH]; simpl; [reflexivity|].
  destruct (p y); [reflexivity | exact IH].
Qed.

Lemma get_paths_fold (coil_name : string) (nodes : list Node)
      (paths : data_type -> option string) (t : data_type) :
  fold_left (find_coil_data coil_name) nodes paths t
  = match find (is_data_group coil_name t) (rev nodes) with
    | Some n => Some (node_name n)
    | None => paths t
    end.
Proof.
  revert paths. induction nodes as [|n nodes IH]; intros paths; [reflexivity|].
  cbn [fold_left rev]. rewrite IH, find_app_last.
  destruct (find (is_data_group coil_name t) (rev nodes)); [reflexivity|].
  rewrite find_coil_data_one. destruct (is_data_group coil_name t n); reflexivity.
Qed.

(** [get_coil_data_paths] gives, for each data type, the path of the last
    group of the walk whose path contains the coil name and, in lower case,
    the name of the data type, and which has members [x] and [z]; it gives
    nothing when the walk meets no such group. *)
Theorem get_coil_data_paths_takes_last_group (nodes : list Node) (coil_name : string)
        (t : data_type) :
  get_coil_data_paths nodes coil_name t
  = option_map node_name (find (is_data_group coil_name t) (rev nodes)).
Proof.
  unfold get_coil_data_paths. rewrite get_paths_fold.
  destruct (find _ _); reflexivity.
Qed.

(** *** The coils the walks find *)

Lemma find_coils_fold (nodes all : list Node) (acc : list string) :
  incl nodes all -> NoDup acc -> (forall c, In c acc -> primary_coil all c) ->
  NoDup (fold_left find_coils nodes acc) /\
  (forall c, In c (fold_left find_coils nodes acc) -> primary_coil all c).
Proof.
  revert acc. induction nodes as [|n nodes IH]; intros acc Hincl Hnd Hacc; [split; assumption|].
  cbn [fold_left]. apply IH.
  - intros x Hx. apply Hincl. right. exact Hx.
  - unfold find_coils. destruct (node_is_group n); [|exact Hnd].
    generalize (split_slash (node_name n)) acc Hnd. clear.
    intros parts. induction parts as [|p parts IHp]; intros acc Hnd; [exact Hnd|].
    cbn [fold_left]. apply IHp.
    destruct (looks_like_coil p); [|exact Hnd].
    destruct (has_axes n || child_with_axis n); [|exact Hnd].
    apply CoilsFacts.append_new_NoDup. exact Hnd.
  - assert (Hn : In n all) by (apply Hincl; left; reflexivity).
    unfold find_coils. destruct (node_is_group n) eqn:Eg; [|exact Hacc].
    assert (Hparts : incl (split_slash (node_name n)) (split_slash (node_name n)))
      by apply incl_refl.
    revert Hparts Hacc. generalize (split_slash (node_name n)) at 1 3. intros parts. clear Hnd. revert acc.
    induction parts as [|p parts IHp]; intros acc Hparts Hacc; [exact Hacc|].
    cbn [fold_left]. apply IHp; [intros x Hx; apply Hparts; right; exact Hx|].
    destruct (looks_like_coil p) eqn:El; [|exact Hacc].
    destruct (has_axes n || child_with_axis n) eqn:Ea; [|exact Hacc].
    intros c Hc. unfold Coils.append_new in Hc.
    destruct (Coils.mem p acc); [apply Hacc, Hc|].
    apply in_app_iff in Hc. destruct Hc as [Hc|[<-|[]]]; [apply Hacc, Hc|].
    split; [exact El|]. exists n. repeat split; auto.
    + apply Hparts. left. reflexivity.
    + apply orb_true_iff. exact Ea.
Qed.

Lemma find_alternative_fold (nodes all : list Node) (acc : list string) :
  incl nodes all -> NoDup acc -> (forall c, In c acc -> numeric_coil all c) ->
  NoDup (fold_left find_coils_alternative nodes acc) /\
  (forall c, In c (fold_left find_coils_alternative nodes acc) -> numeric_coil all c).
Proof.
  revert acc. induction nodes as [|n nodes IH]; intros acc Hincl Hnd Hacc; [split; assumption|].
  cbn [fold_left]. apply IH.
  - intros x Hx. apply Hincl. right. exact Hx.
  - unfold find_coils_alternative. destruct (node_is_group n); [|exact Hnd].
    generalize (split_slash (node_name n)) acc Hnd. clear.
    intros parts. induction parts as [|p parts IHp]; intros acc Hnd; [exact Hnd|].
    cbn [fold_left]. apply IHp.
    destruct (all_digits p && (50 <=? int_of p)%Z && (int_of p <=? 60)%Z && has_axes n);
      [|exact Hnd].
    apply CoilsFacts.append_new_NoDup. exact Hnd.
  - assert (Hn : In n all) by (apply Hincl; left; reflexivity).
    unfold find_coils_alternative. destruct (node_is_group n) eqn:Eg; [|exact Hacc].
    assert (Hparts : incl (split_slash (node_name n)) (split_slash (node_name n)))
      by apply incl_refl.
    revert Hparts Hacc. generalize (split_slash (node_name n)) at 1 3. intros parts. clear Hnd. revert acc.
    induction parts as [|p parts IHp]; intros acc Hparts Hacc; [exact Hacc|].
    cbn [fold_left]. apply IHp; [intros x Hx; apply Hparts; right; exact Hx|].
    destruct (all_digits p && (50 <=? int_of p)%Z && (int_of p <=? 60)%Z && has_axes n)
      eqn:Et; [|exact Hacc].
    apply andb_prop in Et. destruct Et as [Et Hax].
    apply andb_prop in Et. destruct Et as [Et Hhi].
    apply andb_prop in Et. destruct Et as [Hdig Hlo].
    intros c Hc. unfold Coils.append_new in Hc.
    destruct (Coils.mem _ acc); [apply Hacc, Hc|].
    apply in_app_iff in Hc. destruct Hc as [Hc|[<-|[]]]; [apply Hacc, Hc|].
    exists p, n. apply Z.leb_le in Hlo, Hhi. repeat split; auto.
    apply Hparts. left. reflexivity.
Qed.

Lemma digits_value_digits (part : string) (acc : Z) :
  Coils.digits_value acc ("coil " ++ part) = Coils.digits_value acc part.
Proof. reflexivity. Qed.

(** The coils found in a file are pairwise different.  Either all of them
    come from the first walk: a path segment of a group that contains
    "coil" in any case, has a digit and fewer than 20 characters, the group
    having members [x] and [z] or a member with an x or a z in its name.  Or
    the first walk found none and all of them are "coil N" for a segment N of
    digits with value 50 to 60 of a group with members [x] and [z]; the
    number by which such a coil is sorted is then between 50 and 60. *)
Theorem discovered_coils_pass_the_tests (nodes : list Node) :
  NoDup (discover_coils nodes) /\
  ((forall c, In c (discover_coils nodes) -> primary_coil nodes c) \/
   (fold_left find_coils nodes [] = [] /\
    forall c, In c (discover_coils nodes) ->
              numeric_coil nodes c /\
              (50 <= Coils.extract_coil_number c <= 60)%Z)).
Proof.
  unfold discover_coils.
  destruct (@find_coils_fold nodes nodes []) as [Hnd Hp];
    [apply incl_refl | constructor | intros c [] |].
  destruct (fold_left find_coils nodes []) as [|c0 found] eqn:E.
  - destruct (@find_alternative_fold nodes nodes []) as [Hnd' Hn];
      [apply incl_refl | constructor | intros c [] |].
    split; [exact Hnd'|]. right. split; [reflexivity|].
    intros c Hc. specialize (Hn c Hc). split; [exact Hn|].
    destruct Hn as (part & n & -> & _ & Hrange & _).
    unfold Coils.extract_coil_number. rewrite digits_value_digits. exact Hrange.
  - split; [exact Hnd|]. left. exact Hp.
Qed.

End ScanFacts.
